(** * OasisDB scripts and client: log monitor, compaction stress harness,
    Python client, polling script and example

    A shallow embedding of [script/log_monitor.py],
    [script/compact_test.py], [client-sdk/Python/client.py],
    [client-sdk/Python/jiankong.py] and [example.py].

    Modelling conventions.
    - A Python [str] is a [string]; characters are 8-bit, text outside ASCII
      is carried as its UTF-8 bytes.  Case mapping and whitespace act on the
      ASCII range.
    - Python values that reach the analyser come out of [json.loads]; they
      are the inductive type [pyval].  A [dict] is an association list in
      insertion order with unique keys.
    - [defaultdict(int)] is a [gmap string Z]; a missing key reads as 0.
    - [deque(maxlen=n)] is a list together with its bound.
    - Exceptions are explicit: a computation yields the state it reached and
      either a value or the exception raised.
    - The outside world (the log file growing, reads failing, the service
      answering, the clock, the stop flag flipped by another thread) is a
      list of events or observations handed to the loops.
    - The text of the log file is the text the text layer of [open] hands
      to [readline]: decoded, and with line ends already translated to the
      newline character.
    - Limits of the interpreter (recursion depth of the decoder, the digit
      limit of [int]) are outside the model; console output of the stress
      loop is not recorded, that of the monitor is.
    - The HTTP session is a function from the requests made so far to the
      reply to the last one; of a reply the model keeps what the client
      reads: status, body, text and decoded JSON.
    - Imports are taken to succeed. *)

From Stdlib Require Import ZArith NArith List String Ascii Bool Lia SpecFloat.
From stdpp Require Import base gmap strings list pretty.

Local Open Scope Z_scope.

(* ===================================================================== *)
(** ** Python strings *)
(* ===================================================================== *)

Module PyStr.

(** Code of a character, and the character of a code below 256. *)
Definition ord (c : ascii) : N := N_of_ascii c.
Definition chr (n : N) : ascii := ascii_of_N n.

Definition is_upper (c : ascii) : bool := ((65 <=? ord c) && (ord c <=? 90))%N.
Definition is_lower (c : ascii) : bool := ((97 <=? ord c) && (ord c <=? 122))%N.
Definition is_digit (c : ascii) : bool := ((48 <=? ord c) && (ord c <=? 57))%N.

Definition lower_char (c : ascii) : ascii :=
  if is_upper c then chr (ord c + 32) else c.
Definition upper_char (c : ascii) : ascii :=
  if is_lower c then chr (ord c - 32) else c.

Fixpoint map_chars (f : ascii -> ascii) (s : string) : string :=
  match s with
  | EmptyString => EmptyString
  | String c t => String (f c) (map_chars f t)
  end.

(** [s.lower()] and [s.upper()] on text within ASCII.  Outside ASCII the
    case mapping of [str] is Unicode's, which these functions do not
    follow: they leave such bytes as they are.  What is said of a level
    after a case mapping is therefore said of ASCII levels only.  The
    keyword tests of the analyser do not depend on it: no character
    outside ASCII is mapped into one of its keywords. *)
Definition lower : string -> string := map_chars lower_char.
Definition upper : string -> string := map_chars upper_char.

(** Text within ASCII. *)
Definition is_ascii_char (c : ascii) : bool := (ord c <? 128)%N.

Fixpoint is_ascii (s : string) : bool :=
  match s with
  | EmptyString => true
  | String c t => is_ascii_char c && is_ascii t
  end.

(** [needle in hay] for two strings: substring test. *)
Fixpoint contains (needle hay : string) : bool :=
  String.prefix needle hay ||
  match hay with
  | EmptyString => false
  | String _ t => contains needle t
  end.

(** Whitespace removed by [str.strip()]: tab, LF, VT, FF, CR, the four
    separators 0x1c..0x1f and the space. *)
Definition is_space (c : ascii) : bool :=
  (((9 <=? ord c) && (ord c <=? 13)) || ((28 <=? ord c) && (ord c <=? 32)))%N.

Fixpoint lstrip (s : string) : string :=
  match s with
  | EmptyString => EmptyString
  | String c t => if is_space c then lstrip t else s
  end.

(** [rstrip] keeps a character when it is not a space or when something
    remains after it. *)
Fixpoint rstrip (s : string) : string :=
  match s with
  | EmptyString => EmptyString
  | String c t =>
      match rstrip t with
      | EmptyString => if is_space c then EmptyString else String c EmptyString
      | t' => String c t'
      end
  end.

(** [s.strip()]. *)
Definition strip (s : string) : string := rstrip (lstrip s).

(** [s[n:]]. *)
Fixpoint drop (n : nat) (s : string) : string :=
  match n, s with
  | O, _ => s
  | S _, EmptyString => EmptyString
  | S n', String _ t => drop n' t
  end.

(** Decimal digits of a natural number, without sign. *)
Definition digits (n : N) : string := pretty n.

(** [int(s)] for a string of decimal digits, on top of [acc]. *)
Fixpoint digits_value (acc : N) (s : string) : N :=
  match s with
  | EmptyString => acc
  | String c t => digits_value (acc * 10 + (ord c - 48))%N t
  end.

(** [s.zfill(w)] for a string of digits: zeros on the left up to width [w]. *)
Fixpoint zeros (k : nat) : string :=
  match k with
  | O => EmptyString
  | S k' => String "0" (zeros k')
  end.
Definition zfill (w : nat) (s : string) : string :=
  zeros (w - String.length s) +:+ s.

(** [format(z, "06d")]: sign first, then zero padding to a total width of
    six; longer numbers are not truncated. *)
Definition format_06d (z : Z) : string :=
  if z <? 0 then String "-" (zfill 5 (digits (Z.to_N (- z))))
  else zfill 6 (digits (Z.to_N z)).

(** Ten to the number of characters of a string. *)
Definition pow10 (s : string) : N := (10 ^ N.of_nat (String.length s))%N.

End PyStr.

(* ===================================================================== *)
(** ** Python values and [json.loads] *)
(* ===================================================================== *)

Module Json.

Local Set Warnings "-register-all".

(** The values [json.loads] builds.  A float keeps the text of its literal:
    no claim looks at its numeric value. *)
Inductive pyval : Type :=
| PNone
| PBool (b : bool)
| PInt (z : Z)
| PFloat (lit : string)
| PStr (s : string)
| PList (l : list pyval)
| PDict (d : list (string * pyval)).

(** [d.get(k)] on the association list of a dict. *)
Fixpoint dict_get (k : string) (d : list (string * pyval)) : option pyval :=
  match d with
  | [] => None
  | (k', v) :: t => if String.eqb k k' then Some v else dict_get k t
  end.

(** [d[k] = v]: an existing key keeps its place, a new key goes last. *)
Fixpoint dict_set (k : string) (v : pyval) (d : list (string * pyval))
  : list (string * pyval) :=
  match d with
  | [] => [(k, v)]
  | (k', v') :: t =>
      if String.eqb k k' then (k', v) :: t else (k', v') :: dict_set k v t
  end.

(** [k in d]. *)
Definition dict_has (k : string) (d : list (string * pyval)) : bool :=
  match dict_get k d with Some _ => true | None => false end.

Definition dquote : ascii := PyStr.chr 34.
Definition backslash : ascii := PyStr.chr 92.

(** JSON whitespace: space, tab, LF, CR. *)
Definition is_ws (c : ascii) : bool :=
  let n := PyStr.ord c in ((n =? 32) || (n =? 9) || (n =? 10) || (n =? 13))%N.

Fixpoint skip_ws (s : string) : string :=
  match s with
  | EmptyString => EmptyString
  | String c t => if is_ws c then skip_ws t else s
  end.

Definition hex_val (c : ascii) : option N :=
  let n := PyStr.ord c in
  if PyStr.is_digit c then Some (n - 48)%N
  else if ((97 <=? n) && (n <=? 102))%N then Some (n - 87)%N
  else if ((65 <=? n) && (n <=? 70))%N then Some (n - 55)%N
  else None.

(** Four hexadecimal digits after a backslash-u. *)
Definition read_hex4 (s : string) : option (N * string) :=
  match s with
  | String a (String b (String c (String d t))) =>
      match hex_val a, hex_val b, hex_val c, hex_val d with
      | Some x, Some y, Some z, Some w =>
          Some ((((x * 16 + y) * 16 + z) * 16 + w)%N, t)
      | _, _, _, _ => None
      end
  | _ => None
  end.

(** UTF-8 bytes of a code point (a lone surrogate gets the three-byte form). *)
Definition utf8 (cp : N) : string :=
  let b := PyStr.chr in
  (if cp <? 128 then String (b cp) EmptyString
   else if cp <? 2048 then
     String (b (192 + cp / 64)) (String (b (128 + cp mod 64)) EmptyString)
   else if cp <? 65536 then
     String (b (224 + cp / 4096))
       (String (b (128 + (cp / 64) mod 64))
          (String (b (128 + cp mod 64)) EmptyString))
   else
     String (b (240 + cp / 262144))
       (String (b (128 + (cp / 4096) mod 64))
          (String (b (128 + (cp / 64) mod 64))
             (String (b (128 + cp mod 64)) EmptyString))))%N.

(** The character a one-letter escape stands for. *)
Definition unescape (e : ascii) : option ascii :=
  if Ascii.eqb e dquote then Some dquote
  else if Ascii.eqb e backslash then Some backslash
  else match e with
       | "/"%char => Some "/"%char
       | "b"%char => Some (PyStr.chr 8)
       | "f"%char => Some (PyStr.chr 12)
       | "n"%char => Some (PyStr.chr 10)
       | "r"%char => Some (PyStr.chr 13)
       | "t"%char => Some (PyStr.chr 9)
       | _ => None
       end.

(** The low half of a surrogate pair, when one follows a high half. *)
Definition low_surrogate (hi : N) (s : string) : option (N * string) :=
  if ((55296 <=? hi) && (hi <=? 56319))%N then
    match s with
    | String c1 (String "u" t) =>
        if Ascii.eqb c1 backslash then
          match read_hex4 t with
          | Some (lo, t') =>
              if ((56320 <=? lo) && (lo <=? 57343))%N
              then Some ((65536 + (hi - 55296) * 1024 + (lo - 56320))%N, t')
              else None
          | None => None
          end
        else None
    | _ => None
    end
  else None.

(** [scanstring]: the body of a string literal, the opening quote already
    consumed; strict mode, so a raw control character is an error. *)
Fixpoint scanstring (fuel : nat) (s : string) : option (string * string) :=
  match fuel with
  | O => None
  | S fuel' =>
      match s with
      | EmptyString => None
      | String c t =>
          if Ascii.eqb c dquote then Some (EmptyString, t)
          else if Ascii.eqb c backslash then
            match t with
            | EmptyString => None
            | String "u" t1 =>
                match read_hex4 t1 with
                | None => None
                | Some (u, t2) =>
                    match low_surrogate u t2 with
                    | Some (cp, t3) =>
                        match scanstring fuel' t3 with
                        | Some (r, rest) => Some (utf8 cp +:+ r, rest)
                        | None => None
                        end
                    | None =>
                        match scanstring fuel' t2 with
                        | Some (r, rest) => Some (utf8 u +:+ r, rest)
                        | None => None
                        end
                    end
                end
            | String e t1 =>
                match unescape e with
                | None => None
                | Some ch =>
                    match scanstring fuel' t1 with
                    | Some (r, rest) => Some (String ch r, rest)
                    | None => None
                    end
                end
            end
          else if (PyStr.ord c <? 32)%N then None
          else
            match scanstring fuel' t with
            | Some (r, rest) => Some (String c r, rest)
            | None => None
            end
      end
  end.

(** The longest run of decimal digits at the front of a string. *)
Fixpoint span_digits (s : string) : string * string :=
  match s with
  | EmptyString => (EmptyString, EmptyString)
  | String c t =>
      if PyStr.is_digit c
      then let '(ds, rest) := span_digits t in (String c ds, rest)
      else (EmptyString, s)
  end.

(** Integer part of a number: a single 0, or a non-zero digit and more. *)
Definition scan_int (s : string) : option (string * string) :=
  match s with
  | String "0" t => Some (String "0" EmptyString, t)
  | String c t =>
      if PyStr.is_digit c
      then let '(ds, rest) := span_digits t in Some (String c ds, rest)
      else None
  | EmptyString => None
  end.

(** Optional fraction: a dot and at least one digit. *)
Definition scan_frac (s : string) : string * string :=
  match s with
  | String "." t =>
      match span_digits t with
      | (EmptyString, _) => (EmptyString, s)
      | (ds, rest) => (String "." ds, rest)
      end
  | _ => (EmptyString, s)
  end.

(** Optional exponent: e or E, an optional sign, at least one digit. *)
Definition scan_exp (s : string) : string * string :=
  match s with
  | String e t =>
      if Ascii.eqb e "e" || Ascii.eqb e "E" then
        let '(sg, t1) :=
          match t with
          | String "+" t' => (String "+" EmptyString, t')
          | String "-" t' => (String "-" EmptyString, t')
          | _ => (EmptyString, t)
          end in
        match span_digits t1 with
        | (EmptyString, _) => (EmptyString, s)
        | (ds, rest) => (String e (sg +:+ ds), rest)
        end
      else (EmptyString, s)
  | EmptyString => (EmptyString, s)
  end.

(** A number: an [int] without fraction and exponent, otherwise a [float]. *)
Definition scan_number (s : string) : option (pyval * string) :=
  let '(neg, s1) :=
    match s with
    | String "-" t => (true, t)
    | _ => (false, s)
    end in
  match scan_int s1 with
  | None => None
  | Some (ip, s2) =>
      let '(fp, s3) := scan_frac s2 in
      let '(ep, s4) := scan_exp s3 in
      match fp, ep with
      | EmptyString, EmptyString =>
          let n := Z.of_N (PyStr.digits_value 0 ip) in
          Some (PInt (if neg then - n else n), s4)
      | _, _ =>
          Some (PFloat ((if neg then String "-" ip else ip) +:+ fp +:+ ep), s4)
      end
  end.

(** A fixed word at the front of the input. *)
Definition keyword (w : string) (v : pyval) (s : string)
  : option (pyval * string) :=
  if String.prefix w s then Some (v, PyStr.drop (String.length w) s) else None.

(** Scalars other than strings: the three names, the three non-finite
    floats Python accepts, and numbers. *)
Definition scan_scalar (s : string) : option (pyval * string) :=
  match s with
  | String "n" _ => keyword "null" PNone s
  | String "t" _ => keyword "true" (PBool true) s
  | String "f" _ => keyword "false" (PBool false) s
  | String "N" _ => keyword "NaN" (PFloat "NaN") s
  | String "I" _ => keyword "Infinity" (PFloat "Infinity") s
  | _ =>
      match keyword "-Infinity" (PFloat "-Infinity") s with
      | Some r => Some r
      | None => scan_number s
      end
  end.

(** [scan_once] with the object and array loops of the decoder. *)
Fixpoint scan_once (fuel : nat) (s : string) : option (pyval * string) :=
  match fuel with
  | O => None
  | S fuel' =>
      match s with
      | EmptyString => None
      | String c t =>
          if Ascii.eqb c dquote then
            match scanstring (S (String.length t)) t with
            | Some (str, rest) => Some (PStr str, rest)
            | None => None
            end
          else if Ascii.eqb c "{" then
            match skip_ws t with
            | String "}" rest => Some (PDict [], rest)
            | t1 => scan_members fuel' t1 []
            end
          else if Ascii.eqb c "[" then
            match skip_ws t with
            | String "]" rest => Some (PList [], rest)
            | t1 => scan_elems fuel' t1 []
            end
          else scan_scalar s
      end
  end
with scan_members (fuel : nat) (s : string) (acc : list (string * pyval))
  : option (pyval * string) :=
  match fuel with
  | O => None
  | S fuel' =>
      match s with
      | EmptyString => None
      | String c t =>
          if Ascii.eqb c dquote then
            match scanstring (S (String.length t)) t with
            | None => None
            | Some (key, r) =>
                match skip_ws r with
                | String ":" r1 =>
                    match scan_once fuel' (skip_ws r1) with
                    | None => None
                    | Some (v, r2) =>
                        let acc' := dict_set key v acc in
                        match skip_ws r2 with
                        | String "}" r3 => Some (PDict acc', r3)
                        | String "," r3 => scan_members fuel' (skip_ws r3) acc'
                        | _ => None
                        end
                    end
                | _ => None
                end
            end
          else None
      end
  end
with scan_elems (fuel : nat) (s : string) (acc : list pyval)
  : option (pyval * string) :=
  match fuel with
  | O => None
  | S fuel' =>
      match scan_once fuel' s with
      | None => None
      | Some (v, r) =>
          match skip_ws r with
          | String "]" r1 => Some (PList (acc ++ [v]), r1)
          | String "," r1 => scan_elems fuel' (skip_ws r1) (acc ++ [v])
          | _ => None
          end
      end
  end.

(** The byte-order mark, which [json.loads] refuses at the front. *)
Definition bom : string :=
  String (PyStr.chr 239) (String (PyStr.chr 187) (String (PyStr.chr 191) EmptyString)).

(** [json.loads(s)]: [None] stands for a raised [JSONDecodeError].  Every
    nested call consumes a character first, so twice the length of the text
    is fuel enough; running out of fuel would read as a decoding error. *)
Definition json_loads (s : string) : option pyval :=
  if String.prefix bom s then None
  else
    match scan_once (2 * String.length s + 2) (skip_ws s) with
    | Some (v, rest) =>
        match skip_ws rest with
        | EmptyString => Some v
        | _ => None
        end
    | None => None
    end.

(** Example log lines are written with an apostrophe where the line has a
    double quote. *)
Definition q (s : string) : string :=
  PyStr.map_chars (fun c => if Ascii.eqb c "'" then dquote else c) s.

End Json.

(* ===================================================================== *)
(** ** [collections.deque] with a bound *)
(* ===================================================================== *)

Module Deque.

Record deque (A : Type) : Type := Build { maxlen : nat; items : list A }.
Arguments Build {A} _ _.
Arguments maxlen {A} _.
Arguments items {A} _.

(** [deque(maxlen=n)]. *)
Definition empty {A : Type} (n : nat) : deque A := Build n [].

(** [d.append(x)]: the item goes on the right; when that makes the deque
    longer than its bound the leftmost item is dropped.  There is no
    failing branch. *)
Definition append {A : Type} (x : A) (d : deque A) : deque A :=
  let l := items d ++ [x] in
  Build (maxlen d) (if (maxlen d <? length l)%nat then tail l else l).

(** A run of appends, oldest first. *)
Definition extend {A : Type} (xs : list A) (d : deque A) : deque A :=
  fold_left (fun acc x => append x acc) xs d.

(** [list(d)[-k:]] for a positive [k]. *)
Definition last_n {A : Type} (k : nat) (l : list A) : list A :=
  skipn (length l - k) l.

End Deque.

(* ===================================================================== *)
(** ** Python floats: binary64 with correct rounding *)
(* ===================================================================== *)

Module PyFloat.

Definition prec : Z := 53.
Definition emax : Z := 1024.

(** [float(z)]; exact below 2^53, which counters of events never reach. *)
Definition of_int (z : Z) : spec_float := binary_normalize prec emax z 0 false.

Definition div (x y : spec_float) : spec_float := SFdiv prec emax x y.
Definition mul (x y : spec_float) : spec_float := SFmul prec emax x y.

(** [a / b * 100] on two integer counters, as written in both summaries. *)
Definition percent (a b : Z) : spec_float :=
  mul (div (of_int a) (of_int b)) (of_int 100).

(** Hundredths nearest to m * 2^e, ties to the even one. *)
Definition hundredths (m : positive) (e : Z) : Z :=
  let n := 100 * Z.pos m in
  if 0 <=? e then n * 2 ^ e
  else
    let d := 2 ^ (- e) in
    let q := n / d in
    let r := n mod d in
    if 2 * r <? d then q
    else if d <? 2 * r then q + 1
    else if Z.even q then q else q + 1.

Definition sign_text (s : bool) : string :=
  if s then "-" else EmptyString.

(** [format(x, ".2f")]: the exact binary value rounded to two decimals. *)
Definition format_2f (x : spec_float) : string :=
  match x with
  | S754_zero s => sign_text s +:+ "0.00"
  | S754_infinity s => sign_text s +:+ "inf"
  | S754_nan => "nan"
  | S754_finite s m e =>
      let h := hundredths m e in
      sign_text s +:+ PyStr.digits (Z.to_N (h / 100)) +:+ "."
        +:+ PyStr.zfill 2 (PyStr.digits (Z.to_N (h mod 100)))
  end.

End PyFloat.

(* ===================================================================== *)
(** ** [script/log_monitor.py]: class [LogMonitor] *)
(* ===================================================================== *)

Module LogMonitor.
Import Json.

(** The exceptions the analyser and the tail loop can meet. *)
Inductive exn : Type :=
| TypeError        (* [x in v] on a value that is no container *)
| AttributeError   (* [.get], [.upper] or [.lower] on a value without it *)
| ReadFailure.     (* [f.readline()] or [open] failing: OSError, decoding *)

Inductive result (A : Type) : Type :=
| Ok (a : A)
| Raised (e : exn).
Arguments Ok {A} _.
Arguments Raised {A} _.

(** An item of [compact_events] and of [get_collection_events]. *)
Record event : Type := Event {
  ev_timestamp : pyval;
  ev_level : string;
  ev_message : string;
  ev_details : pyval
}.

(** An item of [errors]. *)
Record error_event : Type := ErrorEvent {
  err_timestamp : pyval;
  err_message : string;
  err_details : pyval
}.

(** What the monitor prints, one constructor per [print] of the analyser
    and of the tail loop. *)
Inductive console_line : Type :=
| OutCompactStarted (msg : string)
| OutCompactCompleted (msg : string) (duration : pyval)
| OutCompactTriggered (msg : string)
| OutGetCollectionError (msg : string)
| OutError (msg : string)
| OutLsmError (msg : string)
| OutLsmDebug (msg : string)
| OutLogFileNotFound
| OutLogFileFound
| OutStartMonitor
| OutErrorMonitoring (e : exn).

Record monitor : Type := Monitor {
  log_file_path : string;
  is_running : bool;
  stats : gmap string Z;
  compact_events : Deque.deque event;
  errors : Deque.deque error_event;
  get_collection_events : Deque.deque event;
  console : list console_line
}.

(** [LogMonitor.__init__]. *)
Definition init (path : string) : monitor :=
  {| log_file_path := path;
     is_running := true;
     stats := ∅;
     compact_events := Deque.empty 100;
     errors := Deque.empty 50;
     get_collection_events := Deque.empty 100;
     console := [] |}.

(** [self.stats.get(k, 0)], which is also what [self.stats[k]] reads. *)
Definition counter (k : string) (m : monitor) : Z := default 0 (stats m !! k).

(** *** Computations over the monitor that may raise *)

Definition M (A : Type) : Type := monitor -> monitor * result A.

Definition ret {A : Type} (a : A) : M A := fun m => (m, Ok a).
Definition raise {A : Type} (e : exn) : M A := fun m => (m, Raised e).
Definition bind {A B : Type} (c : M A) (k : A -> M B) : M B :=
  fun m =>
    match c m with
    | (m', Ok a) => k a m'
    | (m', Raised e) => (m', Raised e)
    end.
Definition lift {A : Type} (r : result A) : M A := fun m => (m, r).
Definition modify (f : monitor -> monitor) : M unit := fun m => (f m, Ok tt).

Notation "x <- c ;; k" := (bind c (fun x => k))
  (at level 100, c at next level, right associativity).
Notation "c ;; k" := (bind c (fun _ => k))
  (at level 100, right associativity).

(** [self.stats[k] += 1]. *)
Definition bump (k : string) : M unit :=
  modify (fun m =>
    {| log_file_path := log_file_path m; is_running := is_running m;
       stats := <[k := counter k m + 1]> (stats m);
       compact_events := compact_events m; errors := errors m;
       get_collection_events := get_collection_events m;
       console := console m |}).

Definition push_compact (e : event) : M unit :=
  modify (fun m =>
    {| log_file_path := log_file_path m; is_running := is_running m;
       stats := stats m;
       compact_events := Deque.append e (compact_events m);
       errors := errors m;
       get_collection_events := get_collection_events m;
       console := console m |}).

Definition push_error (e : error_event) : M unit :=
  modify (fun m =>
    {| log_file_path := log_file_path m; is_running := is_running m;
       stats := stats m;
       compact_events := compact_events m;
       errors := Deque.append e (errors m);
       get_collection_events := get_collection_events m;
       console := console m |}).

Definition push_get_collection (e : event) : M unit :=
  modify (fun m =>
    {| log_file_path := log_file_path m; is_running := is_running m;
       stats := stats m;
       compact_events := compact_events m; errors := errors m;
       get_collection_events := Deque.append e (get_collection_events m);
       console := console m |}).

Definition print (l : console_line) : M unit :=
  modify (fun m =>
    {| log_file_path := log_file_path m; is_running := is_running m;
       stats := stats m;
       compact_events := compact_events m; errors := errors m;
       get_collection_events := get_collection_events m;
       console := console m ++ [l] |}).

Definition set_running (b : bool) (m : monitor) : monitor :=
  {| log_file_path := log_file_path m; is_running := b;
     stats := stats m;
     compact_events := compact_events m; errors := errors m;
     get_collection_events := get_collection_events m;
     console := console m |}.

(** *** Operations on Python values *)

Definition is_str (s : string) (v : pyval) : bool :=
  match v with
  | PStr s' => String.eqb s s'
  | _ => false
  end.

(** [needle in hay] with a string on the left: substring of a str, element
    of a list, key of a dict; anything else is no container. *)
Definition py_in (needle : string) (hay : pyval) : result bool :=
  match hay with
  | PStr s => Ok (PyStr.contains needle s)
  | PList l => Ok (existsb (is_str needle) l)
  | PDict d => Ok (dict_has needle d)
  | _ => Raised TypeError
  end.

(** [entry.get(k, dflt)]: only a dict has [get]. *)
Definition py_get (entry : pyval) (k : string) (dflt : pyval) : result pyval :=
  match entry with
  | PDict d => Ok (default dflt (dict_get k d))
  | _ => Raised AttributeError
  end.

(** The receiver of [.upper()] or [.lower()] has to be a str. *)
Definition as_str (v : pyval) : result string :=
  match v with
  | PStr s => Ok s
  | _ => Raised AttributeError
  end.

(** A field as the analyser reads it, when what it reads is a str; a
    missing field reads as the empty str. *)
Definition str_field (k : string) (d : list (string * pyval)) : option string :=
  match default (PStr EmptyString) (dict_get k d) with
  | PStr s => Some s
  | _ => None
  end.

(** *** [parse_log_line] *)

(** [json.loads(line.strip())], and on any exception the one-key dict. *)
Definition parse_log_line (line : string) : pyval :=
  match json_loads (PyStr.strip line) with
  | Some v => v
  | None => PDict [("raw", PStr (PyStr.strip line))]
  end.

(** *** [analyze_log_entry] *)

Definition lsm_keywords : list string := ["failed"; "error"; "panic"].

(** The four tracking sections of the analyser, in the order of the source.
    [level] is the upper-cased level, [msg] the message and [lmsg] its
    [msg.lower()]. *)

(** "Track compact events". *)
Definition track_compact (entry timestamp : pyval) (level msg lmsg : string)
  : M unit :=
  if PyStr.contains "compact" lmsg then
    push_compact (Event timestamp level msg entry) ;;
    bump "compact_events" ;;
    (* Specific compact event types *)
    if PyStr.contains "starting" lmsg then
      bump "compact_started" ;;
      print (OutCompactStarted msg)
    else if PyStr.contains "completed" lmsg then
      bump "compact_completed" ;;
      duration <- lift (py_get entry "duration" (PStr "unknown")) ;;
      print (OutCompactCompleted msg duration)
    else if PyStr.contains "trigger" lmsg then
      bump "compact_triggered" ;;
      print (OutCompactTriggered msg)
    else ret tt
  else ret tt.

(** "Track collection-related events".  The [or] evaluates its right side,
    the read of the caller field, only when the left side is false. *)
Definition track_collection (entry timestamp : pyval) (level msg lmsg : string)
  : M unit :=
  if PyStr.contains "collection" lmsg then
    is_get <- (if PyStr.contains "get" lmsg then ret true
               else
                 caller <- lift (py_get entry "caller" (PStr EmptyString)) ;;
                 lift (py_in "GetCollection" caller)) ;;
    if is_get : bool then
      push_get_collection (Event timestamp level msg entry) ;;
      if String.eqb level "ERROR" then
        bump "get_collection_errors" ;;
        print (OutGetCollectionError msg)
      else bump "get_collection_success"
    else ret tt
  else ret tt.

(** "Track errors". *)
Definition track_errors (entry timestamp : pyval) (level msg : string)
  : M unit :=
  if String.eqb level "ERROR" then
    push_error (ErrorEvent timestamp msg entry) ;;
    bump "total_errors" ;;
    print (OutError msg)
  else ret tt.

(** "Track specific LSM Tree operations". *)
Definition track_lsm (level msg lmsg : string) : M unit :=
  if PyStr.contains "lsm" lmsg || PyStr.contains "sstable" lmsg
     || PyStr.contains "memtable" lmsg then
    bump "lsm_operations" ;;
    if String.eqb level "ERROR" then print (OutLsmError msg)
    else if PyStr.contains "debug" (PyStr.lower level) then
      if existsb (fun keyword => PyStr.contains keyword lmsg) lsm_keywords
      then print (OutLsmDebug msg)
      else ret tt
    else ret tt
  else ret tt.

Definition analyze_log_entry (entry : pyval) : M unit :=
  has_raw <- lift (py_in "raw" entry) ;;
  if has_raw : bool then ret tt   (* Skip non-JSON entries *)
  else
    level0 <- lift (py_get entry "level" (PStr EmptyString)) ;;
    level_s <- lift (as_str level0) ;;
    let level := PyStr.upper level_s in
    msg0 <- lift (py_get entry "msg" (PStr EmptyString)) ;;
    timestamp <- lift (py_get entry "ts" (PStr EmptyString)) ;;
    (* Count log levels *)
    bump ("log_level_" +:+ PyStr.lower level) ;;
    (* the first [msg.lower()] needs [msg] to be a str *)
    msg <- lift (as_str msg0) ;;
    let lmsg := PyStr.lower msg in
    track_compact entry timestamp level msg lmsg ;;
    track_collection entry timestamp level msg lmsg ;;
    track_errors entry timestamp level msg ;;
    track_lsm level msg lmsg.

(** The counters a well-typed entry makes the analyser increment, section
    by section. *)
Definition compact_keys (lmsg : string) : list string :=
  if PyStr.contains "compact" lmsg then
    "compact_events" ::
    (if PyStr.contains "starting" lmsg then ["compact_started"]
     else if PyStr.contains "completed" lmsg then ["compact_completed"]
     else if PyStr.contains "trigger" lmsg then ["compact_triggered"]
     else [])
  else [].

Definition collection_keys (level lmsg caller : string) : list string :=
  if PyStr.contains "collection" lmsg
     && (PyStr.contains "get" lmsg || PyStr.contains "GetCollection" caller)
  then
    if String.eqb level "ERROR" then ["get_collection_errors"]
    else ["get_collection_success"]
  else [].

Definition error_keys (level : string) : list string :=
  if String.eqb level "ERROR" then ["total_errors"] else [].

Definition lsm_keys (lmsg : string) : list string :=
  if PyStr.contains "lsm" lmsg || PyStr.contains "sstable" lmsg
     || PyStr.contains "memtable" lmsg
  then ["lsm_operations"] else [].

Definition analysis_keys (level_s msg caller : string) : list string :=
  let level := PyStr.upper level_s in
  let lmsg := PyStr.lower msg in
  ("log_level_" +:+ PyStr.lower level)
  :: compact_keys lmsg ++ collection_keys level lmsg caller
  ++ error_keys level ++ lsm_keys lmsg.

(** Number of times a key occurs in a list of keys. *)
Definition occurrences (k : string) (ks : list string) : Z :=
  Z.of_nat (length (List.filter (String.eqb k) ks)).

(** A computation that returns normally and whose effect on the counters is
    one increment per occurrence of a key in [ks]. *)
Definition bumps (c : M unit) (ks : list string) : Prop :=
  forall m,
    snd (c m) = Ok tt /\
    forall k, counter k (fst (c m)) = counter k m + occurrences k ks.


(** Each buffer has the bound [__init__] gave it and holds no more. *)
Definition buffers_bounded (m : monitor) : Prop :=
  Deque.maxlen (compact_events m) = 100%nat
  /\ (length (Deque.items (compact_events m)) <= 100)%nat
  /\ Deque.maxlen (errors m) = 50%nat
  /\ (length (Deque.items (errors m)) <= 50)%nat
  /\ Deque.maxlen (get_collection_events m) = 100%nat
  /\ (length (Deque.items (get_collection_events m)) <= 100)%nat.

(** A computation that keeps a property of the monitor, whether it returns
    or raises. *)
Definition preserves {A : Type} (P : monitor -> Prop) (c : M A) : Prop :=
  forall m, P m -> P (fst (c m)).

(** *** [tail_log_file] *)

Definition newline : ascii := PyStr.chr 10.

(** [f.readline()] on the text from the reading position on: up to and
    including the first newline, or all of it when there is none. *)
Fixpoint take_line (s : string) : string :=
  match s with
  | EmptyString => EmptyString
  | String c t =>
      if Ascii.eqb c newline then String c EmptyString
      else String c (take_line t)
  end.

(** Where the function is: in the loop that waits for the file, in the
    read loop with the handle at an offset, or back at its caller. *)
Inductive phase : Type :=
| Waiting
| Tailing (pos : nat)
| Returned.

Record tail_state : Type := TailState {
  mon : monitor;
  file : option string;   (* text of the log file; [None] before it exists *)
  where_ : phase;
  emitted : list string   (* the lines [readline] handed over, oldest first *)
}.

(** What happens around the tail thread: the server appends to the log, the
    loop makes one turn (with its read working or failing), or somebody
    calls [stop]. *)
Inductive tail_event : Type :=
| Append (text : string)
| Poll
| PollReadError
| Stop.

Definition say (l : console_line) (m : monitor) : monitor := fst (print l m).

(** [LogMonitor.stop]. *)
Definition stop (m : monitor) : monitor := set_running false m.

(** Entry of [tail_log_file] up to the first loop it reaches. *)
Definition tail_log_file (m : monitor) (f : option string) : tail_state :=
  match f with
  | None =>
      {| mon := say OutLogFileNotFound m; file := None;
         where_ := Waiting; emitted := [] |}
  | Some text =>
      (* open, then f.seek(0, 2) *)
      {| mon := say OutStartMonitor m; file := Some text;
         where_ := Tailing (String.length text); emitted := [] |}
  end.

(** The [except Exception] around the whole body: print and return. *)
Definition on_exception (e : exn) (st : tail_state) : tail_state :=
  {| mon := say (OutErrorMonitoring e) (mon st); file := file st;
     where_ := Returned; emitted := emitted st |}.

(** One turn of the loop the function is in. *)
Definition poll (fails : bool) (st : tail_state) : tail_state :=
  match where_ st with
  | Returned => st
  | Waiting =>
      match file st, is_running (mon st) with
      | None, true => st                               (* time.sleep(1) *)
      | _, false =>
          {| mon := mon st; file := file st; where_ := Returned;
             emitted := emitted st |}
      | Some text, true =>
          let st1 := {| mon := say OutLogFileFound (mon st); file := file st;
                        where_ := Waiting; emitted := emitted st |} in
          if fails then on_exception ReadFailure st1
          else
            {| mon := say OutStartMonitor (mon st1); file := file st;
               where_ := Tailing (String.length text); emitted := emitted st |}
      end
  | Tailing pos =>
      if negb (is_running (mon st)) then
        {| mon := mon st; file := file st; where_ := Returned;
           emitted := emitted st |}
      else if fails then on_exception ReadFailure st
      else
        match take_line (PyStr.drop pos (default EmptyString (file st))) with
        | EmptyString => st                            (* time.sleep(0.1) *)
        | line =>
            let pos' := (pos + String.length line)%nat in
            match analyze_log_entry (parse_log_line line) (mon st) with
            | (m', Ok _) =>
                {| mon := m'; file := file st; where_ := Tailing pos';
                   emitted := emitted st ++ [line] |}
            | (m', Raised e) =>
                on_exception e
                  {| mon := m'; file := file st; where_ := Tailing pos';
                     emitted := emitted st ++ [line] |}
            end
        end
  end.

Definition tail_step (st : tail_state) (ev : tail_event) : tail_state :=
  match ev with
  | Append text =>
      {| mon := mon st;
         file := Some (default EmptyString (file st) +:+ text);
         where_ := where_ st; emitted := emitted st |}
  | Stop =>
      {| mon := stop (mon st); file := file st; where_ := where_ st;
         emitted := emitted st |}
  | Poll => poll false st
  | PollReadError => poll true st
  end.

Definition tail_run (evs : list tail_event) (st : tail_state) : tail_state :=
  fold_left tail_step evs st.

(** The text the events append, in order. *)
Fixpoint appended (evs : list tail_event) : string :=
  match evs with
  | [] => EmptyString
  | Append text :: rest => text +:+ appended rest
  | _ :: rest => appended rest
  end.

Definition is_tailing (st : tail_state) : bool :=
  match where_ st with
  | Tailing _ => true
  | _ => false
  end.

(** The pieces the events append, one per [Append]. *)
Fixpoint texts (evs : list tail_event) : list string :=
  match evs with
  | [] => []
  | Append text :: rest => text :: texts rest
  | _ :: rest => texts rest
  end.

(** Pieces of text put end to end. *)
Fixpoint join (l : list string) : string :=
  match l with
  | [] => EmptyString
  | s :: rest => s +:+ join rest
  end.

(** A whole line: characters other than the newline, then one newline. *)
Fixpoint whole_line (s : string) : bool :=
  match s with
  | EmptyString => false
  | String c t =>
      if Ascii.eqb c newline
      then match t with EmptyString => true | _ => false end
      else whole_line t
  end.

(** A failed read read as a turn without data: the run goes on as if the
    turn had not been there, with the same lines handed over and the loop
    as alive as without it. *)
Definition read_failure_is_transient : Prop :=
  forall st pos evs,
    where_ st = Tailing pos ->
    is_running (mon st) = true ->
    emitted (tail_run (PollReadError :: evs) st) = emitted (tail_run evs st)
    /\ is_tailing (tail_run (PollReadError :: evs) st)
       = is_tailing (tail_run evs st).

(** *** [print_stats] *)

(** The lines of the summary, one constructor per [print]. *)
Inductive summary_line : Type :=
| SumLevel (level : string) (n : Z)
| SumCompact (events started completed triggered : Z)
| SumGetCollection (success errors : Z)
| SumSuccessRate (text : string)
| SumErrors (total lsm : Z)
| SumRecentCompact (timestamp : pyval) (msg : string)
| SumRecentError (timestamp : pyval) (msg : string).

(** [s.replace(old, EmptyString)] for a non-empty [old]. *)
Fixpoint remove_all (old : string) (skip : nat) (s : string) : string :=
  match s with
  | EmptyString => EmptyString
  | String c t =>
      match skip with
      | S k => remove_all old k t
      | O =>
          if String.prefix old s
          then remove_all old (String.length old - 1) t
          else String c (remove_all old 0 t)
      end
  end.

Fixpoint insert_sorted (kv : string * Z) (l : list (string * Z))
  : list (string * Z) :=
  match l with
  | [] => [kv]
  | kv' :: t =>
      if String.leb (fst kv) (fst kv') then kv :: l
      else kv' :: insert_sorted kv t
  end.

(** [sorted(self.stats.items())]. *)
Definition sorted_items (m : gmap string Z) : list (string * Z) :=
  fold_right insert_sorted [] (map_to_list m).

(** The guarded success-rate line: printed only when there was at least one
    collection-get event. *)
Definition success_rate_line (success errors : Z) : list summary_line :=
  if 0 <? success + errors then
    [SumSuccessRate
       (PyFloat.format_2f (PyFloat.percent success (success + errors)) +:+ "%")]
  else [].

Definition print_stats (m : monitor) : list summary_line :=
  let levels :=
    omap (fun kv : string * Z =>
            if String.prefix "log_level_" (fst kv)
            then Some (SumLevel
                         (PyStr.upper (remove_all "log_level_" 0 (fst kv)))
                         (snd kv))
            else None)
         (sorted_items (stats m)) in
  let success := counter "get_collection_success" m in
  let errs := counter "get_collection_errors" m in
  levels
  ++ [SumCompact (counter "compact_events" m) (counter "compact_started" m)
        (counter "compact_completed" m) (counter "compact_triggered" m)]
  ++ [SumGetCollection success errs]
  ++ success_rate_line success errs
  ++ [SumErrors (counter "total_errors" m) (counter "lsm_operations" m)]
  ++ map (fun e => SumRecentCompact (ev_timestamp e) (ev_message e))
         (Deque.last_n 5 (Deque.items (compact_events m)))
  ++ map (fun e => SumRecentError (err_timestamp e) (err_message e))
         (Deque.last_n 3 (Deque.items (errors m))).

(** *** Entries, monitors and runs used as examples; invariants of the
    tail loop *)



(** The entry of the line
    {"raw":"x","level":"ERROR","msg":"compact starting"}. *)
Definition json_with_raw_key : list (string * pyval) :=
  [("raw", PStr "x"); ("level", PStr "ERROR");
   ("msg", PStr "compact starting")].

(** A monitor that saw 97 successful and 3 failed collection gets. *)
Definition monitor_97_3 : monitor :=
  {| log_file_path := "oasisdb.log"; is_running := true;
     stats := <["get_collection_success" := 97]>
                (<["get_collection_errors" := 3]> ∅);
     compact_events := Deque.empty 100; errors := Deque.empty 50;
     get_collection_events := Deque.empty 100; console := [] |}.

(** The parts of the monitor the analyser writes. *)
Definition same_records (m1 m2 : monitor) : Prop :=
  stats m1 = stats m2
  /\ compact_events m1 = compact_events m2
  /\ errors m1 = errors m2
  /\ get_collection_events m1 = get_collection_events m2
  /\ console m1 = console m2.

(** A line of text: the text and a newline. *)
Definition line_of (s : string) : string := s +:+ String newline EmptyString.

(** The tailer follows a file that started as [pre] and received the
    whole lines [T]: it has handed over the first [k] of them and its
    handle stands right behind them. *)
Definition tracks (pre : string) (T : list string) (k : nat)
    (st : tail_state) : Prop :=
  file st = Some (pre +:+ join T)
  /\ (k <= length T)%nat
  /\ emitted st = take k T
  /\ where_ st <> Waiting
  /\ forall pos, where_ st = Tailing pos ->
                 pos = String.length (pre +:+ join (take k T)).



(** *** Further views of the analyser *)

(** A computation under which no counter goes down, whether it returns or
    raises. *)
Definition never_decreases {A : Type} (c : M A) : Prop :=
  forall m k, counter k m <= counter k (fst (c m)).

(** What a computation adds to the three buffers and to the console. *)
Record trace : Type := Trace {
  tr_compact : list event;
  tr_errors : list error_event;
  tr_gets : list event;
  tr_lines : list console_line
}.

Definition no_trace : trace := Trace [] [] [] [].

Definition trace_app (a b : trace) : trace :=
  {| tr_compact := tr_compact a ++ tr_compact b;
     tr_errors := tr_errors a ++ tr_errors b;
     tr_gets := tr_gets a ++ tr_gets b;
     tr_lines := tr_lines a ++ tr_lines b |}.

(** A computation that returns normally, appends the records of [tr] to
    the buffers and its lines to the console, and leaves the flag and the
    path alone. *)
Definition leaves (c : M unit) (tr : trace) : Prop :=
  forall m,
    snd (c m) = Ok tt
    /\ compact_events (fst (c m))
       = Deque.extend (tr_compact tr) (compact_events m)
    /\ errors (fst (c m)) = Deque.extend (tr_errors tr) (errors m)
    /\ get_collection_events (fst (c m))
       = Deque.extend (tr_gets tr) (get_collection_events m)
    /\ console (fst (c m)) = console m ++ tr_lines tr
    /\ is_running (fst (c m)) = is_running m
    /\ log_file_path (fst (c m)) = log_file_path m.

(** The records and lines a well-typed entry leaves, section by section;
    [d] is the dict, [ts] what it holds under ts. *)
Definition compact_trace (d : list (string * pyval)) (ts : pyval)
    (level msg lmsg : string) : trace :=
  if PyStr.contains "compact" lmsg then
    {| tr_compact := [Event ts level msg (PDict d)];
       tr_errors := []; tr_gets := [];
       tr_lines :=
         if PyStr.contains "starting" lmsg then [OutCompactStarted msg]
         else if PyStr.contains "completed" lmsg then
           [OutCompactCompleted msg
              (default (PStr "unknown") (dict_get "duration" d))]
         else if PyStr.contains "trigger" lmsg then [OutCompactTriggered msg]
         else [] |}
  else no_trace.

Definition collection_trace (d : list (string * pyval)) (ts : pyval)
    (level msg lmsg caller : string) : trace :=
  if PyStr.contains "collection" lmsg
     && (PyStr.contains "get" lmsg || PyStr.contains "GetCollection" caller)
  then
    {| tr_compact := []; tr_errors := [];
       tr_gets := [Event ts level msg (PDict d)];
       tr_lines := if String.eqb level "ERROR"
                   then [OutGetCollectionError msg] else [] |}
  else no_trace.

Definition error_trace (d : list (string * pyval)) (ts : pyval)
    (level msg : string) : trace :=
  if String.eqb level "ERROR" then
    {| tr_compact := []; tr_errors := [ErrorEvent ts msg (PDict d)];
       tr_gets := []; tr_lines := [OutError msg] |}
  else no_trace.

Definition lsm_trace (level msg lmsg : string) : trace :=
  if PyStr.contains "lsm" lmsg || PyStr.contains "sstable" lmsg
     || PyStr.contains "memtable" lmsg then
    {| tr_compact := []; tr_errors := []; tr_gets := [];
       tr_lines :=
         if String.eqb level "ERROR" then [OutLsmError msg]
         else if PyStr.contains "debug" (PyStr.lower level) then
           if existsb (fun keyword => PyStr.contains keyword lmsg) lsm_keywords
           then [OutLsmDebug msg] else []
         else [] |}
  else no_trace.

Definition analysis_trace (d : list (string * pyval))
    (level_s msg caller : string) : trace :=
  let level := PyStr.upper level_s in
  let lmsg := PyStr.lower msg in
  let ts := default (PStr EmptyString) (dict_get "ts" d) in
  trace_app (compact_trace d ts level msg lmsg)
    (trace_app (collection_trace d ts level msg lmsg caller)
       (trace_app (error_trace d ts level msg) (lsm_trace level msg lmsg))).

(** Every character of a string is white space. *)
Fixpoint all_space (s : string) : bool :=
  match s with
  | EmptyString => true
  | String c t => PyStr.is_space c && all_space t
  end.


(** *** Further views of the tail loop *)

(** The analyser applied to the lines of a list in turn, up to the first
    one on which it raises: what the read loop does with the lines it is
    given. *)
Fixpoint feed (lines : list string) (m : monitor) : monitor * result unit :=
  match lines with
  | [] => (m, Ok tt)
  | line :: rest =>
      match analyze_log_entry (parse_log_line line) m with
      | (m', Ok _) => feed rest m'
      | (m', Raised e) => (m', Raised e)
      end
  end.

(** Events of a run in which nobody stops the monitor and no read fails. *)
Definition undisturbed (ev : tail_event) : bool :=
  match ev with
  | Append _ | Poll => true
  | PollReadError | Stop => false
  end.





(** The tailer has handed over the first [k] of the whole lines [T]
    appended to a file that started as [pre], the flag is set, and the
    monitor is what feeding these lines to [m0] gives: still reading when
    the analyser returned on all of them, returned itself with the
    exception printed when the analyser raised. *)
Definition fed (pre : string) (m0 : monitor) (T : list string) (k : nat)
    (st : tail_state) : Prop :=
  tracks pre T k st
  /\ is_running (mon st) = true
  /\ ((is_tailing st = true /\ feed (take k T) m0 = (mon st, Ok tt))
      \/ (where_ st = Returned
          /\ exists m' e, feed (take k T) m0 = (m', Raised e)
                          /\ mon st = say (OutErrorMonitoring e) m')).

(** A turn of the loop, with the read working or failing. *)
Definition is_turn (ev : tail_event) : bool :=
  match ev with
  | Poll | PollReadError => true
  | Append _ | Stop => false
  end.

Definition is_append (ev : tail_event) : bool :=
  match ev with
  | Append _ => true
  | _ => false
  end.

End LogMonitor.

(* ===================================================================== *)
(** ** [script/compact_test.py]: class [CompactTester] *)
(* ===================================================================== *)

Module CompactTester.

(** A generated document.  Vector and parameters are random; [doc_draw]
    stands for the draws that fix them. *)
Record document : Type := Document {
  doc_id : string;
  doc_draw : nat;
  doc_dimension : Z
}.

(** An item of [self.errors]. *)
Record error_record : Type := ErrorRecord {
  err_timestamp : Z;
  err_type : string;
  err_error : string;
  err_doc_id : option string
}.

(** [self.stats], a dict with four fixed keys. *)
Record stats_dict : Type := Stats {
  documents_inserted : Z;
  get_collection_success : Z;
  get_collection_failures : Z;
  compact_triggers : Z
}.

Record tester : Type := Tester {
  collection_name : string;
  dimension : Z;
  is_running : bool;
  errors : list error_record;
  stats : stats_dict;
  requests : list (list document)  (* batches handed to the client so far *)
}.

(** [CompactTester.__init__]. *)
Definition init (collection : string) : tester :=
  {| collection_name := collection;
     dimension := 128;
     is_running := true;
     errors := [];
     stats := Stats 0 0 0 0;
     requests := [] |}.

(** The answer of the service to one call: [None] when it returns,
    [Some e] when the client raises with text [e]. *)
Definition outcome : Type := option string.

(** What one call of [insert_documents_batch] meets. *)
Record batch_world : Type := BatchWorld {
  draws : nat -> nat;    (* random draws, one per document *)
  upsert : outcome;      (* batch_upsert_documents *)
  upsert_clock : Z       (* time.time() in the handler *)
}.

(** What one turn of the stress loop meets. *)
Record turn_world : Type := TurnWorld {
  now : Z;                       (* time.time() in the loop test *)
  stop_requested : bool;         (* is_running cleared from outside *)
  monitor_polls : list (outcome * Z);
                                 (* turns of the monitor thread since the
                                    last turn: get_collection and clock *)
  batch : batch_world;
  search : outcome;              (* search_vectors *)
  search_clock : Z
}.

Definition set_errors (l : list error_record) (t : tester) : tester :=
  {| collection_name := collection_name t; dimension := dimension t;
     is_running := is_running t; errors := l; stats := stats t;
     requests := requests t |}.

Definition set_stats (s : stats_dict) (t : tester) : tester :=
  {| collection_name := collection_name t; dimension := dimension t;
     is_running := is_running t; errors := errors t; stats := s;
     requests := requests t |}.

Definition set_running (b : bool) (t : tester) : tester :=
  {| collection_name := collection_name t; dimension := dimension t;
     is_running := b; errors := errors t; stats := stats t;
     requests := requests t |}.

Definition send (docs : list document) (t : tester) : tester :=
  {| collection_name := collection_name t; dimension := dimension t;
     is_running := is_running t; errors := errors t; stats := stats t;
     requests := requests t ++ [docs] |}.

(** [self.errors.append(...)]. *)
Definition record_error (e : error_record) (t : tester) : tester :=
  set_errors (errors t ++ [e]) t.

(** [generate_random_document]. *)
Definition generate_random_document (t : tester) (draw : nat) (id : string)
  : document :=
  {| doc_id := id; doc_draw := draw; doc_dimension := dimension t |}.

(** The id pattern, doc_ and the number in format 06d. *)
Definition doc_name (n : Z) : string := "doc_" +:+ PyStr.format_06d n.

(** The id of document [i] of a batch built when the counter reads
    [inserted]. *)
Definition batch_doc_id (inserted : Z) (i : nat) : string :=
  doc_name (inserted + Z.of_nat i + 1).

(** [range(batch_size)]: empty for a size of zero or less. *)
Definition range (n : Z) : list nat := seq 0 (Z.to_nat n).

(** The documents of one batch. *)
Definition build_batch (batch_size : Z) (w : batch_world) (t : tester)
  : list document :=
  map (fun i =>
         generate_random_document t (draws w i)
           (batch_doc_id (documents_inserted (stats t)) i))
      (range batch_size).

(** [insert_documents_batch]. *)
Definition insert_documents_batch (batch_size : Z) (w : batch_world)
    (t : tester) : tester * bool :=
  let documents := build_batch batch_size w t in
  let t1 := send documents t in
  match upsert w with
  | None =>
      let s := stats t1 in
      (set_stats
         {| documents_inserted := documents_inserted s + batch_size;
            get_collection_success := get_collection_success s;
            get_collection_failures := get_collection_failures s;
            compact_triggers := compact_triggers s |} t1,
       true)
  | Some e =>
      (record_error
         {| err_timestamp := upsert_clock w; err_type := "insert_failure";
            err_error := e; err_doc_id := None |} t1,
       false)
  end.

(** One turn of [monitor_collection_status], the background thread. *)
Definition monitor_collection_status (p : outcome * Z) (t : tester) : tester :=
  if is_running t then
    let s := stats t in
    match fst p with
    | None =>
        set_stats
          {| documents_inserted := documents_inserted s;
             get_collection_success := get_collection_success s + 1;
             get_collection_failures := get_collection_failures s;
             compact_triggers := compact_triggers s |} t
    | Some e =>
        record_error
          {| err_timestamp := snd p; err_type := "get_collection_failure";
             err_error := e; err_doc_id := None |}
          (set_stats
             {| documents_inserted := documents_inserted s;
                get_collection_success := get_collection_success s;
                get_collection_failures := get_collection_failures s + 1;
                compact_triggers := compact_triggers s |} t)
    end
  else t.

(** The search probe after a batch that went through. *)
Definition search_probe (w : turn_world) (t : tester) : tester :=
  match search w with
  | None => t
  | Some e =>
      record_error
        {| err_timestamp := search_clock w; err_type := "search_failure";
           err_error := e; err_doc_id := None |} t
  end.

(** The body of the [while] of [run_stress_test]. *)
Definition stress_turn (batch_size : Z) (w : turn_world) (t : tester) : tester :=
  let '(t1, ok) := insert_documents_batch batch_size (batch w) t in
  if ok then search_probe w t1 else t1.

(** How far the loop got when the observations end. *)
Record loop_state : Type := LoopState {
  loop_tester : tester;
  batch_count : Z;
  loop_active : bool    (* [true]: still in the [while] *)
}.

(** The [while time.time() < end_time and self.is_running] loop over the
    turns the world allows to observe.  Leaving the loop clears the flag. *)
Fixpoint stress_loop (batch_size end_time : Z) (ws : list turn_world)
    (count : Z) (t : tester) : loop_state :=
  match ws with
  | [] => {| loop_tester := t; batch_count := count; loop_active := true |}
  | w :: rest =>
      let t0 := fold_left (fun acc p => monitor_collection_status p acc)
                  (monitor_polls w) t in
      let t1 := if stop_requested w then set_running false t0 else t0 in
      if (now w <? end_time) && is_running t1 then
        stress_loop batch_size end_time rest (count + 1)
          (stress_turn batch_size w t1)
      else
        {| loop_tester := set_running false t1; batch_count := count;
           loop_active := false |}
  end.

(** [run_stress_test] from a clock reading [start_time]. *)
Definition run_stress_test (duration_minutes batch_size start_time : Z)
    (ws : list turn_world) (t : tester) : loop_state :=
  stress_loop batch_size (start_time + duration_minutes * 60) ws 0 t.

(** The guarded success-rate line of [print_stats]. *)
Definition success_rate_line (t : tester) : option string :=
  let success := get_collection_success (stats t) in
  let failures := get_collection_failures (stats t) in
  if 0 <? success + failures then
    Some (PyFloat.format_2f (PyFloat.percent success (success + failures))
          +:+ "%")
  else None.

(** [print_stats]: the three counters, the number of errors, and the
    success rate when there is one. *)
Definition print_stats (t : tester) : Z * Z * Z * nat * option string :=
  (documents_inserted (stats t), get_collection_success (stats t),
   get_collection_failures (stats t), length (errors t),
   success_rate_line t).

(** Number of records of a kind in the error list. *)
Definition count_kind (kind : string) (l : list error_record) : nat :=
  length (List.filter (fun e => String.eqb (err_type e) kind) l).

(** All the ids handed to the client, batch after batch. *)
Definition sent_ids (t : tester) : list string :=
  concat (map (map doc_id) (requests t)).

(** The turns the loop runs when it starts with the flag set: those up to
    the first one whose test fails, by the clock or by the flag. *)
Fixpoint turns_run (end_time : Z) (ws : list turn_world) : list turn_world :=
  match ws with
  | [] => []
  | w :: rest =>
      if (now w <? end_time) && negb (stop_requested w)
      then w :: turns_run end_time rest
      else []
  end.

(** The batch write of a turn went through. *)
Definition succeeded (w : turn_world) : bool :=
  match upsert (batch w) with
  | None => true
  | Some _ => false
  end.

Definition count_succeeded (ws : list turn_world) : Z :=
  Z.of_nat (length (List.filter succeeded ws)).

Definition count_failed (ws : list turn_world) : Z :=
  Z.of_nat (length (List.filter (fun w => negb (succeeded w)) ws)).

(** Every turn before the last one wrote its batch. *)
Fixpoint all_but_last_succeeded (ws : list turn_world) : bool :=
  match ws with
  | [] => true
  | w :: rest =>
      match rest with
      | [] => true
      | _ :: _ => succeeded w && all_but_last_succeeded rest
      end
  end.

(** The document numbers of the batches of a run that starts with the
    counter at [c]. *)
Fixpoint numbers_from (c batch_size : Z) (ws : list turn_world) : list Z :=
  match ws with
  | [] => []
  | w :: rest =>
      map (fun i => c + Z.of_nat i + 1) (range batch_size)
      ++ numbers_from (if succeeded w then c + batch_size else c)
           batch_size rest
  end.

(** Number of insert_failure records, as an integer. *)
Definition insert_failures (t : tester) : Z :=
  Z.of_nat (count_kind "insert_failure" (errors t)).

(** Ten turns within the duration, batch size 10, the service refusing
    every fifth batch. *)
Definition every_fifth_fails : list turn_world :=
  map (fun i =>
         {| now := Z.of_nat i; stop_requested := false;
            monitor_polls := [(None, Z.of_nat i)];
            batch := {| draws := fun k => k;
                        upsert := if (i mod 5 =? 4)%nat
                                  then Some "503" else None;
                        upsert_clock := Z.of_nat i |};
            search := None; search_clock := Z.of_nat i |})
      (seq 0 10).

(** Two turns within the duration, batch size 2, the first write
    refused. *)
Definition fail_then_pass : list turn_world :=
  map (fun ok : bool =>
         {| now := 0; stop_requested := false; monitor_polls := [];
            batch := {| draws := fun k => k;
                        upsert := if ok then None else Some "503";
                        upsert_clock := 0 |};
            search := None; search_clock := 0 |})
      [false; true].

End CompactTester.

(* ===================================================================== *)
(** ** [client-sdk/Python/client.py]: class [OasisDBClient] *)
(* ===================================================================== *)

Module Client.
Import Json.

(** What [session.request] is given. *)
Record request : Type := Request {
  req_method : string;
  req_url : string;
  req_json : option pyval;
  req_timeout : option Z
}.

(** What it returns, as far as the client looks at it: the status, the
    bytes of the body, the body as text, and what [response.json()] gives,
    [None] when it raises [ValueError]. *)
Record response : Type := Response {
  status_code : Z;
  content : string;
  text : string;
  json : option pyval
}.

(** The response with a plain ASCII body. *)
Definition plain (status : Z) (body : string) : response :=
  {| status_code := status; content := body; text := body;
     json := json_loads body |}.

(** The session either gets an answer or raises a [RequestException]. *)
Inductive reply : Type :=
| Answers (r : response)
| Unreachable (e : string).

(** The server and the network between: they answer the last request of
    the list, knowing the ones before. *)
Definition server : Type := list request -> reply.

(** The exceptions the client's callers can see. *)
Inductive error : Type :=
| OasisDBError (status : Z) (message : string)
| ValueError (message : string)
| TypeError (message : string)
| AttributeError (message : string)
| RequestException (message : string).

Inductive outcome (A : Type) : Type :=
| Returns (a : A)
| Raises (e : error).
Arguments Returns {A} _.
Arguments Raises {A} _.

(** [str(e)]. *)
Definition str_error (e : error) : string :=
  match e with
  | OasisDBError _ message => message
  | ValueError message => message
  | TypeError message => message
  | AttributeError message => message
  | RequestException message => message
  end.

(** [OasisDBError.__init__]: the message, or HTTP and the status when the
    message is empty. *)
Definition oasisdb_error (status : Z) (message : string) : error :=
  OasisDBError status
    (match message with
     | EmptyString => "HTTP " +:+ pretty status
     | _ => message
     end).

Record client : Type := Build {
  base_url : string;
  timeout : option Z;
  sent : list request;     (* the requests made through the session *)
  closed : bool
}.

(** [s.rstrip("/")]. *)
Fixpoint rstrip_slash (s : string) : string :=
  match s with
  | EmptyString => EmptyString
  | String c t =>
      match rstrip_slash t with
      | EmptyString =>
          if Ascii.eqb c "/" then EmptyString else String c EmptyString
      | t' => String c t'
      end
  end.

(** [OasisDBClient.__init__] with a fresh session. *)
Definition init (url : string) (default_timeout : option Z) : client :=
  {| base_url := rstrip_slash url; timeout := default_timeout;
     sent := []; closed := false |}.

(** The defaults of the constructor. *)
Definition default_client : client := init "http://localhost:8080" (Some 30).

Definition _url (c : client) (path : string) : string := base_url c +:+ path.

(** [_request].  [kw_timeout] is the timeout among the keyword arguments,
    when there is one; the public methods never give one. *)
Definition _request (srv : server) (method path : string)
    (body : option pyval) (kw_timeout : option (option Z)) (c : client)
  : client * outcome pyval :=
  let url := _url c path in
  let t := match kw_timeout with
           | Some given => given
           | None => timeout c
           end in
  let c' := {| base_url := base_url c; timeout := timeout c;
               sent := sent c ++ [Request method url body t];
               closed := closed c |} in
  match srv (sent c') with
  | Unreachable e => (c', Raises (RequestException e))
  | Answers r =>
      if 400 <=? status_code r then
        (c', Raises (oasisdb_error (status_code r) (text r)))
      else
        match content r with
        | EmptyString => (c', Returns PNone)
        | _ =>
            match json r with
            | Some v => (c', Returns v)
            | None => (c', Returns (PStr (text r)))
            end
        end
  end.

(** [v == {"status": "ok"}]. *)
Definition is_status_ok (v : pyval) : bool :=
  match v with
  | PDict [(k, PStr s)] => String.eqb k "status" && String.eqb s "ok"
  | _ => false
  end.

Definition health_check (srv : server) (c : client) : client * outcome bool :=
  match _request srv "GET" "/" None None c with
  | (c', Returns v) => (c', Returns (is_status_ok v))
  | (c', Raises e) => (c', Raises e)
  end.

(** [parameters or {}]. *)
Definition or_empty (parameters : option (list (string * pyval))) : pyval :=
  match parameters with
  | Some (kv :: rest) => PDict (kv :: rest)
  | _ => PDict []
  end.

Definition create_collection (srv : server) (name : string) (dimension : Z)
    (index_type : string) (parameters : option (list (string * pyval)))
    (c : client) : client * outcome pyval :=
  _request srv "POST" "/v1/collections"
    (Some (PDict [("name", PStr name); ("dimension", PInt dimension);
                  ("index_type", PStr index_type);
                  ("parameters", or_empty parameters)]))
    None c.

Definition get_collection (srv : server) (name : string) (c : client)
  : client * outcome pyval :=
  _request srv "GET" ("/v1/collections/" +:+ name) None None c.

Definition list_collections (srv : server) (c : client)
  : client * outcome pyval :=
  _request srv "GET" "/v1/collections" None None c.

(** A method that returns nothing drops what [_request] returned. *)
Definition discard (r : client * outcome pyval) : client * outcome unit :=
  match r with
  | (c', Returns _) => (c', Returns tt)
  | (c', Raises e) => (c', Raises e)
  end.

Definition delete_collection (srv : server) (name : string) (c : client)
  : client * outcome unit :=
  discard (_request srv "DELETE" ("/v1/collections/" +:+ name) None None c).

Definition upsert_document (srv : server) (collection doc_id : string)
    (vector : list pyval) (parameters : option (list (string * pyval)))
    (c : client) : client * outcome pyval :=
  _request srv "POST" ("/v1/collections/" +:+ collection +:+ "/documents")
    (Some (PDict [("id", PStr doc_id); ("vector", PList vector);
                  ("parameters", or_empty parameters)]))
    None c.

(** Singular or plural, as the interpreter words its messages. *)
Definition plural (n : nat) (word : string) : string :=
  match n with
  | 1%nat => word
  | _ => word +:+ "s"
  end.

Definition given {A : Type} (o : option A) : nat :=
  match o with
  | Some _ => 1%nat
  | None => 0%nat
  end.

(** A call of [upsert_document] as Python binds it: after the collection
    every parameter is keyword-only, and the id and the vector have no
    default.  The messages are those of CPython 3.10 and later, which name
    the class. *)
Definition call_upsert_document (srv : server) (collection : string)
    (more_positional : list pyval) (doc_id : option string)
    (vector : option (list pyval))
    (parameters : option (list (string * pyval))) (c : client)
  : client * outcome pyval :=
  let name := "OasisDBClient.upsert_document()" in
  match more_positional, doc_id, vector with
  | _ :: _, _, _ =>
      let positional := (2 + length more_positional)%nat in
      let keywords := (given doc_id + given vector + given parameters)%nat in
      (c, Raises (TypeError
                    (name +:+ " takes 2 positional arguments but "
                     +:+ pretty (Z.of_nat positional)
                     +:+ (match keywords with
                          | O => EmptyString
                          | _ =>
                              " positional arguments (and "
                              +:+ pretty (Z.of_nat keywords)
                              +:+ " keyword-only "
                              +:+ plural keywords "argument" +:+ ")"
                          end)
                     +:+ " were given")))
  | [], Some id, Some v => upsert_document srv collection id v parameters c
  | [], None, Some _ =>
      (c, Raises (TypeError
                    (name +:+ " missing 1 required keyword-only argument: "
                     +:+ "'doc_id'")))
  | [], Some _, None =>
      (c, Raises (TypeError
                    (name +:+ " missing 1 required keyword-only argument: "
                     +:+ "'vector'")))
  | [], None, None =>
      (c, Raises (TypeError
                    (name +:+ " missing 2 required keyword-only arguments: "
                     +:+ "'doc_id' and 'vector'")))
  end.

(** The check of one document of a batch. *)
Definition has_id_and_vector (doc : list (string * pyval)) : bool :=
  dict_has "id" doc && dict_has "vector" doc.

(** The loop of [batch_upsert_documents]: it raises at the first document
    without an id or a vector, and collects the others in [docs]. *)
Fixpoint collect (documents docs : list (list (string * pyval)))
  : outcome (list (list (string * pyval))) :=
  match documents with
  | [] => Returns docs
  | doc :: rest =>
      if negb (dict_has "id" doc) || negb (dict_has "vector" doc) then
        Raises (ValueError "Each document must contain 'id' and 'vector'.")
      else collect rest (docs ++ [doc])
  end.

Definition batch_upsert_documents (srv : server) (collection : string)
    (documents : list (list (string * pyval))) (c : client)
  : client * outcome unit :=
  match collect documents [] with
  | Raises e => (c, Raises e)
  | Returns docs =>
      discard
        (_request srv "POST"
           ("/v1/collections/" +:+ collection +:+ "/documents/batchupsert")
           (Some (PDict [("documents", PList (map PDict docs))]))
           None c)
  end.

Definition get_document (srv : server) (collection doc_id : string)
    (c : client) : client * outcome pyval :=
  _request srv "GET"
    ("/v1/collections/" +:+ collection +:+ "/documents/" +:+ doc_id)
    None None c.

Definition delete_document (srv : server) (collection doc_id : string)
    (c : client) : client * outcome unit :=
  discard
    (_request srv "DELETE"
       ("/v1/collections/" +:+ collection +:+ "/documents/" +:+ doc_id)
       None None c).

Definition build_index (srv : server) (collection : string)
    (documents : list (list (string * pyval))) (c : client)
  : client * outcome unit :=
  discard
    (_request srv "POST"
       ("/v1/collections/" +:+ collection +:+ "/buildindex")
       (Some (PDict [("documents", PList (map PDict documents))]))
       None c).

Definition set_params (srv : server) (collection : string)
    (parameters : list (string * pyval)) (c : client)
  : client * outcome unit :=
  discard
    (_request srv "POST"
       ("/v1/collections/" +:+ collection +:+ "/documents/setparams")
       (Some (PDict [("parameters", PDict parameters)]))
       None c).

Definition search_vectors (srv : server) (collection : string)
    (vector : list pyval) (limit : Z) (c : client)
  : client * outcome pyval :=
  _request srv "POST"
    ("/v1/collections/" +:+ collection +:+ "/vectors/search")
    (Some (PDict [("vector", PList vector); ("limit", PInt limit)]))
    None c.

(** [if filter:] holds for a mapping that is not empty. *)
Definition search_documents (srv : server) (collection : string)
    (vector : list pyval) (limit : Z)
    (filter : option (list (string * pyval))) (c : client)
  : client * outcome pyval :=
  let payload := [("vector", PList vector); ("limit", PInt limit)] in
  let payload' :=
    match filter with
    | Some (kv :: rest) => dict_set "filter" (PDict (kv :: rest)) payload
    | _ => payload
    end in
  _request srv "POST"
    ("/v1/collections/" +:+ collection +:+ "/documents/search")
    (Some (PDict payload')) None c.

Definition close (c : client) : client :=
  {| base_url := base_url c; timeout := timeout c; sent := sent c;
     closed := true |}.

(** The calls of the public interface, to speak of any of them. *)
Inductive call : Type :=
| HealthCheck
| CreateCollection (name : string) (dimension : Z) (index_type : string)
    (parameters : option (list (string * pyval)))
| GetCollection (name : string)
| ListCollections
| DeleteCollection (name : string)
| UpsertDocument (collection doc_id : string) (vector : list pyval)
    (parameters : option (list (string * pyval)))
| BatchUpsertDocuments (collection : string)
    (documents : list (list (string * pyval)))
| GetDocument (collection doc_id : string)
| DeleteDocument (collection doc_id : string)
| BuildIndex (collection : string) (documents : list (list (string * pyval)))
| SetParams (collection : string) (parameters : list (string * pyval))
| SearchVectors (collection : string) (vector : list pyval) (limit : Z)
| SearchDocuments (collection : string) (vector : list pyval) (limit : Z)
    (filter : option (list (string * pyval))).

(** What a call returns, as a Python value. *)
Definition as_value {A : Type} (f : A -> pyval) (r : client * outcome A)
  : client * outcome pyval :=
  match r with
  | (c', Returns a) => (c', Returns (f a))
  | (c', Raises e) => (c', Raises e)
  end.

Definition perform (srv : server) (k : call) (c : client)
  : client * outcome pyval :=
  match k with
  | HealthCheck => as_value PBool (health_check srv c)
  | CreateCollection name dimension index_type parameters =>
      create_collection srv name dimension index_type parameters c
  | GetCollection name => get_collection srv name c
  | ListCollections => list_collections srv c
  | DeleteCollection name =>
      as_value (fun _ => PNone) (delete_collection srv name c)
  | UpsertDocument collection doc_id vector parameters =>
      upsert_document srv collection doc_id vector parameters c
  | BatchUpsertDocuments collection documents =>
      as_value (fun _ => PNone) (batch_upsert_documents srv collection documents c)
  | GetDocument collection doc_id => get_document srv collection doc_id c
  | DeleteDocument collection doc_id =>
      as_value (fun _ => PNone) (delete_document srv collection doc_id c)
  | BuildIndex collection documents =>
      as_value (fun _ => PNone) (build_index srv collection documents c)
  | SetParams collection parameters =>
      as_value (fun _ => PNone) (set_params srv collection parameters c)
  | SearchVectors collection vector limit =>
      search_vectors srv collection vector limit c
  | SearchDocuments collection vector limit filter =>
      search_documents srv collection vector limit filter c
  end.

(** A run of slashes. *)
Fixpoint slashes (n : nat) : string :=
  match n with
  | O => EmptyString
  | S k => String "/" (slashes k)
  end.

(** The client after one more request went through its session. *)
Definition having_sent (q : request) (c : client) : client :=
  {| base_url := base_url c; timeout := timeout c; sent := sent c ++ [q];
     closed := closed c |}.

(** The request of a call with the client's own timeout. *)
Definition request_of (c : client) (method path : string)
    (body : option pyval) : request :=
  Request method (base_url c +:+ path) body (timeout c).

(** A server that gives the same answer to everything. *)
Definition always (r : response) : server := fun _ => Answers r.

(** A server that cannot be reached. *)
Definition down : server := fun _ => Unreachable "Connection refused".

(** How the outcome of a call follows the reply to its request. *)
Definition answers_as {A : Type} (rep : reply) (o : outcome A) : Prop :=
  match rep with
  | Unreachable e => o = Raises (RequestException e)
  | Answers r =>
      (400 <= status_code r ->
       o = Raises (oasisdb_error (status_code r) (text r)))
      /\ (status_code r < 400 -> exists v, o = Returns v)
  end.

(** [c'] is [c] after some more requests. *)
Definition same_session (c c' : client) : Prop :=
  base_url c' = base_url c /\ timeout c' = timeout c
  /\ closed c' = closed c /\ exists more, sent c' = sent c ++ more.

(** A batch the client refuses before it sends anything. *)
Definition refused (k : call) : bool :=
  match k with
  | BatchUpsertDocuments _ documents =>
      negb (forallb has_id_and_vector documents)
  | _ => false
  end.

End Client.

(* ===================================================================== *)
(** ** [script/compact_test.py] over the client *)
(* ===================================================================== *)

(** The methods of [CompactTester] with the client they call.  The tester
    is the record of [CompactTester]; what the service answered, which the
    runs there take as given, is here what the client makes of the replies
    of a server. *)

Module Harness.
Import Json CompactTester.

(** What the random generators give for one document. *)
Record sample : Type := Sample {
  vector : list pyval;   (* np.random.normal(0, 1, dimension), as a list *)
  category : string;     (* random.choice of the five categories *)
  price : string;        (* round(random.uniform(10.0, 1000.0), 2) *)
  rating : string;       (* round(random.uniform(1.0, 5.0), 1) *)
  features : Z           (* random.randint(5, 50) *)
}.

(** The dict [generate_random_document] returns, for the draws [look]
    gives. *)
Definition as_dict (look : nat -> sample) (d : document)
  : list (string * pyval) :=
  let s := look (doc_draw d) in
  [("id", PStr (doc_id d));
   ("vector", PList (vector s));
   ("parameters",
    PDict [("category", PStr (category s));
           ("price", PFloat (price s));
           ("rating", PFloat (rating s));
           ("description",
            PStr ("Random item " +:+ doc_id d +:+ " with "
                  +:+ pretty (features s) +:+ " features"))]);
   ("dimension", PInt (doc_dimension d))].

(** The tester with its client. *)
Record harness : Type := Harness {
  tester : CompactTester.tester;
  client : Client.client
}.

(** [CompactTester.__init__]. *)
Definition init (host collection : string) : harness :=
  {| tester := CompactTester.init collection;
     client := Client.init host (Some 30) |}.

(** [str(e)] of what a call raised, [None] when it returned. *)
Definition raised {A : Type} (r : Client.outcome A) : CompactTester.outcome :=
  match r with
  | Client.Returns _ => None
  | Client.Raises e => Some (Client.str_error e)
  end.



(** One turn of [monitor_collection_status]. *)
Definition monitor_collection_status (srv : Client.server) (clock : Z)
    (h : harness) : harness :=
  let t := tester h in
  if is_running t then
    let s := stats t in
    match Client.get_collection srv (collection_name t) (client h) with
    | (c', Client.Returns _) =>
        {| tester :=
             set_stats
               {| documents_inserted := documents_inserted s;
                  get_collection_success := get_collection_success s + 1;
                  get_collection_failures := get_collection_failures s;
                  compact_triggers := compact_triggers s |} t;
           client := c' |}
    | (c', Client.Raises e) =>
        {| tester :=
             record_error
               {| err_timestamp := clock;
                  err_type := "get_collection_failure";
                  err_error := Client.str_error e; err_doc_id := None |}
               (set_stats
                  {| documents_inserted := documents_inserted s;
                     get_collection_success := get_collection_success s;
                     get_collection_failures := get_collection_failures s + 1;
                     compact_triggers := compact_triggers s |} t);
           client := c' |}
    end
  else h.

(** [insert_documents_batch]. *)
Definition insert_documents_batch (srv : Client.server)
    (look : nat -> sample) (batch_size : Z) (draw : nat -> nat) (clock : Z)
    (h : harness) : harness * bool :=
  let t := tester h in
  let documents :=
    map (fun i =>
           generate_random_document t (draw i)
             (doc_name (documents_inserted (stats t) + Z.of_nat i + 1)))
        (range batch_size) in
  let t1 := send documents t in
  match Client.batch_upsert_documents srv (collection_name t)
          (map (as_dict look) documents) (client h) with
  | (c', Client.Returns _) =>
      let s := stats t1 in
      ({| tester :=
            set_stats
              {| documents_inserted := documents_inserted s + batch_size;
                 get_collection_success := get_collection_success s;
                 get_collection_failures := get_collection_failures s;
                 compact_triggers := compact_triggers s |} t1;
          client := c' |}, true)
  | (c', Client.Raises e) =>
      ({| tester :=
            record_error
              {| err_timestamp := clock; err_type := "insert_failure";
                 err_error := Client.str_error e; err_doc_id := None |} t1;
          client := c' |}, false)
  end.

(** [insert_single_document]: the document goes to [upsert_document] as a
    second positional argument. *)
Definition insert_single_document (srv : Client.server)
    (look : nat -> sample) (draw : nat) (clock : Z) (id : string)
    (h : harness) : harness * bool :=
  let t := tester h in
  let doc := generate_random_document t draw id in
  match Client.call_upsert_document srv (collection_name t)
          [PDict (as_dict look doc)] None None None (client h) with
  | (c', Client.Returns _) =>
      let s := stats t in
      ({| tester :=
            set_stats
              {| documents_inserted := documents_inserted s + 1;
                 get_collection_success := get_collection_success s;
                 get_collection_failures := get_collection_failures s;
                 compact_triggers := compact_triggers s |} t;
          client := c' |}, true)
  | (c', Client.Raises e) =>
      ({| tester :=
            record_error
              {| err_timestamp := clock;
                 err_type := "single_insert_failure";
                 err_error := Client.str_error e; err_doc_id := Some id |} t;
          client := c' |}, false)
  end.

(** [type(v).__name__]. *)
Definition type_name (v : pyval) : string :=
  match v with
  | PNone => "NoneType"
  | PBool _ => "bool"
  | PInt _ => "int"
  | PFloat _ => "float"
  | PStr _ => "str"
  | PList _ => "list"
  | PDict _ => "dict"
  end.

(** Whether [len(v)] is defined. *)
Definition has_len (v : pyval) : bool :=
  match v with
  | PStr _ | PList _ | PDict _ => true
  | _ => false
  end.

(** [len(results.get('ids', []))], for what it raises. *)
Definition count_ids (results : pyval) : Client.outcome unit :=
  match results with
  | PDict d =>
      match dict_get "ids" d with
      | None => Client.Returns tt
      | Some ids =>
          if has_len ids then Client.Returns tt
          else Client.Raises
                 (Client.TypeError
                    ("object of type '" +:+ type_name ids
                     +:+ "' has no len()"))
      end
  | _ =>
      Client.Raises
        (Client.AttributeError
           ("'" +:+ type_name results +:+ "' object has no attribute 'get'"))
  end.

(** The [try] of the search probe: the search, then the count. *)
Definition search_then_count (srv : Client.server) (query : list pyval)
    (h : harness) : Client.client * Client.outcome unit :=
  match Client.search_vectors srv (collection_name (tester h)) query 5
          (client h) with
  | (c', Client.Returns results) => (c', count_ids results)
  | (c', Client.Raises e) => (c', Client.Raises e)
  end.

(** The search probe with its handler. *)
Definition search_probe (srv : Client.server) (query : list pyval)
    (clock : Z) (h : harness) : harness :=
  match search_then_count srv query h with
  | (c', Client.Returns _) => {| tester := tester h; client := c' |}
  | (c', Client.Raises e) =>
      {| tester :=
           record_error
             {| err_timestamp := clock; err_type := "search_failure";
                err_error := Client.str_error e; err_doc_id := None |}
             (tester h);
         client := c' |}
  end.

Inductive report_line : Type :=
| NoErrors
| Detected (total : nat)
| Item (i : nat) (timestamp kind error : string)
| More (n : nat).

(** [self.errors[-10:]]. *)
Definition shown (t : CompactTester.tester) : list error_record :=
  Deque.last_n 10 (errors t).

(** [print_errors]; [strftime] formats a timestamp as local time. *)
Definition print_errors (strftime : Z -> string) (t : CompactTester.tester)
  : list report_line :=
  match errors t with
  | [] => [NoErrors]
  | _ :: _ =>
      Detected (length (errors t))
      :: map (fun p : nat * error_record =>
                Item (fst p) (strftime (err_timestamp (snd p)))
                  (err_type (snd p)) (err_error (snd p)))
           (combine (seq 1 (length (shown t))) (shown t))
      ++ (if (10 <? length (errors t))%nat
          then [More (length (errors t) - 10)] else [])
  end.


(** The error an [Item] line was made from. *)
Definition item_of (strftime : Z -> string) (i : nat) (e : error_record)
  : report_line :=
  Item i (strftime (err_timestamp e)) (err_type e) (err_error e).

(** The kinds of record the stress test and its monitor write. *)
Definition stress_kind (e : error_record) : bool :=
  (String.eqb (err_type e) "insert_failure"
   || String.eqb (err_type e) "get_collection_failure"
   || String.eqb (err_type e) "search_failure")
  && match err_doc_id e with None => true | Some _ => false end.

(** The polls of the monitor the loop sees before it ends. *)
Fixpoint polls_seen (end_time : Z) (ws : list turn_world)
  : list (CompactTester.outcome * Z) :=
  match ws with
  | [] => []
  | w :: rest =>
      monitor_polls w
      ++ (if (now w <? end_time) && negb (stop_requested w)
          then polls_seen end_time rest else [])
  end.

(** What a reply makes a call raise, as text; [None] when the call
    returns. *)
Definition complaint (rep : Client.reply) : CompactTester.outcome :=
  match rep with
  | Client.Unreachable e => Some e
  | Client.Answers r =>
      if 400 <=? Client.status_code r
      then Some (Client.str_error
                   (Client.oasisdb_error (Client.status_code r)
                      (Client.text r)))
      else None
  end.

(** What [search_vectors] returns for a reply that lets it return. *)
Definition decoded (r : Client.response) : pyval :=
  match Client.content r with
  | EmptyString => PNone
  | _ => match Client.json r with
         | Some v => v
         | None => PStr (Client.text r)
         end
  end.





Definition search_request (query : list pyval) (h : harness)
  : Client.request :=
  Client.request_of (client h) "POST"
    ("/v1/collections/" +:+ collection_name (tester h) +:+ "/vectors/search")
    (Some (PDict [("vector", PList query); ("limit", PInt 5)])).

(** A poll of the monitor that failed. *)
Definition poll_failed (p : CompactTester.outcome * Z) : bool :=
  match fst p with
  | Some _ => true
  | None => false
  end.

(** [t'] is [t] after [ok] polls of the monitor that went through,
    [fails] that failed and at most [searches] failed searches. *)
Definition advanced (ok fails searches : nat) (t t' : CompactTester.tester)
  : Prop :=
  get_collection_success (stats t')
  = get_collection_success (stats t) + Z.of_nat ok
  /\ get_collection_failures (stats t')
     = get_collection_failures (stats t) + Z.of_nat fails
  /\ compact_triggers (stats t') = compact_triggers (stats t)
  /\ exists new,
       errors t' = errors t ++ new
       /\ forallb stress_kind new = true
       /\ count_kind "get_collection_failure" new = fails
       /\ (count_kind "search_failure" new <= searches)%nat.

(** A sample for the examples. *)
Definition plain_sample (n : nat) : sample :=
  {| vector := [PFloat "0.5"]; category := "books"; price := "10.0";
     rating := "1.0"; features := 5 |}.

End Harness.

(* ===================================================================== *)
(** ** [client-sdk/Python/jiankong.py] *)
(* ===================================================================== *)

Module Jiankong.

(** What one turn of the loop meets.  An interrupt from the keyboard is
    taken between turns. *)
Inductive observation : Type :=
| Responds (status : Z) (timestamp : string)
| Fails               (* requests.get raised a RequestException *)
| Interrupted.        (* KeyboardInterrupt *)

Inductive line : Type :=
| Started
| Found (timestamp : string)
| Vanished (timestamp : string)
| Ended
| Unexpected (timestamp : string) (status : Z)
| CannotConnect
| StoppedByHand.

Record state : Type := State {
  collection_existed : bool;
  output : list line;
  polling : bool
}.

Definition say (l : list line) (s : state) : state :=
  {| collection_existed := collection_existed s; output := output s ++ l;
     polling := polling s |}.

Definition leave (s : state) : state :=
  {| collection_existed := collection_existed s; output := output s;
     polling := false |}.

(** The body of the [while True]. *)
Definition turn (o : observation) (s : state) : state :=
  match o with
  | Responds status timestamp =>
      if status =? 200 then
        if collection_existed s then s
        else {| collection_existed := true;
                output := output s ++ [Found timestamp];
                polling := polling s |}
      else if status =? 404 then
        if collection_existed s
        then leave (say [Vanished timestamp; Ended] s)
        else s
      else say [Unexpected timestamp status] s
  | Fails => say [CannotConnect] s
  | Interrupted => leave (say [StoppedByHand] s)
  end.

Fixpoint loop (obs : list observation) (s : state) : state :=
  match obs with
  | [] => s
  | o :: rest => if polling s then loop rest (turn o s) else s
  end.

(** [run_monitor] over the turns the world allows to observe. *)
Definition run_monitor (obs : list observation) : state :=
  loop obs {| collection_existed := false; output := [Started];
              polling := true |}.

Definition is_interrupt (o : observation) : bool :=
  match o with Interrupted => true | _ => false end.

Definition is_found (l : line) : bool :=
  match l with Found _ => true | _ => false end.

Definition has_status (code : Z) (o : observation) : bool :=
  match o with Responds status _ => status =? code | _ => false end.

(** A 404 that comes after a 200. *)
Fixpoint lost (seen : bool) (obs : list observation) : bool :=
  match obs with
  | [] => false
  | o :: rest =>
      (seen && has_status 404 o) || lost (seen || has_status 200 o) rest
  end.

End Jiankong.

(* ===================================================================== *)
(** ** [example.py] *)
(* ===================================================================== *)

Module Example.
Import Json Client.

(** How [main] ends. *)
Inductive ending : Type :=
| Completed
| Exits (code : Z)        (* sys.exit *)
| Uncaught (e : error).

Inductive line : Type :=
| HealthIs (ok : bool)
| CreatedCollection (coll : pyval)
| Upserted (n : nat)
| VectorResults (v : pyval)
| DocumentResults (v : pyval)
| Collections (v : pyval)
| ServerError (message : string)
| DeletedDemo.

(** [random_vector(dim)], from draw number [from] on; a draw is the
    literal of a float. *)
Definition random_vector (rand : nat -> string) (from dim : nat)
  : list pyval :=
  map (fun i => PFloat (rand i)) (seq from dim).

(** The five documents of step 3. *)
Definition docs (rand : nat -> string) : list (list (string * pyval)) :=
  map (fun i =>
         [("id", PStr (pretty (Z.of_nat i)));
          ("vector", PList (random_vector rand (3 * i) 3))])
      (seq 0 5).

(** The body of the [try]. *)
Definition steps (srv : server) (rand : nat -> string) (c : client)
  : client * list line * ending :=
  match health_check srv c with
  | (c1, Raises e) => (c1, [], Uncaught e)
  | (c1, Returns ok) =>
      if negb ok then (c1, [HealthIs ok], Exits 1)
      else
        match create_collection srv "demo" 3 "hnsw" None c1 with
        | (c2, Raises e) => (c2, [HealthIs ok], Uncaught e)
        | (c2, Returns coll) =>
            let out2 := [HealthIs ok; CreatedCollection coll] in
            match batch_upsert_documents srv "demo" (docs rand) c2 with
            | (c3, Raises e) => (c3, out2, Uncaught e)
            | (c3, Returns _) =>
                let out3 := out2 ++ [Upserted (length (docs rand))] in
                let query_vec := random_vector rand 15 3 in
                match search_vectors srv "demo" query_vec 3 c3 with
                | (c4, Raises e) => (c4, out3, Uncaught e)
                | (c4, Returns vec_results) =>
                    let out4 := out3 ++ [VectorResults vec_results] in
                    match search_documents srv "demo" query_vec 3 None c4
                    with
                    | (c5, Raises e) => (c5, out4, Uncaught e)
                    | (c5, Returns doc_results) =>
                        let out5 := out4 ++ [DocumentResults doc_results] in
                        match list_collections srv c5 with
                        | (c6, Raises e) => (c6, out5, Uncaught e)
                        | (c6, Returns colls) =>
                            (c6, out5 ++ [Collections colls], Completed)
                        end
                    end
                end
            end
        end
  end.

(** The handler of the [try]: an [OasisDBError] is printed and ends
    there. *)
Definition handle (r : client * list line * ending)
  : client * list line * ending :=
  match r with
  | (c, out, Uncaught (OasisDBError _ message)) =>
      (c, out ++ [ServerError message], Completed)
  | _ => r
  end.

(** The [finally]: delete the collection, then close the session. *)
Definition clean_up (srv : server) (r : client * list line * ending)
  : client * list line * ending :=
  let '(c, out, e) := r in
  match delete_collection srv "demo" c with
  | (c', Returns _) => (close c', out ++ [DeletedDemo], e)
  | (c', Raises (OasisDBError _ _)) => (close c', out, e)
  | (c', Raises x) => (c', out, Uncaught x)
  end.

Definition main (srv : server) (rand : nat -> string)
  : client * list line * ending :=
  clean_up srv (handle (steps srv rand default_client)).

(** The request that deletes the collection of the example. *)
Definition delete_demo : request :=
  Request "DELETE" "http://localhost:8080/v1/collections/demo" None (Some 30).

(** A server that is up but says so in other words. *)
Definition healthy_in_other_words : server :=
  always (plain 200 (q "{'status': 'healthy'}")).

End Example.

(* ===================================================================== *)
(** ** Strings *)
(* ===================================================================== *)

Section StringFacts.
Implicit Types (s a b : string).

Lemma string_app_cons c a b : String c a +:+ b = String c (a +:+ b).
Proof. reflexivity. Qed.

Lemma string_app_nil_l a : EmptyString +:+ a = a.
Proof. reflexivity. Qed.

Lemma string_length_app a b :
  String.length (a +:+ b) = (String.length a + String.length b)%nat.
Proof.
  induction a as [|c a IH]; [reflexivity|].
  rewrite string_app_cons. simpl. rewrite IH. reflexivity.
Qed.

Lemma string_app_assoc a b s : (a +:+ b) +:+ s = a +:+ (b +:+ s).
Proof.
  induction a as [|c a IH]; [reflexivity|].
  rewrite !string_app_cons, IH. reflexivity.
Qed.

Lemma string_app_nil_r a : a +:+ EmptyString = a.
Proof.
  induction a as [|c a IH]; [reflexivity|].
  rewrite string_app_cons, IH. reflexivity.
Qed.

Lemma drop_app_length a b : PyStr.drop (String.length a) (a +:+ b) = b.
Proof.
  induction a as [|c a IH]; [destruct b; reflexivity|].
  rewrite string_app_cons. simpl. exact IH.
Qed.

Lemma drop_0 s : PyStr.drop 0 s = s.
Proof. reflexivity. Qed.

Lemma join_app (l1 l2 : list string) :
  LogMonitor.join (l1 ++ l2) = LogMonitor.join l1 +:+ LogMonitor.join l2.
Proof.
  induction l1 as [|x l1 IH]; [reflexivity|].
  cbn [LogMonitor.join app]. rewrite IH. symmetry. apply string_app_assoc.
Qed.

(** [readline] returns a whole line in front of anything as it is. *)
Lemma take_line_whole a b :
  LogMonitor.whole_line a = true -> LogMonitor.take_line (a +:+ b) = a.
Proof.
  induction a as [|c a IH]; [discriminate|].
  rewrite string_app_cons. simpl.
  destruct (Ascii.eqb c LogMonitor.newline).
  - destruct a; [reflexivity|discriminate].
  - intros H. rewrite IH by exact H. reflexivity.
Qed.

Lemma whole_line_nonempty a : LogMonitor.whole_line a = true -> a <> EmptyString.
Proof. destruct a; [discriminate|congruence]. Qed.

End StringFacts.

(* ===================================================================== *)
(** ** Bounded buffers *)
(* ===================================================================== *)

Section DequeFacts.
Context {A : Type}.
Implicit Types (d : Deque.deque A) (l xs : list A) (x : A).

Lemma last_n_length n l : length (Deque.last_n n l) = Nat.min n (length l).
Proof. unfold Deque.last_n. rewrite length_skipn. lia. Qed.

Lemma tail_drop k l : tail (drop k l) = drop (S k) l.
Proof.
  revert l. induction k as [|k IH]; intros [|y m]; try reflexivity.
  change (tail (drop k m) = drop (S k) m). apply IH.
Qed.

Lemma append_maxlen x d : Deque.maxlen (Deque.append x d) = Deque.maxlen d.
Proof. reflexivity. Qed.

Lemma extend_maxlen xs d : Deque.maxlen (Deque.extend xs d) = Deque.maxlen d.
Proof.
  revert d. induction xs as [|x xs IH]; intros d; [reflexivity|].
  unfold Deque.extend in *. simpl. rewrite IH. apply append_maxlen.
Qed.

Lemma extend_snoc xs x d :
  Deque.extend (xs ++ [x]) d = Deque.append x (Deque.extend xs d).
Proof. unfold Deque.extend. rewrite fold_left_app. reflexivity. Qed.

(** One append on a deque that holds the last [maxlen] items of a history
    leaves it holding the last [maxlen] items of the longer history. *)
Lemma append_last_n x d l :
  Deque.items d = Deque.last_n (Deque.maxlen d) l ->
  Deque.items (Deque.append x d)
  = Deque.last_n (Deque.maxlen d) (l ++ [x]).
Proof.
  intros Hd. unfold Deque.append. simpl. rewrite Hd.
  unfold Deque.last_n. rewrite !length_app, length_skipn. simpl.
  set (c := Deque.maxlen d).
  destruct (Nat.ltb_spec c (length l - (length l - c) + 1)) as [Hlt|Hge].
  - assert (Hk : (length l + 1 - c = S (length l - c))%nat) by lia.
    rewrite Hk.
    rewrite <- (drop_app_le l [x] (length l - c)) by lia.
    apply tail_drop.
  - replace (length l - c)%nat with 0%nat by lia.
    replace (length l + 1 - c)%nat with 0%nat by lia. reflexivity.
Qed.

Lemma extend_last_n xs d l :
  Deque.items d = Deque.last_n (Deque.maxlen d) l ->
  Deque.items (Deque.extend xs d)
  = Deque.last_n (Deque.maxlen d) (l ++ xs).
Proof.
  induction xs as [|x xs IH] using rev_ind; intros Hd.
  - rewrite app_nil_r. exact Hd.
  - rewrite extend_snoc, app_assoc.
    rewrite <- (extend_maxlen xs d). apply append_last_n.
    rewrite extend_maxlen. apply IH, Hd.
Qed.

Lemma append_bounded x d :
  (length (Deque.items (Deque.append x d)) <= Nat.max (Deque.maxlen d) (length (Deque.items d)))%nat.
Proof.
  unfold Deque.append. simpl.
  destruct (Nat.ltb_spec (Deque.maxlen d) (length (Deque.items d ++ [x]))) as [H|H].
  - destruct (Deque.items d ++ [x]) eqn:E; simpl.
    + lia.
    + apply (f_equal (@length A)) in E. rewrite length_app in E. simpl in E. lia.
  - lia.
Qed.
End DequeFacts.

Section BuffersOfTheMonitor.
Import Json LogMonitor.

Lemma preserves_ret {A} P (a : A) : preserves P (ret a).
Proof. intros m H. exact H. Qed.

Lemma preserves_lift {A} P (r : result A) : preserves P (lift r).
Proof. intros m H. exact H. Qed.

Lemma preserves_bind {A B} P (c : M A) (f : A -> M B) :
  preserves P c -> (forall a, preserves P (f a)) -> preserves P (bind c f).
Proof.
  intros Hc Hf m H. unfold bind. specialize (Hc m H).
  destruct (c m) as [m' [a|e]]; simpl in *; [apply Hf, Hc|exact Hc].
Qed.

Lemma append_within {A} (x : A) (d : Deque.deque A) n :
  Deque.maxlen d = n -> (length (Deque.items d) <= n)%nat ->
  Deque.maxlen (Deque.append x d) = n
  /\ (length (Deque.items (Deque.append x d)) <= n)%nat.
Proof.
  intros Hm Hl. split; [exact Hm|].
  pose proof (append_bounded x d). lia.
Qed.

Lemma preserves_bump k : preserves buffers_bounded (bump k).
Proof. intros m H. exact H. Qed.

Lemma preserves_print l : preserves buffers_bounded (print l).
Proof. intros m H. exact H. Qed.

Lemma preserves_push_compact e : preserves buffers_bounded (push_compact e).
Proof.
  intros m (H1 & H2 & H3). unfold buffers_bounded. simpl.
  destruct (append_within e (compact_events m) 100 H1 H2). tauto.
Qed.

Lemma preserves_push_error e : preserves buffers_bounded (push_error e).
Proof.
  intros m (H1 & H2 & H3 & H4 & H5). unfold buffers_bounded. simpl.
  destruct (append_within e (errors m) 50 H3 H4). tauto.
Qed.

Lemma preserves_push_get_collection e :
  preserves buffers_bounded (push_get_collection e).
Proof.
  intros m (H1 & H2 & H3 & H4 & H5 & H6). unfold buffers_bounded. simpl.
  destruct (append_within e (get_collection_events m) 100 H5 H6). tauto.
Qed.

(** Walks through a computation built from the primitives. *)
Ltac keep_bounded :=
  repeat first
    [ apply preserves_ret | apply preserves_lift | apply preserves_bump
    | apply preserves_print | apply preserves_push_compact
    | apply preserves_push_error | apply preserves_push_get_collection
    | apply preserves_bind; [|intros ?]
    | match goal with
      | |- preserves _ (if ?b then _ else _) => destruct b
      end ].

(** The analyser keeps every buffer within its bound, on any value and
    also when it raises half way. *)
Lemma analyze_log_entry_buffers_bounded entry :
  preserves buffers_bounded (analyze_log_entry entry).
Proof.
  unfold analyze_log_entry, track_compact, track_collection, track_errors,
    track_lsm.
  keep_bounded.
Qed.

Lemma init_buffers_bounded path : buffers_bounded (init path).
Proof. unfold buffers_bounded. simpl. repeat split; lia. Qed.

End BuffersOfTheMonitor.

(** C7.  The three buffers of the monitor start with the bounds 100, 50
    and 100 and nothing in them, and the analyser, on any entry, leaves each
    within its bound.  An append to a bounded deque has no failing branch
    and never leaves more items than the bound; a deque of bound [c] that
    received the items [xs] holds the last [c] of them, and when there were
    more than [c] it holds exactly [c], the item at place [i] being the one
    appended at place [length xs - c + i]. *)
Theorem bounded_buffers_keep_last_items :
  forall (A : Type) (c : nat) (xs : list A) (path : string),
    LogMonitor.buffers_bounded (LogMonitor.init path) /\
    (forall entry m,
       LogMonitor.buffers_bounded m ->
       LogMonitor.buffers_bounded
         (fst (LogMonitor.analyze_log_entry entry m))) /\
    (length (Deque.items (Deque.extend xs (Deque.empty c))) <= c)%nat /\
    Deque.items (Deque.extend xs (Deque.empty c)) = skipn (length xs - c) xs /\
    ((c < length xs)%nat ->
       length (Deque.items (Deque.extend xs (Deque.empty c))) = c /\
       forall i, (i < c)%nat ->
         Deque.items (Deque.extend xs (Deque.empty c)) !! i
         = xs !! (length xs - c + i)%nat).
Proof.
  intros A c xs path.
  assert (H : Deque.items (Deque.extend xs (Deque.empty c))
              = Deque.last_n c xs).
  { apply (extend_last_n xs (Deque.empty c) []). reflexivity. }
  split; [apply init_buffers_bounded|].
  split; [intros entry m; apply analyze_log_entry_buffers_bounded|].
  split; [rewrite H, last_n_length; lia|].
  split; [exact H|].
  intros Hlt. split.
  - rewrite H, last_n_length. lia.
  - intros i Hi. rewrite H. unfold Deque.last_n.
    rewrite lookup_drop. reflexivity.
Qed.

Lemma bounded_buffers_keep_last_items_witness :
  Deque.items (Deque.extend [1; 2; 3; 4; 5] (Deque.empty 3)) = [3; 4; 5] /\
  length (Deque.items (Deque.extend [1; 2; 3; 4; 5] (Deque.empty 3))) = 3%nat.
Proof.
  destruct (bounded_buffers_keep_last_items Z 3 [1; 2; 3; 4; 5] EmptyString)
    as (_ & _ & _ & H & Hfull).
  split; [exact H|].
  apply Hfull. simpl. lia.
Defined.

(* ===================================================================== *)
(** ** The analyser on well-typed entries *)
(* ===================================================================== *)

Section AnalyserCounters.
Import Json LogMonitor.

Lemma occurrences_nil k : occurrences k [] = 0.
Proof. reflexivity. Qed.

Lemma occurrences_app k ks1 ks2 :
  occurrences k (ks1 ++ ks2) = occurrences k ks1 + occurrences k ks2.
Proof.
  unfold occurrences. rewrite List.filter_app, length_app. lia.
Qed.

Lemma occurrences_cons k k' ks :
  occurrences k (k' :: ks)
  = (if String.eqb k k' then 1 else 0) + occurrences k ks.
Proof.
  unfold occurrences. simpl. destruct (String.eqb k k'); simpl; lia.
Qed.

Lemma bumps_ret : bumps (ret tt) [].
Proof. intros m. split; [reflexivity|]. intros k. simpl. rewrite occurrences_nil. lia. Qed.

Lemma bumps_bump k' : bumps (bump k') [k'].
Proof.
  intros m. split; [reflexivity|]. intros k.
  unfold bump, modify, counter. simpl. rewrite lookup_insert.
  rewrite occurrences_cons, occurrences_nil.
  destruct (decide (k' = k)) as [->|Hne].
  - rewrite String.eqb_refl. simpl. lia.
  - destruct (String.eqb_spec k k') as [->|_]; [congruence|]. lia.
Qed.

Lemma bumps_modify_frame f :
  (forall m, stats (f m) = stats m) -> bumps (modify f) [].
Proof.
  intros Hf m. split; [reflexivity|]. intros k.
  unfold modify, counter. simpl. rewrite Hf, occurrences_nil. lia.
Qed.

Lemma bumps_print l : bumps (print l) [].
Proof. apply bumps_modify_frame. reflexivity. Qed.

Lemma bumps_push_compact e : bumps (push_compact e) [].
Proof. apply bumps_modify_frame. reflexivity. Qed.

Lemma bumps_push_error e : bumps (push_error e) [].
Proof. apply bumps_modify_frame. reflexivity. Qed.

Lemma bumps_push_get_collection e : bumps (push_get_collection e) [].
Proof. apply bumps_modify_frame. reflexivity. Qed.

Lemma bumps_seq c1 c2 ks1 ks2 :
  bumps c1 ks1 -> bumps c2 ks2 -> bumps (c1 ;; c2) (ks1 ++ ks2).
Proof.
  intros H1 H2 m. unfold bind.
  destruct (H1 m) as [Hr1 Hk1]. destruct (c1 m) as [m1 r1]. simpl in *.
  subst r1. destruct (H2 m1) as [Hr2 Hk2].
  split; [exact Hr2|]. intros k.
  rewrite Hk2, Hk1, occurrences_app. lia.
Qed.

Lemma bumps_lift {A} (a : A) (f : A -> M unit) ks :
  bumps (f a) ks -> bumps (x <- lift (Ok a) ;; f x) ks.
Proof. intros H m. exact (H m). Qed.

Lemma bumps_ret_bind {A} (a : A) (f : A -> M unit) ks :
  bumps (f a) ks -> bumps (x <- ret a ;; f x) ks.
Proof. intros H m. exact (H m). Qed.

Lemma bumps_eq c ks ks' : ks = ks' -> bumps c ks -> bumps c ks'.
Proof. intros ->. auto. Qed.

Lemma str_field_get k d s :
  str_field k d = Some s ->
  default (PStr EmptyString) (dict_get k d) = PStr s.
Proof. unfold str_field. destruct (default _ _); congruence. Qed.

Lemma track_compact_bumps d ts level msg lmsg :
  bumps (track_compact (PDict d) ts level msg lmsg) (compact_keys lmsg).
Proof.
  unfold track_compact, compact_keys.
  destruct (PyStr.contains "compact" lmsg); [|apply bumps_ret].
  apply (bumps_seq _ _ [] _ (bumps_push_compact _)).
  apply (bumps_seq _ _ ["compact_events"] _ (bumps_bump _)).
  destruct (PyStr.contains "starting" lmsg).
  { apply (bumps_seq _ _ [_] [] (bumps_bump _) (bumps_print _)). }
  destruct (PyStr.contains "completed" lmsg).
  { apply (bumps_seq _ _ [_] [] (bumps_bump _)).
    apply bumps_lift, bumps_print. }
  destruct (PyStr.contains "trigger" lmsg).
  { apply (bumps_seq _ _ [_] [] (bumps_bump _) (bumps_print _)). }
  apply bumps_ret.
Qed.

Lemma track_collection_bumps d ts level msg lmsg caller :
  str_field "caller" d = Some caller ->
  bumps (track_collection (PDict d) ts level msg lmsg)
        (collection_keys level lmsg caller).
Proof.
  intros Hc. apply str_field_get in Hc.
  unfold track_collection, collection_keys.
  destruct (PyStr.contains "collection" lmsg); [|apply bumps_ret].
  assert (Hbody : forall b : bool,
    bumps (if b
           then push_get_collection (Event ts level msg (PDict d)) ;;
                (if String.eqb level "ERROR"
                 then bump "get_collection_errors" ;;
                      print (OutGetCollectionError msg)
                 else bump "get_collection_success")
           else ret tt)
          (if b
           then if String.eqb level "ERROR"
                then ["get_collection_errors"]
                else ["get_collection_success"]
           else [])).
  { intros [|]; [|apply bumps_ret].
    apply (bumps_seq _ _ [] _ (bumps_push_get_collection _)).
    destruct (String.eqb level "ERROR").
    - apply (bumps_seq _ _ [_] [] (bumps_bump _) (bumps_print _)).
    - apply bumps_bump. }
  simpl andb.
  destruct (PyStr.contains "get" lmsg).
  - apply bumps_ret_bind. exact (Hbody true).
  - intros m. unfold bind at 1. unfold bind at 1. unfold lift, py_get.
    rewrite Hc. simpl. exact (Hbody _ m).
Qed.

Lemma track_errors_bumps entry ts level msg :
  bumps (track_errors entry ts level msg) (error_keys level).
Proof.
  unfold track_errors, error_keys.
  destruct (String.eqb level "ERROR"); [|apply bumps_ret].
  apply (bumps_seq _ _ [] _ (bumps_push_error _)).
  apply (bumps_seq _ _ [_] [] (bumps_bump _) (bumps_print _)).
Qed.

Lemma track_lsm_bumps level msg lmsg :
  bumps (track_lsm level msg lmsg) (lsm_keys lmsg).
Proof.
  unfold track_lsm, lsm_keys.
  destruct (_ || _); [|apply bumps_ret].
  apply (bumps_seq _ _ [_] [] (bumps_bump _)).
  destruct (String.eqb level "ERROR"); [apply bumps_print|].
  destruct (PyStr.contains "debug" _); [|apply bumps_ret].
  destruct (existsb _ _); [apply bumps_print|apply bumps_ret].
Qed.

(** On a dict without the key raw whose level, message and caller read as
    strs, the analyser returns normally and increments exactly the
    counters of [analysis_keys]. *)
Lemma analyze_log_entry_bumps d lvl msg caller :
  dict_has "raw" d = false ->
  str_field "level" d = Some lvl ->
  str_field "msg" d = Some msg ->
  str_field "caller" d = Some caller ->
  bumps (analyze_log_entry (PDict d)) (analysis_keys lvl msg caller).
Proof.
  intros Hraw Hl Hm Hc.
  pose proof (str_field_get _ _ _ Hl) as Hl'.
  pose proof (str_field_get _ _ _ Hm) as Hm'.
  unfold analyze_log_entry, analysis_keys.
  unfold py_in, py_get. rewrite Hraw, Hl', Hm'.
  do 5 apply bumps_lift. simpl as_str.
  change (?a :: ?l) with ([a] ++ l).
  apply bumps_seq; [apply bumps_bump|].
  apply bumps_lift.
  apply bumps_seq; [apply track_compact_bumps|].
  apply bumps_seq; [apply track_collection_bumps, Hc|].
  apply bumps_seq; [apply track_errors_bumps|apply track_lsm_bumps].
Qed.

End AnalyserCounters.

Section AnalyserClaims.
Import Json LogMonitor.

Lemma occurrences_miss k ks :
  existsb (String.eqb k) ks = false -> occurrences k ks = 0.
Proof.
  unfold occurrences. induction ks as [|k' ks IH]; simpl; [reflexivity|].
  destruct (String.eqb k k'); simpl; [discriminate|exact IH].
Qed.

Lemma occurrences_compact_miss k lmsg :
  existsb (String.eqb k)
    ["compact_events"; "compact_started"; "compact_completed";
     "compact_triggered"] = false ->
  occurrences k (compact_keys lmsg) = 0.
Proof.
  intros H. apply occurrences_miss. unfold compact_keys.
  simpl in H. repeat (apply orb_false_elim in H as [? H]).
  repeat match goal with
         | |- context [if ?b then _ else _] => destruct b
         end; simpl; rewrite ?orb_false_r; auto;
    repeat (apply orb_false_intro; auto).
Qed.

Lemma occurrences_collection_miss k level lmsg caller :
  existsb (String.eqb k)
    ["get_collection_errors"; "get_collection_success"] = false ->
  occurrences k (collection_keys level lmsg caller) = 0.
Proof.
  intros H. apply occurrences_miss. unfold collection_keys.
  simpl in H. repeat (apply orb_false_elim in H as [? H]).
  repeat match goal with
         | |- context [if ?b then _ else _] => destruct b
         end; simpl; rewrite ?orb_false_r; auto.
Qed.

Lemma occurrences_error_miss k level :
  String.eqb k "total_errors" = false ->
  occurrences k (error_keys level) = 0.
Proof.
  intros H. apply occurrences_miss. unfold error_keys.
  destruct (String.eqb level "ERROR"); simpl; rewrite ?H; reflexivity.
Qed.

Lemma occurrences_lsm_miss k lmsg :
  String.eqb k "lsm_operations" = false ->
  occurrences k (lsm_keys lmsg) = 0.
Proof.
  intros H. apply occurrences_miss. unfold lsm_keys.
  destruct (_ || _ || _); simpl; rewrite ?H; reflexivity.
Qed.










(** What [parse_log_line] returns: the decoded value when the stripped
    line decodes, the one-key dict otherwise. *)
Lemma parse_log_line_cases line :
  (exists v, json_loads (PyStr.strip line) = Some v
             /\ parse_log_line line = v)
  \/ (json_loads (PyStr.strip line) = None
      /\ parse_log_line line = PDict [("raw", PStr (PyStr.strip line))]).
Proof.
  unfold parse_log_line. destruct (json_loads (PyStr.strip line)) as [v|].
  - left. exists v. split; reflexivity.
  - right. split; reflexivity.
Qed.

(** C9.  The analyser looks for the key raw, not for a failed parse: on
    every dict with that key, whatever else it holds, it returns at once
    with the monitor unchanged, counters, buffers and console alike; the
    dict made for an unparsable line is one such dict. *)
Theorem raw_key_skips_analysis d m :
  dict_has "raw" d = true ->
  analyze_log_entry (PDict d) m = (m, Ok tt) /\
  forall line,
    json_loads (PyStr.strip line) = None ->
    analyze_log_entry (parse_log_line line) m = (m, Ok tt).
Proof.
  intros Hraw. split.
  - unfold analyze_log_entry, bind, lift, py_in. rewrite Hraw. reflexivity.
  - intros line Hline. unfold parse_log_line. rewrite Hline. reflexivity.
Qed.

Lemma raw_key_skips_analysis_witness :
  parse_log_line (q "{'raw':'x','level':'ERROR','msg':'compact starting'}")
  = PDict json_with_raw_key /\
  analyze_log_entry (PDict json_with_raw_key) (init "oasisdb.log")
  = (init "oasisdb.log", Ok tt).
Proof.
  split; [vm_compute; reflexivity|].
  apply (raw_key_skips_analysis json_with_raw_key (init "oasisdb.log")).
  reflexivity.
Defined.

(** C8, at the line 5.  The line is valid JSON and no object:
    [parse_log_line] returns the int, not a dict; the analyser then
    raises on its first test, and the handler around the tail loop ends
    the tailing, so that the line after it is never read. *)
Theorem parse_log_line_scalar_is_no_dict :
  parse_log_line "5" = PInt 5 /\
  (forall m, analyze_log_entry (PInt 5) m = (m, Raised TypeError)) /\
  let st := tail_run [Append ("5" +:+ String newline EmptyString); Poll;
                      Append ("{}" +:+ String newline EmptyString); Poll]
              (tail_log_file (init "oasisdb.log") (Some EmptyString)) in
  where_ st = Returned /\
  emitted st = ["5" +:+ String newline EmptyString].
Proof.
  split; [vm_compute; reflexivity|].
  split; [intros m; reflexivity|].
  vm_compute. split; reflexivity.
Qed.

End AnalyserClaims.

(* ===================================================================== *)
(** ** The success rate of the summaries *)
(* ===================================================================== *)

Section SuccessRate.
Import LogMonitor.

Lemma success_rate_line_spec success errs text :
  In (SumSuccessRate text) (success_rate_line success errs)
  <-> 0 < success + errs
      /\ text = PyFloat.format_2f
                  (PyFloat.percent success (success + errs)) +:+ "%".
Proof.
  unfold success_rate_line.
  destruct (Z.ltb_spec 0 (success + errs)) as [Hlt|Hge]; simpl.
  - split.
    + intros [H|[]]. inversion H. split; [exact Hlt|reflexivity].
    + intros [_ ->]. left. reflexivity.
  - split; [intros []|intros [H _]; lia].
Qed.

Lemma print_stats_success_rate m text :
  In (SumSuccessRate text) (print_stats m)
  <-> 0 < counter "get_collection_success" m
          + counter "get_collection_errors" m
      /\ text = PyFloat.format_2f
                  (PyFloat.percent
                     (counter "get_collection_success" m)
                     (counter "get_collection_success" m
                      + counter "get_collection_errors" m)) +:+ "%".
Proof.
  unfold print_stats.
  rewrite !in_app_iff, success_rate_line_spec.
  split; [|tauto].
  intros [H|[H|[H|[H|[H|[H|H]]]]]]; try exact H.
  - apply list_elem_of_In, list_elem_of_omap in H.
    destruct H as (kv & _ & H).
    destruct (String.prefix _ _); discriminate.
  - destruct H as [H|[]]; discriminate.
  - destruct H as [H|[]]; discriminate.
  - destruct H as [H|[]]; discriminate.
  - apply in_map_iff in H. destruct H as (? & H & _). discriminate.
  - apply in_map_iff in H. destruct H as (? & H & _). discriminate.
Qed.

(** C3, as the code has it.  The summary of the monitor holds a
    success-rate line exactly when there was at least one collection-get
    event, and the line then shows success / (success + errors) * 100
    with two decimals; the summary of the stress harness does the same
    on its own counters; for 97 successes and 3 failures the text is
    97.00. *)
Theorem success_rate_reported_when_defined
    (m : monitor) (t : CompactTester.tester) (text : string) :
  let success := counter "get_collection_success" m in
  let errs := counter "get_collection_errors" m in
  let success' := CompactTester.get_collection_success (CompactTester.stats t) in
  let failures' := CompactTester.get_collection_failures (CompactTester.stats t) in
  (In (SumSuccessRate text) (print_stats m)
   <-> 0 < success + errs
       /\ text = PyFloat.format_2f
                   (PyFloat.percent success (success + errs)) +:+ "%") /\
  (CompactTester.success_rate_line t = Some text
   <-> 0 < success' + failures'
       /\ text = PyFloat.format_2f
                   (PyFloat.percent success' (success' + failures')) +:+ "%") /\
  PyFloat.format_2f (PyFloat.percent 97 (97 + 3)) = "97.00".
Proof.
  intros success errs success' failures'. split; [|split].
  - apply print_stats_success_rate.
  - unfold CompactTester.success_rate_line. fold success' failures'.
    destruct (Z.ltb_spec 0 (success' + failures')) as [Hlt|Hge].
    + split.
      * intros H. inversion H. split; [exact Hlt|reflexivity].
      * intros [_ ->]. reflexivity.
    + split; [discriminate|intros [H _]; lia].
  - vm_compute. reflexivity.
Qed.

Lemma success_rate_reported_when_defined_witness :
  In (SumSuccessRate "97.00%") (print_stats monitor_97_3).
Proof.
  apply (success_rate_reported_when_defined monitor_97_3
           (CompactTester.init "compact_test") "97.00%").
  split; vm_compute; reflexivity.
Defined.

(** C3, as the claim states it, fails at zero: with no collection-get
    event counted, neither summary shows a success rate at all, so none
    shows 0%. *)
Lemma success_rate_absent_at_zero :
  counter "get_collection_success" (init "oasisdb.log") = 0 /\
  counter "get_collection_errors" (init "oasisdb.log") = 0 /\
  (~ exists text,
       In (SumSuccessRate text) (print_stats (init "oasisdb.log"))) /\
  CompactTester.success_rate_line (CompactTester.init "compact_test") = None.
Proof.
  split; [reflexivity|]. split; [reflexivity|]. split; [|reflexivity].
  intros [text H].
  apply print_stats_success_rate in H.
  destruct H as [H _]. vm_compute in H. discriminate H.
Qed.
End SuccessRate.

(* ===================================================================== *)
(** ** The stress loop *)
(* ===================================================================== *)

Section StressLoop.
Import CompactTester.

Implicit Types (t : tester) (w : turn_world) (ws : list turn_world).

Lemma count_kind_app kind l1 l2 :
  count_kind kind (l1 ++ l2) = (count_kind kind l1 + count_kind kind l2)%nat.
Proof. unfold count_kind. rewrite List.filter_app, length_app. reflexivity. Qed.

Ltac count_single :=
  repeat match goal with
         | |- context [count_kind ?k [?r]] =>
             let v := eval vm_compute in (count_kind k [r]) in
             change (count_kind k [r]) with v
         end.

(** The monitor thread touches neither the insert counter, nor the
    insert failures, nor the flag, nor the requests. *)
Lemma monitor_collection_status_frame p t :
  let t' := monitor_collection_status p t in
  documents_inserted (stats t') = documents_inserted (stats t)
  /\ insert_failures t' = insert_failures t
  /\ is_running t' = is_running t
  /\ requests t' = requests t
  /\ dimension t' = dimension t.
Proof.
  unfold monitor_collection_status, insert_failures.
  destruct (is_running t) eqn:Hr; [|auto].
  destruct (fst p); simpl; rewrite ?count_kind_app; count_single;
    repeat split; auto; lia.
Qed.

Lemma monitor_polls_frame ps t :
  let t' := fold_left (fun acc p => monitor_collection_status p acc) ps t in
  documents_inserted (stats t') = documents_inserted (stats t)
  /\ insert_failures t' = insert_failures t
  /\ is_running t' = is_running t
  /\ requests t' = requests t
  /\ dimension t' = dimension t.
Proof.
  revert t. induction ps as [|p ps IH]; intros t; simpl; [auto 6|].
  destruct (IH (monitor_collection_status p t)) as (H1 & H2 & H3 & H4 & H5).
  destruct (monitor_collection_status_frame p t) as (G1 & G2 & G3 & G4 & G5).
  simpl in *. repeat split; congruence.
Qed.

(** One call of [insert_documents_batch]. *)
Lemma insert_documents_batch_failure batch_size bw t e :
  upsert bw = Some e ->
  let '(t', ok) := insert_documents_batch batch_size bw t in
  ok = false
  /\ errors t'
     = errors t ++ [ErrorRecord (upsert_clock bw) "insert_failure" e None]
  /\ stats t' = stats t
  /\ is_running t' = is_running t.
Proof.
  intros He. unfold insert_documents_batch. rewrite He. simpl. auto.
Qed.

Lemma insert_documents_batch_success batch_size bw t :
  upsert bw = None ->
  let '(t', ok) := insert_documents_batch batch_size bw t in
  ok = true
  /\ errors t' = errors t
  /\ documents_inserted (stats t')
     = documents_inserted (stats t) + batch_size
  /\ is_running t' = is_running t.
Proof.
  intros He. unfold insert_documents_batch. rewrite He. simpl. auto.
Qed.

(** One turn of the loop body. *)
Lemma stress_turn_effect batch_size w t :
  let t' := stress_turn batch_size w t in
  documents_inserted (stats t')
  = documents_inserted (stats t)
    + (if succeeded w then batch_size else 0)
  /\ insert_failures t'
     = insert_failures t + (if succeeded w then 0 else 1)
  /\ is_running t' = is_running t
  /\ requests t' = requests t ++ [build_batch batch_size (batch w) t]
  /\ dimension t' = dimension t.
Proof.
  unfold stress_turn, insert_documents_batch, succeeded, search_probe,
    insert_failures.
  destruct (upsert (batch w)) as [e|]; simpl.
  - rewrite count_kind_app. count_single.
    repeat split; try reflexivity; lia.
  - destruct (search w); simpl; rewrite ?count_kind_app; count_single;
      repeat split; try reflexivity; lia.
Qed.

Lemma count_split ws : count_succeeded ws + count_failed ws = Z.of_nat (length ws).
Proof.
  unfold count_succeeded, count_failed.
  induction ws as [|w ws IH]; simpl; [reflexivity|].
  destruct (succeeded w); simpl; lia.
Qed.

(** The loop, from any count and any tester whose flag is set. *)
Lemma stress_loop_effect batch_size end_time ws count t :
  is_running t = true ->
  let r := stress_loop batch_size end_time ws count t in
  let run := turns_run end_time ws in
  batch_count r = count + Z.of_nat (length run)
  /\ documents_inserted (stats (loop_tester r))
     = documents_inserted (stats t) + batch_size * count_succeeded run
  /\ insert_failures (loop_tester r)
     = insert_failures t + count_failed run
  /\ (loop_active r = true <-> run = ws).
Proof.
  revert count t. induction ws as [|w ws IH]; intros count t Hrun.
  - simpl. unfold count_succeeded, count_failed. simpl.
    repeat split; auto; lia.
  - cbn [stress_loop turns_run].
    destruct (monitor_polls_frame (monitor_polls w) t)
      as (P1 & P2 & P3 & P4 & _).
    set (t0 := fold_left _ (monitor_polls w) t) in *.
    destruct (now w <? end_time); simpl andb.
    2:{ simpl. unfold count_succeeded, count_failed. simpl.
        destruct (stop_requested w); simpl;
          (repeat split; try lia; try congruence;
           unfold insert_failures in *; simpl; lia). }
    destruct (stop_requested w); simpl negb.
    + simpl. unfold count_succeeded, count_failed. simpl.
      repeat split; try lia; try congruence.
      unfold insert_failures in *. simpl. lia.
    + rewrite P3, Hrun. cbn [andb].
      destruct (stress_turn_effect batch_size w t0) as (S1 & S2 & S3 & _).
      destruct (IH (count + 1) (stress_turn batch_size w t0))
        as (I1 & I2 & I3 & I4); [congruence|].
      cbv zeta in *. rewrite I1, I2, I3, S1, S2, P1, P2.
      unfold count_succeeded, count_failed in *. cbn [List.filter].
      destruct (succeeded w); cbn [negb length];
        (repeat split; try lia;
         [intros H; f_equal; apply I4, H
         |intros H; apply I4; congruence]).
Qed.

(** C4.  A batch write that fails appends one record of kind
    insert_failure and changes no counter; one that goes through adds the
    batch size to [documents_inserted] and appends nothing.  The loop
    then runs every turn up to the first one whose test fails by the
    clock or by the flag: after it the counter has grown by the batch
    size times the number of batches that went through, the error list
    has one more insert_failure record per batch that failed, and the
    loop is still active exactly when no observed turn failed the test,
    whatever the number of failures. *)
Theorem stress_loop_counts batch_size end_time ws t :
  is_running t = true ->
  let r := stress_loop batch_size end_time ws 0 t in
  let run := turns_run end_time ws in
  (forall bw t0 e, upsert bw = Some e ->
     insert_documents_batch batch_size bw t0
     = (record_error (ErrorRecord (upsert_clock bw) "insert_failure" e None)
          (send (build_batch batch_size bw t0) t0), false)
     /\ stats (fst (insert_documents_batch batch_size bw t0)) = stats t0) /\
  (forall bw t0, upsert bw = None ->
     snd (insert_documents_batch batch_size bw t0) = true
     /\ errors (fst (insert_documents_batch batch_size bw t0)) = errors t0
     /\ documents_inserted (stats (fst (insert_documents_batch batch_size bw t0)))
        = documents_inserted (stats t0) + batch_size) /\
  batch_count r = Z.of_nat (length run) /\
  documents_inserted (stats (loop_tester r))
  = documents_inserted (stats t) + batch_size * count_succeeded run /\
  Z.of_nat (count_kind "insert_failure" (errors (loop_tester r)))
  = Z.of_nat (count_kind "insert_failure" (errors t)) + count_failed run /\
  (loop_active r = true <-> run = ws) /\
  (loop_active r = false ->
   exists w, In w ws /\ (end_time <= now w \/ stop_requested w = true)).
Proof.
  intros Hrun r run.
  destruct (stress_loop_effect batch_size end_time ws 0 t Hrun)
    as (H1 & H2 & H3 & H4).
  fold r run in H1, H2, H3, H4.
  split; [|split].
  - intros bw t0 e He. unfold insert_documents_batch. rewrite He.
    split; reflexivity.
  - intros bw t0 He. unfold insert_documents_batch. rewrite He.
    repeat split; reflexivity.
  - repeat split; try assumption; try (apply H4); try lia.
    intros Hoff.
    assert (Hne : run <> ws).
    { intros E. apply H4 in E. rewrite Hoff in E. discriminate E. }
    clear - Hne. subst run. induction ws as [|w ws IH]; [contradiction Hne; reflexivity|].
    simpl in Hne.
    destruct (Z.ltb_spec (now w) end_time) as [Hlt|Hge]; simpl in Hne.
    + destruct (stop_requested w) eqn:Hs; simpl in Hne.
      * exists w. split; [left; reflexivity|right; exact Hs].
      * destruct IH as (w' & Hin & Hw'); [congruence|].
        exists w'. split; [right; exact Hin|exact Hw'].
    + exists w. split; [left; reflexivity|left; lia].
Qed.

Lemma stress_loop_counts_witness :
  let r := stress_loop 10 60 every_fifth_fails 0 (init "compact_test") in
  batch_count r = 10 /\
  documents_inserted (stats (loop_tester r)) = 80 /\
  count_kind "insert_failure" (errors (loop_tester r)) = 2%nat /\
  loop_active r = true.
Proof.
  destruct (stress_loop_counts 10 60 every_fifth_fails
              (init "compact_test") eq_refl)
    as (_ & _ & H1 & H2 & H3 & H4 & _).
  cbv zeta.
  split; [rewrite H1; reflexivity|].
  split; [rewrite H2; reflexivity|].
  split; [apply Nat2Z.inj; rewrite H3; reflexivity|].
  apply H4. reflexivity.
Defined.
End StressLoop.

(* ===================================================================== *)
(** ** Document ids *)
(* ===================================================================== *)

Section DocumentIds.
Import CompactTester.

Implicit Types (t : tester) (w : turn_world) (ws : list turn_world).

Lemma digits_value_acc acc s :
  PyStr.digits_value acc s = (acc * PyStr.pow10 s + PyStr.digits_value 0 s)%N.
Proof.
  revert acc. induction s as [|c s IH]; intros acc.
  - unfold PyStr.pow10. simpl. lia.
  - simpl PyStr.digits_value. rewrite IH, (IH (0 * 10 + _)%N).
    unfold PyStr.pow10. simpl String.length.
    rewrite Nat2N.inj_succ, N.pow_succ_r'. lia.
Qed.

Lemma pretty_N_char_value k :
  (k < 10)%N -> (PyStr.ord (pretty_N_char k) - 48 = k)%N.
Proof.
  intros Hk.
  assert (H : (k = 0 \/ k = 1 \/ k = 2 \/ k = 3 \/ k = 4 \/ k = 5 \/ k = 6
               \/ k = 7 \/ k = 8 \/ k = 9)%N) by lia.
  repeat destruct H as [->|H]; try subst k; reflexivity.
Qed.

Lemma digits_value_pretty_go x s :
  PyStr.digits_value 0 (pretty_N_go x s)
  = (x * PyStr.pow10 s + PyStr.digits_value 0 s)%N.
Proof.
  revert s. induction (N.lt_wf_0 x) as [x _ IH]. intros s.
  destruct (N.eq_dec x 0%N) as [->|Hx].
  - rewrite pretty_N_go_0. lia.
  - rewrite pretty_N_go_step by lia.
    rewrite IH by (apply N.div_lt; lia).
    simpl PyStr.digits_value.
    rewrite pretty_N_char_value by (apply N.mod_lt; lia).
    rewrite (digits_value_acc (0 * 10 + _)).
    unfold PyStr.pow10. simpl String.length.
    rewrite Nat2N.inj_succ, N.pow_succ_r'.
    pose proof (N.div_mod x 10%N ltac:(lia)) as Hdm.
    set (p := (10 ^ N.of_nat (String.length s))%N) in *.
    set (q := (x / 10)%N) in *. set (r := (x mod 10)%N) in *.
    clearbody p q r. rewrite Hdm. nia.
Qed.

(** Reading the digits written for a number gives the number back. *)
Lemma digits_value_digits n : PyStr.digits_value 0 (PyStr.digits n) = n.
Proof.
  unfold PyStr.digits, pretty, pretty_N.
  destruct (decide (n = 0%N)) as [->|Hn]; [reflexivity|].
  rewrite digits_value_pretty_go. unfold PyStr.pow10. simpl. lia.
Qed.

Lemma digits_value_zeros k s :
  PyStr.digits_value 0 (PyStr.zeros k +:+ s) = PyStr.digits_value 0 s.
Proof. induction k as [|k IH]; simpl; [reflexivity|exact IH]. Qed.

Lemma zeros_length k : String.length (PyStr.zeros k) = k.
Proof. induction k as [|k IH]; simpl; [reflexivity|]. rewrite IH. reflexivity. Qed.

(** The text of a number that is not negative: at least six characters,
    never fewer than its digits, and it reads back as the number. *)
Lemma format_06d_nonneg n :
  0 <= n ->
  String.length (PyStr.format_06d n)
  = Nat.max 6 (String.length (PyStr.digits (Z.to_N n)))
  /\ Z.of_N (PyStr.digits_value 0 (PyStr.format_06d n)) = n.
Proof.
  intros Hn. unfold PyStr.format_06d.
  destruct (Z.ltb_spec n 0) as [?|_]; [lia|].
  unfold PyStr.zfill. split.
  - rewrite string_length_app, zeros_length. lia.
  - rewrite digits_value_zeros, digits_value_digits. lia.
Qed.

Lemma doc_name_inj x y :
  0 <= x -> 0 <= y -> doc_name x = doc_name y -> x = y.
Proof.
  intros Hx Hy H. unfold doc_name in H. simpl in H.
  injection H as H.
  destruct (format_06d_nonneg x Hx) as [_ Ex].
  destruct (format_06d_nonneg y Hy) as [_ Ey].
  change (PyStr.format_06d x = PyStr.format_06d y) in H.
  congruence.
Qed.

Lemma build_batch_ids batch_size bw t :
  map doc_id (build_batch batch_size bw t)
  = map (batch_doc_id (documents_inserted (stats t))) (range batch_size).
Proof. unfold build_batch. rewrite map_map. reflexivity. Qed.

Lemma sent_ids_send docs t :
  sent_ids (send docs t) = sent_ids t ++ map doc_id docs.
Proof.
  unfold sent_ids, send. simpl.
  rewrite map_app, concat_app. simpl. rewrite app_nil_r. reflexivity.
Qed.

Lemma batch_numbers c batch_size :
  map (batch_doc_id c) (range batch_size)
  = map doc_name (map (fun i => c + Z.of_nat i + 1) (range batch_size)).
Proof. rewrite map_map. reflexivity. Qed.

(** The ids a run hands to the client are the names of its numbers. *)
Lemma stress_loop_sent_ids batch_size end_time ws count t :
  is_running t = true ->
  sent_ids (loop_tester (stress_loop batch_size end_time ws count t))
  = sent_ids t
    ++ map doc_name
         (numbers_from (documents_inserted (stats t)) batch_size
            (turns_run end_time ws)).
Proof.
  revert count t. induction ws as [|w ws IH]; intros count t Hrun.
  - simpl. rewrite app_nil_r. reflexivity.
  - cbn [stress_loop turns_run].
    destruct (monitor_polls_frame (monitor_polls w) t)
      as (P1 & _ & P3 & P4 & _).
    set (t0 := fold_left _ (monitor_polls w) t) in *.
    assert (Hids : sent_ids t0 = sent_ids t).
    { unfold sent_ids. rewrite P4. reflexivity. }
    destruct (now w <? end_time); simpl andb.
    2:{ simpl. rewrite app_nil_r.
        destruct (stop_requested w); exact Hids. }
    destruct (stop_requested w); simpl negb.
    + simpl. rewrite app_nil_r. exact Hids.
    + rewrite P3, Hrun. cbn [andb numbers_from].
      destruct (stress_turn_effect batch_size w t0)
        as (S1 & _ & S3 & S4 & _).
      rewrite IH by congruence.
      rewrite map_app, app_assoc. f_equal.
      * unfold sent_ids at 1. rewrite S4, map_app, concat_app. simpl.
        rewrite app_nil_r, build_batch_ids, batch_numbers, P1.
        fold (sent_ids t0). rewrite Hids. reflexivity.
      * rewrite S1, P1. destruct (succeeded w); f_equal; f_equal; lia.
Qed.

Lemma numbers_from_lower c batch_size ws x :
  0 <= batch_size -> In x (numbers_from c batch_size ws) -> c < x.
Proof.
  intros HB. revert c. induction ws as [|w ws IH]; intros c; simpl; [tauto|].
  rewrite in_app_iff, in_map_iff. intros [(i & <- & _)|H]; [lia|].
  apply IH in H. destruct (succeeded w); lia.
Qed.

Lemma first_batch_NoDup c batch_size :
  NoDup (map (fun i => c + Z.of_nat i + 1) (range batch_size)).
Proof.
  unfold range. generalize 0%nat as a. generalize (Z.to_nat batch_size).
  intros n. induction n as [|n IH]; intros a; cbn [seq map]; constructor.
  - intros Hin. apply list_elem_of_In, in_map_iff in Hin.
    destruct Hin as (i & Hi & Hin).
    apply in_seq in Hin. lia.
  - apply IH.
Qed.

Lemma first_batch_upper c batch_size x :
  In x (map (fun i => c + Z.of_nat i + 1) (range batch_size)) ->
  c < x <= c + batch_size.
Proof.
  rewrite in_map_iff. intros (i & <- & Hin).
  apply in_seq in Hin. lia.
Qed.

Lemma first_batch_head c batch_size :
  0 < batch_size ->
  In (c + 1) (map (fun i => c + Z.of_nat i + 1) (range batch_size)).
Proof.
  intros HB. apply in_map_iff. exists 0%nat. split; [lia|].
  apply in_seq. lia.
Qed.

(** The numbers of a run are pairwise distinct exactly when no batch but
    the last one failed. *)
Lemma numbers_from_NoDup c batch_size ws :
  0 < batch_size ->
  NoDup (numbers_from c batch_size ws)
  <-> all_but_last_succeeded ws = true.
Proof.
  intros HB. revert c. induction ws as [|w ws IH]; intros c.
  - simpl. split; [reflexivity|constructor].
  - cbn [numbers_from all_but_last_succeeded].
    destruct ws as [|w2 ws'].
    + simpl. rewrite app_nil_r. split; [reflexivity|].
      intros _. apply first_batch_NoDup.
    + destruct (succeeded w) eqn:Hw; cbn [andb].
      * rewrite <- (IH (c + batch_size)). split.
        -- intros H. apply NoDup_app in H. tauto.
        -- intros H. apply NoDup_app. split; [apply first_batch_NoDup|].
           split; [|exact H].
           intros x Hx Hin. apply list_elem_of_In in Hx, Hin.
           apply first_batch_upper in Hx.
           apply numbers_from_lower in Hin; lia.
      * split; [|discriminate]. intros H. exfalso.
        apply NoDup_app in H. destruct H as (_ & Hdisj & _).
        apply (Hdisj (c + 1)).
        -- apply list_elem_of_In, first_batch_head, HB.
        -- apply list_elem_of_In. cbn [numbers_from].
           apply in_app_iff. left. apply first_batch_head, HB.
Qed.

Lemma doc_names_NoDup l :
  (forall x, In x l -> 0 <= x) ->
  NoDup (map doc_name l) <-> NoDup l.
Proof.
  intros Hpos. rewrite !NoDup_ListNoDup. split.
  - apply NoDup_map_inv.
  - intros H. induction H as [|x l Hx H IH]; simpl; constructor.
    + rewrite in_map_iff. intros (y & Hy & Hin).
      apply doc_name_inj in Hy; [subst; contradiction| |];
        apply Hpos; simpl; auto.
    + apply IH. intros y Hy. apply Hpos. right. exact Hy.
Qed.


(** C10.  The ids of a batch are doc_ followed by the numbers counter+1
    to counter+B in format 06d (at least six characters, zeros on the
    left, reading back as the number), whatever the random draws; a turn
    moves the counter by B when its write went through and not at all
    when it failed; so the batch built in the turn after a failed one
    carries the same ids again; and over a run that starts with a fresh
    client the ids handed over are pairwise distinct exactly when every
    batch before the last one went through. *)
Theorem batch_ids_follow_counter batch_size end_time ws t :
  is_running t = true ->
  0 < batch_size ->
  0 <= documents_inserted (stats t) ->
  requests t = [] ->
  (forall bw t0,
     map doc_id (build_batch batch_size bw t0)
     = map (fun i =>
              "doc_" +:+ PyStr.format_06d
                           (documents_inserted (stats t0) + Z.of_nat i + 1))
           (seq 0 (Z.to_nat batch_size))) /\
  (forall n, 0 <= n ->
     String.length (PyStr.format_06d n)
     = Nat.max 6 (String.length (PyStr.digits (Z.to_N n)))
     /\ Z.of_N (PyStr.digits_value 0 (PyStr.format_06d n)) = n) /\
  (forall w t0,
     documents_inserted (stats (stress_turn batch_size w t0))
     = documents_inserted (stats t0)
       + (if succeeded w then batch_size else 0)) /\
  (forall w1 w2 t0,
     succeeded w1 = false ->
     let t1 := fold_left (fun acc p => monitor_collection_status p acc)
                 (monitor_polls w2) (stress_turn batch_size w1 t0) in
     map doc_id (build_batch batch_size (batch w2) t1)
     = map doc_id (build_batch batch_size (batch w1) t0)) /\
  (NoDup (sent_ids (loop_tester (stress_loop batch_size end_time ws 0 t)))
   <-> all_but_last_succeeded (turns_run end_time ws) = true).
Proof.
  intros Hrun HB Hc Hreq. repeat apply conj.
  - intros bw t0. apply build_batch_ids.
  - intros n Hn. apply format_06d_nonneg, Hn.
  - intros w t0. apply stress_turn_effect.
  - intros w1 w2 t0 Hfail t1. rewrite !build_batch_ids. f_equal.
    destruct (monitor_polls_frame (monitor_polls w2)
                (stress_turn batch_size w1 t0)) as (P1 & _).
    destruct (stress_turn_effect batch_size w1 t0) as (S1 & _).
    subst t1. cbv zeta in P1, S1. rewrite P1, S1, Hfail. f_equal. lia.
  - intros H. rewrite stress_loop_sent_ids in H by exact Hrun.
    unfold sent_ids at 1 in H. rewrite Hreq in H. simpl in H.
    apply doc_names_NoDup in H.
    + apply numbers_from_NoDup in H; assumption.
    + intros x Hx. apply numbers_from_lower in Hx; lia.
  - intros H. rewrite stress_loop_sent_ids by exact Hrun.
    unfold sent_ids at 1. rewrite Hreq. simpl.
    apply doc_names_NoDup.
    + intros x Hx. apply numbers_from_lower in Hx; lia.
    + apply numbers_from_NoDup; assumption.
Qed.

Lemma batch_ids_follow_counter_witness :
  sent_ids (loop_tester (stress_loop 2 60 fail_then_pass 0
                           (init "compact_test")))
  = ["doc_000001"; "doc_000002"; "doc_000001"; "doc_000002"] /\
  ~ NoDup (sent_ids (loop_tester (stress_loop 2 60 fail_then_pass 0
                                    (init "compact_test")))).
Proof.
  split; [vm_compute; reflexivity|].
  destruct (batch_ids_follow_counter 2 60 fail_then_pass
              (init "compact_test"))
    as (_ & _ & _ & _ & H); try reflexivity; try lia.
  intros Hnd. apply H in Hnd. vm_compute in Hnd. discriminate Hnd.
Defined.

End DocumentIds.

(* ===================================================================== *)
(** ** The tail loop *)
(* ===================================================================== *)

Section TailLoop.
Import Json LogMonitor.

Implicit Types (st : tail_state) (evs : list tail_event).

Lemma same_records_refl m : same_records m m.
Proof. repeat split. Qed.

Lemma same_records_trans m1 m2 m3 :
  same_records m1 m2 -> same_records m2 m3 -> same_records m1 m3.
Proof.
  unfold same_records. intros (?&?&?&?&?) (?&?&?&?&?).
  repeat split; congruence.
Qed.

(** Once the function has returned nothing is read any more: an event
    can still grow the file or clear the flag, and that is all. *)
Lemma returned_step st ev :
  where_ st = Returned ->
  where_ (tail_step st ev) = Returned
  /\ emitted (tail_step st ev) = emitted st
  /\ same_records (mon (tail_step st ev)) (mon st).
Proof.
  intros H. destruct ev; simpl; unfold poll; rewrite ?H;
    repeat split; auto.
Qed.

Lemma returned_run evs st :
  where_ st = Returned ->
  where_ (tail_run evs st) = Returned
  /\ emitted (tail_run evs st) = emitted st
  /\ same_records (mon (tail_run evs st)) (mon st).
Proof.
  revert st. induction evs as [|ev evs IH]; intros st H.
  - simpl. auto using same_records_refl.
  - simpl. destruct (returned_step st ev H) as (H1 & H2 & H3).
    destruct (IH _ H1) as (I1 & I2 & I3).
    repeat split; try congruence.
    all: destruct I3 as (?&?&?&?&?), H3 as (?&?&?&?&?); congruence.
Qed.

(** A read that fails in the read loop: the handler prints and the
    function returns. *)
Lemma read_failure_step st pos :
  where_ st = Tailing pos ->
  is_running (mon st) = true ->
  tail_step st PollReadError
  = {| mon := say (OutErrorMonitoring ReadFailure) (mon st);
       file := file st; where_ := Returned; emitted := emitted st |}.
Proof.
  intros Hw Hr. simpl. unfold poll. rewrite Hw, Hr. reflexivity.
Qed.

(** C2, as the code has it.  A read that fails while tailing is caught by
    the handler around the whole function: the error is printed, nothing
    else in the monitor changes, and [tail_log_file] returns.  From then
    on no line is read, whatever is appended and however often the loop
    would have turned. *)
Theorem read_failure_ends_tailing st pos evs :
  where_ st = Tailing pos ->
  is_running (mon st) = true ->
  let st1 := tail_step st PollReadError in
  let st2 := tail_run evs st1 in
  where_ st1 = Returned /\
  emitted st1 = emitted st /\
  stats (mon st1) = stats (mon st) /\
  compact_events (mon st1) = compact_events (mon st) /\
  errors (mon st1) = errors (mon st) /\
  get_collection_events (mon st1) = get_collection_events (mon st) /\
  console (mon st1) = console (mon st) ++ [OutErrorMonitoring ReadFailure] /\
  where_ st2 = Returned /\
  emitted st2 = emitted st /\
  same_records (mon st2) (mon st1).
Proof.
  intros Hw Hr st1 st2.
  pose proof (read_failure_step st pos Hw Hr) as Hstep.
  fold st1 in Hstep.
  destruct (returned_run evs st1) as (R1 & R2 & R3).
  { rewrite Hstep. reflexivity. }
  fold st2 in R1, R2, R3.
  rewrite Hstep in *. simpl in *. repeat split; auto; apply R3.
Qed.

(** The monitor is tailing an empty file; a read fails; then a line is
    appended and the loop would turn twice. *)
Lemma read_failure_ends_tailing_witness :
  let st := tail_log_file (init "oasisdb.log") (Some EmptyString) in
  let st' := tail_run [PollReadError; Append (line_of "{}"); Poll; Poll] st in
  where_ st' = Returned /\ emitted st' = [].
Proof.
  intros st st'.
  destruct (read_failure_ends_tailing st 0
              [Append (line_of "{}"); Poll; Poll] eq_refl eq_refl)
    as (_ & _ & _ & _ & _ & _ & _ & H1 & H2 & _).
  split; [exact H1|exact H2].
Defined.

(** C2, as the claim states it, fails: after the failed read the line
    appended next is never handed over, while without the failed read it
    is. *)
Lemma read_failure_is_transient_fails : ~ read_failure_is_transient.
Proof.
  intros H.
  destruct (H (tail_log_file (init "oasisdb.log") (Some EmptyString)) 0%nat
              [Append (line_of "{}"); Poll] eq_refl eq_refl) as [He _].
  vm_compute in He. discriminate He.
Qed.
End TailLoop.

Section Tailing.
Import Json LogMonitor.

Implicit Types (st : tail_state) (evs : list tail_event) (T : list string).

Lemma tail_run_snoc evs ev st :
  tail_run (evs ++ [ev]) st = tail_step (tail_run evs st) ev.
Proof. unfold tail_run. rewrite fold_left_app. reflexivity. Qed.

Lemma tail_run_app evs1 evs2 st :
  tail_run (evs1 ++ evs2) st = tail_run evs2 (tail_run evs1 st).
Proof. unfold tail_run. apply fold_left_app. Qed.

Lemma texts_app evs1 evs2 : texts (evs1 ++ evs2) = texts evs1 ++ texts evs2.
Proof.
  induction evs1 as [|ev evs1 IH]; simpl; [reflexivity|].
  destruct ev; simpl; rewrite ?IH; reflexivity.
Qed.

Lemma texts_polls n : texts (repeat Poll n) = [].
Proof. induction n as [|n IH]; simpl; [reflexivity|exact IH]. Qed.

Lemma tracks_unread pre T k st pos :
  tracks pre T k st -> where_ st = Tailing pos ->
  PyStr.drop pos (default EmptyString (file st)) = join (drop k T).
Proof.
  intros (Hf & Hk & _ & _ & Hpos) Hw. rewrite Hf, (Hpos pos Hw). simpl.
  rewrite <- (take_drop k T) at 2.
  rewrite join_app, <- string_app_assoc. apply drop_app_length.
Qed.

Lemma tracks_start m pre :
  tracks pre [] 0 (tail_log_file m (Some pre)).
Proof.
  unfold tracks. simpl. rewrite string_app_nil_r.
  repeat split; auto; try discriminate.
  intros pos H. injection H as <-. reflexivity.
Qed.

(** One turn of the loop under [tracks]: either the tailer stops, or it
    hands over the next line when there is one. *)
Lemma tracks_poll fails pre T k st :
  Forall (fun x => whole_line x = true) T ->
  tracks pre T k st ->
  (where_ (poll fails st) = Returned /\ (k <= length (emitted (poll fails st)))%nat
   /\ tracks pre T (length (emitted (poll fails st))) (poll fails st))
  \/ tracks pre T (Nat.min (S k) (length T)) (poll fails st).
Proof.
  intros HT Htr. pose proof Htr as (Hf & Hk & He & Hw & Hpos).
  unfold poll. destruct (where_ st) as [|pos|] eqn:Hwh; [congruence| |].
  2:{ left. rewrite Hwh, He, length_take. split; [reflexivity|].
      split; [lia|]. replace (Nat.min k (length T)) with k by lia.
      exact Htr. }
  destruct (is_running (mon st)); simpl negb; cbv iota.
  2:{ left. simpl. rewrite He, length_take.
      split; [reflexivity|]. split; [lia|].
      replace (Nat.min k (length T)) with k by lia.
      unfold tracks. simpl. repeat split; auto; discriminate. }
  destruct fails.
  { left. simpl. rewrite He, length_take.
    split; [reflexivity|]. split; [lia|].
    replace (Nat.min k (length T)) with k by lia.
    unfold tracks. simpl. repeat split; auto; discriminate. }
  rewrite (tracks_unread pre T k st pos Htr Hwh).
  destruct (drop k T) as [|x T'] eqn:Hdrop.
  - (* nothing unread *)
    cbn [join take_line]. right.
    assert (Hlen : (length T <= k)%nat).
    { apply (f_equal (@length string)) in Hdrop.
      rewrite length_drop in Hdrop. simpl in Hdrop. lia. }
    replace (Nat.min (S k) (length T)) with k by lia. exact Htr.
  - assert (Hx : whole_line x = true).
    { assert (Hin : x ∈ drop k T) by (rewrite Hdrop; left).
      rewrite Forall_forall in HT. apply HT.
      apply list_elem_of_In. apply list_elem_of_In in Hin.
      revert Hin. clear. revert T. induction k as [|k IH]; intros [|y T]; simpl; auto.
    }
    assert (Hklt : (k < length T)%nat).
    { apply (f_equal (@length string)) in Hdrop.
      rewrite length_drop in Hdrop. simpl in Hdrop. lia. }
    assert (Htake : take (S k) T = take k T ++ [x]).
    { rewrite (take_S_r T k x); [reflexivity|].
      rewrite <- (Nat.add_0_r k), <- lookup_drop, Hdrop. reflexivity. }
    simpl join. rewrite (take_line_whole x (join T') Hx).
    pose proof (whole_line_nonempty x Hx) as Hne.
    destruct x as [|c x]; [congruence|].
    set (line := String c x) in *.
    assert (Hnext : tracks pre T (S k)
              {| mon := mon st; file := file st;
                 where_ := Tailing (pos + String.length line);
                 emitted := emitted st ++ [line] |}).
    { unfold tracks. simpl. rewrite He, Htake.
      repeat split; auto; try discriminate; try lia.
      intros p Hp. injection Hp as <-.
      rewrite (Hpos pos eq_refl), join_app, !string_length_app. simpl.
      rewrite string_app_nil_r. lia. }
    destruct Hnext as (N1 & N2 & N3 & N4 & N5). simpl in N1, N3, N5.
    destruct (analyze_log_entry (parse_log_line line) (mon st)) as [m' [[]|e]].
    + right. replace (Nat.min (S k) (length T)) with (S k) by lia.
      unfold tracks. simpl. repeat split; auto; discriminate.
    + left. simpl. rewrite N3, length_take.
      split; [reflexivity|]. split; [lia|].
      replace (Nat.min (S k) (length T)) with (S k) by lia.
      unfold tracks. simpl. repeat split; auto; discriminate.
Qed.

Lemma tracks_step pre T k st ev :
  Forall (fun x => whole_line x = true) (T ++ texts [ev]) ->
  tracks pre T k st ->
  exists k', (k <= k')%nat /\ tracks pre (T ++ texts [ev]) k' (tail_step st ev).
Proof.
  intros HT Htr. destruct ev as [x| | |]; cbn [texts] in *;
    rewrite ?app_nil_r in *.
  - (* Append *)
    exists k. split; [lia|]. destruct Htr as (Hf & Hk & He & Hw & Hpos).
    unfold tracks. simpl. rewrite Hf. simpl.
    rewrite length_app, take_app_le by lia.
    rewrite join_app, string_app_assoc. simpl join.
    rewrite string_app_nil_r.
    repeat split; auto. lia.
  - destruct (tracks_poll false pre T k st HT Htr) as [(_ & Hle & H)|H];
      eexists; (split; [|exact H]).
    + exact Hle.
    + destruct Htr as (_ & Hk & _). lia.
  - destruct (tracks_poll true pre T k st HT Htr) as [(_ & Hle & H)|H];
      eexists; (split; [|exact H]).
    + exact Hle.
    + destruct Htr as (_ & Hk & _). lia.
  - exists k. split; [lia|]. exact Htr.
Qed.

Lemma tracks_run m pre evs :
  Forall (fun x => whole_line x = true) (texts evs) ->
  exists k, tracks pre (texts evs) k (tail_run evs (tail_log_file m (Some pre))).
Proof.
  induction evs as [|ev evs IH] using rev_ind; intros HT.
  - exists 0%nat. apply tracks_start.
  - rewrite texts_app in HT. rewrite tail_run_snoc, texts_app.
    destruct IH as [k Hk].
    { apply Forall_app in HT. tauto. }
    destruct (tracks_step pre (texts evs) k _ ev HT Hk) as (k' & _ & Hk').
    exists k'. exact Hk'.
Qed.

Lemma tracks_polls pre T n k st :
  Forall (fun x => whole_line x = true) T ->
  tracks pre T k st ->
  is_tailing (tail_run (repeat Poll n) st) = true ->
  tracks pre T (Nat.min (k + n) (length T)) (tail_run (repeat Poll n) st).
Proof.
  intros HT. revert k st. induction n as [|n IH]; intros k st Htr Halive.
  - cbn [repeat tail_run fold_left]. destruct Htr as (Hf & Hk & Hrest).
    replace (Nat.min (k + 0) (length T)) with k by lia.
    split; [exact Hf|]. split; [exact Hk|exact Hrest].
  - cbn [repeat] in *. change (tail_run (Poll :: repeat Poll n) st)
      with (tail_run (repeat Poll n) (poll false st)) in *.
    destruct (tracks_poll false pre T k st HT Htr) as [(Hret & _)|H].
    + destruct (returned_run (repeat Poll n) _ Hret) as (Hw & _).
      unfold is_tailing in Halive. rewrite Hw in Halive. discriminate.
    + specialize (IH _ _ H Halive).
      replace (Nat.min (k + S n) (length T))
        with (Nat.min (Nat.min (S k) (length T) + n) (length T)) by lia.
      exact IH.
Qed.





End Tailing.

(* ===================================================================== *)
(** ** More on the analyser *)
(* ===================================================================== *)

Section AnalyserMonotone.
Import Json LogMonitor.

Lemma never_decreases_ret {A} (a : A) : never_decreases (ret a).
Proof. intros m k. simpl. lia. Qed.

Lemma never_decreases_lift {A} (r : result A) : never_decreases (lift r).
Proof. intros m k. simpl. lia. Qed.

Lemma never_decreases_bind {A B} (c : M A) (f : A -> M B) :
  never_decreases c -> (forall a, never_decreases (f a)) ->
  never_decreases (bind c f).
Proof.
  intros Hc Hf m k. unfold bind. specialize (Hc m k).
  destruct (c m) as [m' [a|e]]; simpl in *; [|exact Hc].
  specialize (Hf a m' k). lia.
Qed.

Lemma never_decreases_bump k' : never_decreases (bump k').
Proof.
  intros m k. unfold bump, modify, counter. simpl. rewrite lookup_insert.
  destruct (decide (k' = k)) as [->|]; simpl; lia.
Qed.

Lemma never_decreases_frame f :
  (forall m, stats (f m) = stats m) -> never_decreases (modify f).
Proof. intros Hf m k. unfold modify, counter. simpl. rewrite Hf. lia. Qed.

Ltac keep_counters :=
  repeat first
    [ apply never_decreases_ret | apply never_decreases_lift
    | apply never_decreases_bump
    | apply never_decreases_frame; reflexivity
    | apply never_decreases_bind; [|intros ?]
    | match goal with
      | |- never_decreases (if ?b then _ else _) => destruct b
      end ].

Lemma analyze_log_entry_never_decreases entry :
  never_decreases (analyze_log_entry entry).
Proof.
  unfold analyze_log_entry, track_compact, track_collection, track_errors,
    track_lsm, print, push_compact, push_error, push_get_collection.
  keep_counters.
Qed.

Lemma say_counter l m k : counter k (say l m) = counter k m.
Proof. reflexivity. Qed.

Lemma poll_counters fails st k :
  counter k (mon st) <= counter k (mon (poll fails st)).
Proof.
  unfold poll. destruct (where_ st) as [|pos|]; [| |lia].
  - destruct (file st) as [text|], (is_running (mon st)); simpl; try lia.
    destruct fails; simpl; rewrite ?say_counter; lia.
  - destruct (is_running (mon st)); simpl; [|lia].
    destruct fails; [simpl; rewrite say_counter; lia|].
    destruct (take_line _) as [|c l]; [lia|].
    pose proof (analyze_log_entry_never_decreases
                  (parse_log_line (String c l)) (mon st) k) as H.
    destruct (analyze_log_entry _ _) as [m' [[]|e]]; simpl in *;
      rewrite ?say_counter; exact H.
Qed.

Lemma tail_step_counters st ev k :
  counter k (mon st) <= counter k (mon (tail_step st ev)).
Proof.
  destruct ev as [x| | |]; simpl; try apply poll_counters; try lia.
  unfold stop, set_running, counter. simpl. lia.
Qed.

(** X1.  No counter of the monitor ever goes down: not under the analyser, on
    any value and also when it raises half way, and not over a run of the
    tail loop. *)
Theorem counters_never_decrease :
  forall entry m evs st k,
    counter k m <= counter k (fst (analyze_log_entry entry m)) /\
    counter k (mon st) <= counter k (mon (tail_run evs st)).
Proof.
  intros entry m evs st k. split.
  - apply analyze_log_entry_never_decreases.
  - revert st. induction evs as [|ev evs IH]; intros st; [simpl; lia|].
    change (tail_run (ev :: evs) st) with (tail_run evs (tail_step st ev)).
    apply Z.le_trans with (counter k (mon (tail_step st ev)));
      [apply tail_step_counters|apply IH].
Qed.
End AnalyserMonotone.

Section AnalyserTrace.
Import Json LogMonitor.

Lemma extend_app {A} (xs ys : list A) (d : Deque.deque A) :
  Deque.extend (xs ++ ys) d = Deque.extend ys (Deque.extend xs d).
Proof. unfold Deque.extend. apply fold_left_app. Qed.

Lemma leaves_ret : leaves (ret tt) no_trace.
Proof. intros m. simpl. rewrite app_nil_r. repeat split. Qed.

Lemma leaves_bump k : leaves (bump k) no_trace.
Proof. intros m. simpl. rewrite app_nil_r. repeat split. Qed.

Lemma leaves_print l : leaves (print l) (Trace [] [] [] [l]).
Proof. intros m. simpl. repeat split. Qed.

Lemma leaves_push_compact e : leaves (push_compact e) (Trace [e] [] [] []).
Proof. intros m. simpl. rewrite app_nil_r. repeat split. Qed.

Lemma leaves_push_error e : leaves (push_error e) (Trace [] [e] [] []).
Proof. intros m. simpl. rewrite app_nil_r. repeat split. Qed.

Lemma leaves_push_get_collection e :
  leaves (push_get_collection e) (Trace [] [] [e] []).
Proof. intros m. simpl. rewrite app_nil_r. repeat split. Qed.

Lemma leaves_seq c1 c2 t1 t2 :
  leaves c1 t1 -> leaves c2 t2 -> leaves (c1 ;; c2) (trace_app t1 t2).
Proof.
  intros H1 H2 m. unfold bind.
  destruct (H1 m) as (R1 & A1 & B1 & C1 & D1 & E1 & F1).
  destruct (c1 m) as [m1 r1]. simpl in *. subst r1.
  destruct (H2 m1) as (R2 & A2 & B2 & C2 & D2 & E2 & F2).
  rewrite A2, B2, C2, D2, E2, F2, A1, B1, C1, D1, E1, F1.
  rewrite !extend_app, app_assoc. repeat split; assumption.
Qed.

Lemma leaves_lift {A} (a : A) (f : A -> M unit) tr :
  leaves (f a) tr -> leaves (x <- lift (Ok a) ;; f x) tr.
Proof. intros H m. exact (H m). Qed.

Lemma leaves_ret_bind {A} (a : A) (f : A -> M unit) tr :
  leaves (f a) tr -> leaves (x <- ret a ;; f x) tr.
Proof. intros H m. exact (H m). Qed.

Lemma leaves_eq c t1 t2 : t1 = t2 -> leaves c t1 -> leaves c t2.
Proof. intros ->. auto. Qed.

(** Puts a sequence of primitives against the trace it should leave. *)
Ltac trace_of :=
  repeat first
    [ apply leaves_ret | apply leaves_bump | apply leaves_print
    | apply leaves_push_compact | apply leaves_push_error
    | apply leaves_push_get_collection
    | apply leaves_lift | apply leaves_ret_bind
    | eapply leaves_seq ].

Ltac by_trace := eapply leaves_eq; [|trace_of]; reflexivity.

Lemma track_compact_leaves d ts level msg lmsg :
  leaves (track_compact (PDict d) ts level msg lmsg)
         (compact_trace d ts level msg lmsg).
Proof.
  unfold track_compact, compact_trace, py_get.
  destruct (PyStr.contains "compact" lmsg); [|apply leaves_ret].
  destruct (PyStr.contains "starting" lmsg); [by_trace|].
  destruct (PyStr.contains "completed" lmsg); [by_trace|].
  destruct (PyStr.contains "trigger" lmsg); by_trace.
Qed.

Lemma track_collection_leaves d ts level msg lmsg caller :
  str_field "caller" d = Some caller ->
  leaves (track_collection (PDict d) ts level msg lmsg)
         (collection_trace d ts level msg lmsg caller).
Proof.
  intros Hc. apply str_field_get in Hc.
  unfold track_collection, collection_trace, py_get, py_in. rewrite Hc.
  destruct (PyStr.contains "collection" lmsg); [|apply leaves_ret].
  simpl andb.
  destruct (PyStr.contains "get" lmsg); simpl orb.
  - destruct (String.eqb level "ERROR"); by_trace.
  - apply leaves_lift.
    destruct (PyStr.contains "GetCollection" caller); [|apply leaves_ret].
    destruct (String.eqb level "ERROR"); by_trace.
Qed.

Lemma track_errors_leaves d ts level msg :
  leaves (track_errors (PDict d) ts level msg) (error_trace d ts level msg).
Proof.
  unfold track_errors, error_trace.
  destruct (String.eqb level "ERROR"); by_trace.
Qed.

Lemma track_lsm_leaves level msg lmsg :
  leaves (track_lsm level msg lmsg) (lsm_trace level msg lmsg).
Proof.
  unfold track_lsm, lsm_trace.
  destruct (_ || _ || _); [|apply leaves_ret].
  destruct (String.eqb level "ERROR"); [by_trace|].
  destruct (PyStr.contains "debug" _); [|by_trace].
  destruct (existsb _ _); by_trace.
Qed.

(** On a well-typed entry the analyser leaves exactly the records and
    lines of [analysis_trace]. *)
Lemma analyze_log_entry_leaves d lvl msg caller :
  dict_has "raw" d = false ->
  str_field "level" d = Some lvl ->
  str_field "msg" d = Some msg ->
  str_field "caller" d = Some caller ->
  leaves (analyze_log_entry (PDict d)) (analysis_trace d lvl msg caller).
Proof.
  intros Hraw Hl Hm Hc.
  pose proof (str_field_get _ _ _ Hl) as Hl'.
  pose proof (str_field_get _ _ _ Hm) as Hm'.
  unfold analyze_log_entry, analysis_trace.
  unfold py_in, py_get. rewrite Hraw, Hl', Hm'.
  do 5 apply leaves_lift. simpl as_str.
  eapply leaves_eq; [|eapply leaves_seq; [apply leaves_bump|]].
  2:{ apply leaves_lift.
      apply leaves_seq; [apply track_compact_leaves|].
      apply leaves_seq; [apply track_collection_leaves, Hc|].
      apply leaves_seq; [apply track_errors_leaves|apply track_lsm_leaves]. }
  unfold trace_app, no_trace. simpl. reflexivity.
Qed.
End AnalyserTrace.

Section AnalyserMore.
Import Json LogMonitor.

Lemma lower_upper_char c :
  PyStr.is_ascii_char c = true ->
  PyStr.lower_char (PyStr.upper_char c) = PyStr.lower_char c.
Proof. destruct c as [[] [] [] [] [] [] [] []]; intros H; reflexivity. Qed.

(** On ASCII text, lower-casing after upper-casing is lower-casing. *)
Lemma lower_upper s :
  PyStr.is_ascii s = true ->
  PyStr.lower (PyStr.upper s) = PyStr.lower s.
Proof.
  unfold PyStr.lower, PyStr.upper.
  induction s as [|c s IH]; simpl; [reflexivity|].
  intros H. apply andb_true_iff in H as [Hc Hs].
  rewrite (lower_upper_char c Hc), (IH Hs). reflexivity.
Qed.

Lemma prefix_split p k :
  String.prefix p k = true -> exists rest, k = p +:+ rest.
Proof.
  revert k. induction p as [|c p IH]; intros k H.
  - exists k. reflexivity.
  - destruct k as [|a k]; simpl in H; [discriminate|].
    destruct (ascii_dec c a) as [<-|]; [|discriminate].
    destruct (IH k H) as [rest ->]. exists rest. reflexivity.
Qed.

Lemma occurrences_level_other k lvl msg caller :
  PyStr.is_ascii lvl = true ->
  String.prefix "log_level_" k = true ->
  occurrences k (analysis_keys lvl msg caller)
  = if String.eqb k ("log_level_" +:+ PyStr.lower lvl) then 1 else 0.
Proof.
  intros Ha Hp. unfold analysis_keys. rewrite (lower_upper lvl Ha).
  rewrite occurrences_cons, !occurrences_app.
  destruct (prefix_split _ _ Hp) as [rest ->].
  rewrite occurrences_compact_miss, occurrences_collection_miss,
    occurrences_error_miss, occurrences_lsm_miss by reflexivity.
  destruct (String.eqb _ _); lia.
Qed.

(** X2.  The level counter.  A well-typed entry whose level is ASCII text
    increments the counter named log_level_ and the level in lower case,
    whatever the case the level was written in, and no other counter of
    that family. *)
Theorem level_counted_case_insensitively d lvl msg caller m k :
  dict_has "raw" d = false ->
  str_field "level" d = Some lvl ->
  str_field "msg" d = Some msg ->
  str_field "caller" d = Some caller ->
  PyStr.is_ascii lvl = true ->
  String.prefix "log_level_" k = true ->
  counter k (fst (analyze_log_entry (PDict d) m))
  = counter k m
    + (if String.eqb k ("log_level_" +:+ PyStr.lower lvl) then 1 else 0).
Proof.
  intros Hraw Hl Hm Hc Ha Hk.
  destruct (analyze_log_entry_bumps d lvl msg caller Hraw Hl Hm Hc m)
    as [_ H].
  rewrite H, (occurrences_level_other k lvl msg caller Ha Hk). reflexivity.
Qed.

Lemma level_counted_case_insensitively_witness :
  counter "log_level_warn"
    (fst (analyze_log_entry (PDict [("level", PStr "Warn")])
            (init "oasisdb.log"))) = 1
  /\ counter "log_level_Warn"
       (fst (analyze_log_entry (PDict [("level", PStr "Warn")])
               (init "oasisdb.log"))) = 0.
Proof.
  split.
  - rewrite (level_counted_case_insensitively [("level", PStr "Warn")]
               "Warn" EmptyString EmptyString (init "oasisdb.log")
               "log_level_warn"); reflexivity.
  - rewrite (level_counted_case_insensitively [("level", PStr "Warn")]
               "Warn" EmptyString EmptyString (init "oasisdb.log")
               "log_level_Warn"); reflexivity.
Defined.


End AnalyserMore.

Section AnalyserRecords.
Import Json LogMonitor.

Lemma extend_single {A} (x : A) (d : Deque.deque A) :
  Deque.extend [x] d = Deque.append x d.
Proof. reflexivity. Qed.

Lemma extend_nil {A} (d : Deque.deque A) : Deque.extend [] d = d.
Proof. reflexivity. Qed.



(** X5.  An entry that says nothing of interest.  When the level is ASCII
    text other than ERROR in any case and the message mentions none of
    compact, collection, lsm, sstable and memtable, the analyser counts
    the level and does nothing else: the buffers and the console stay as
    they are and every other counter keeps its value. *)
Theorem plain_entry_only_counts_level d lvl msg caller m :
  dict_has "raw" d = false ->
  str_field "level" d = Some lvl ->
  str_field "msg" d = Some msg ->
  str_field "caller" d = Some caller ->
  PyStr.is_ascii lvl = true ->
  String.eqb (PyStr.upper lvl) "ERROR" = false ->
  existsb (fun w => PyStr.contains w (PyStr.lower msg))
    ["compact"; "collection"; "lsm"; "sstable"; "memtable"] = false ->
  let m' := fst (analyze_log_entry (PDict d) m) in
  snd (analyze_log_entry (PDict d) m) = Ok tt /\
  compact_events m' = compact_events m /\
  errors m' = errors m /\
  get_collection_events m' = get_collection_events m /\
  console m' = console m /\
  forall k,
    counter k m'
    = counter k m
      + (if String.eqb k ("log_level_" +:+ PyStr.lower lvl) then 1 else 0).
Proof.
  intros Hraw Hl Hm Hc Hascii Hlevel Hwords m'.
  simpl in Hwords.
  repeat (apply orb_false_elim in Hwords as [? Hwords]).
  destruct (analyze_log_entry_leaves d lvl msg caller Hraw Hl Hm Hc m)
    as (R & A & B & C & D & _).
  destruct (analyze_log_entry_bumps d lvl msg caller Hraw Hl Hm Hc m)
    as [_ K].
  fold m' in A, B, C, D, K.
  assert (Htr : analysis_trace d lvl msg caller = no_trace).
  { unfold analysis_trace, compact_trace, collection_trace, error_trace,
      lsm_trace.
    repeat match goal with
           | H : PyStr.contains _ _ = false |- _ => rewrite H; clear H
           end.
    rewrite Hlevel. reflexivity. }
  assert (Hkeys : analysis_keys lvl msg caller
                  = ["log_level_" +:+ PyStr.lower lvl]).
  { unfold analysis_keys, compact_keys, collection_keys, error_keys,
      lsm_keys.
    repeat match goal with
           | H : PyStr.contains _ _ = false |- _ => rewrite H; clear H
           end.
    rewrite Hlevel, (lower_upper lvl Hascii). reflexivity. }
  rewrite Htr in A, B, C, D. simpl in A, B, C, D.
  rewrite app_nil_r in D.
  repeat split; try assumption.
  intros k. rewrite K, Hkeys, occurrences_cons, occurrences_nil. lia.
Qed.

Lemma plain_entry_only_counts_level_witness :
  let d := [("level", PStr "info"); ("msg", PStr "server started")] in
  let m' := fst (analyze_log_entry (PDict d) (init "oasisdb.log")) in
  console m' = [] /\ counter "log_level_info" m' = 1
  /\ counter "total_errors" m' = 0.
Proof.
  intros d m'.
  destruct (plain_entry_only_counts_level d "info" "server started"
              EmptyString (init "oasisdb.log"))
    as (_ & _ & _ & _ & D & K); try reflexivity.
  fold m' in D, K. rewrite D, !K. repeat split.
Defined.
End AnalyserRecords.

Section Whitespace.
Import Json LogMonitor.

Lemma lstrip_pad p s :
  all_space p = true -> PyStr.lstrip (p +:+ s) = PyStr.lstrip s.
Proof.
  induction p as [|c p IH]; [reflexivity|].
  simpl all_space. intros H. apply andb_prop in H as [Hc Hp].
  rewrite string_app_cons. simpl. rewrite Hc. apply IH, Hp.
Qed.

Lemma rstrip_all_space p : all_space p = true -> PyStr.rstrip p = EmptyString.
Proof.
  induction p as [|c p IH]; [reflexivity|].
  simpl. intros H. apply andb_prop in H as [Hc Hp].
  rewrite IH, Hc by exact Hp. reflexivity.
Qed.

Lemma rstrip_pad s p :
  all_space p = true -> PyStr.rstrip (s +:+ p) = PyStr.rstrip s.
Proof.
  intros Hp. induction s as [|c s IH].
  - rewrite string_app_nil_l. apply rstrip_all_space, Hp.
  - rewrite string_app_cons. simpl. rewrite IH. reflexivity.
Qed.

Lemma strip_pad_r s p :
  all_space p = true -> PyStr.strip (s +:+ p) = PyStr.strip s.
Proof.
  intros Hp. unfold PyStr.strip. induction s as [|c s IH].
  - rewrite string_app_nil_l. simpl.
    rewrite <- (string_app_nil_r p), lstrip_pad by exact Hp. reflexivity.
  - rewrite string_app_cons. simpl. destruct (PyStr.is_space c).
    + exact IH.
    + rewrite <- string_app_cons. apply rstrip_pad, Hp.
Qed.

Lemma strip_pad p1 s p2 :
  all_space p1 = true -> all_space p2 = true ->
  PyStr.strip (p1 +:+ s +:+ p2) = PyStr.strip s.
Proof.
  intros H1 H2. unfold PyStr.strip. rewrite lstrip_pad by exact H1.
  apply (strip_pad_r s p2 H2).
Qed.

Lemma strip_all_space p : all_space p = true -> PyStr.strip p = EmptyString.
Proof.
  intros H. rewrite <- (string_app_nil_l p).
  rewrite (strip_pad_r EmptyString p H). reflexivity.
Qed.

(** X6.  White space around a line does not matter to [parse_log_line]: neither
    to what it decodes nor to the text it keeps for a line that does not
    decode.  The newline [readline] leaves at the end is such white
    space. *)
Theorem parse_log_line_ignores_padding p1 line p2 :
  all_space p1 = true -> all_space p2 = true ->
  parse_log_line (p1 +:+ line +:+ p2) = parse_log_line line
  /\ parse_log_line (line_of line) = parse_log_line line.
Proof.
  intros H1 H2. unfold parse_log_line, line_of. split.
  - rewrite strip_pad by assumption. reflexivity.
  - rewrite strip_pad_r by reflexivity. reflexivity.
Qed.

Lemma parse_log_line_ignores_padding_witness :
  parse_log_line ("  " +:+ q "{'level':'INFO'}" +:+ line_of " ")
  = PDict [("level", PStr "INFO")].
Proof.
  rewrite (proj1 (parse_log_line_ignores_padding "  " (q "{'level':'INFO'}")
                    (line_of " ") eq_refl eq_refl)).
  reflexivity.
Defined.
End Whitespace.

Section Unreadable.
Import Json LogMonitor.

Lemma blank_is_no_json line :
  all_space line = true -> json_loads (PyStr.strip line) = None.
Proof. intros H. rewrite strip_all_space by exact H. reflexivity. Qed.

(** X7.  A line that is no JSON does not disturb the monitor.  When the loop
    reads a line whose stripped text does not decode, a blank line
    included, the handle moves past it and nothing else happens: no
    counter, buffer or console line changes and the loop goes on. *)
Theorem unreadable_line_is_skipped st pos line :
  where_ st = Tailing pos ->
  is_running (mon st) = true ->
  take_line (PyStr.drop pos (default EmptyString (file st))) = line ->
  line <> EmptyString ->
  json_loads (PyStr.strip line) = None \/ all_space line = true ->
  tail_step st Poll
  = {| mon := mon st; file := file st;
       where_ := Tailing (pos + String.length line);
       emitted := emitted st ++ [line] |}.
Proof.
  intros Hw Hr Hline Hne Hbad.
  assert (Hnone : json_loads (PyStr.strip line) = None).
  { destruct Hbad as [H|H]; [exact H|apply blank_is_no_json, H]. }
  simpl. unfold poll. rewrite Hw, Hr, Hline. simpl negb. cbv iota.
  destruct line as [|c l]; [congruence|].
  unfold parse_log_line. rewrite Hnone. reflexivity.
Qed.

Lemma unreadable_line_is_skipped_witness :
  let st := tail_run [Append (line_of "   "); Append (line_of "panic: boom")]
              (tail_log_file (init "oasisdb.log") (Some EmptyString)) in
  tail_run [Poll] st
  = {| mon := mon st; file := file st;
       where_ := Tailing 4; emitted := [line_of "   "] |}.
Proof.
  intros st.
  apply (unreadable_line_is_skipped st 0 (line_of "   "));
    try reflexivity; [discriminate|right; reflexivity].
Defined.
End Unreadable.

Section FeedingTheAnalyser.
Import Json LogMonitor.

Implicit Types (st : tail_state) (evs : list tail_event) (T : list string).

Lemma preserves_modify P f :
  (forall m, P m -> P (f m)) -> preserves P (modify f).
Proof. intros Hf m H. apply Hf, H. Qed.

Lemma analyze_keeps_running entry m :
  is_running (fst (analyze_log_entry entry m)) = is_running m.
Proof.
  assert (H : preserves (fun m' => is_running m' = is_running m)
                (analyze_log_entry entry)).
  { unfold analyze_log_entry, track_compact, track_collection, track_errors,
      track_lsm, bump, print, push_compact, push_error, push_get_collection.
    repeat first
      [ apply preserves_ret | apply preserves_lift
      | apply preserves_modify; intros ? ?; assumption
      | apply preserves_bind; [|intros ?]
      | match goal with
        | |- preserves _ (if ?b then _ else _) => destruct b
        end ]. }
  apply H. reflexivity.
Qed.

Lemma feed_app l1 l2 m :
  feed (l1 ++ l2) m
  = match feed l1 m with
    | (m', Ok _) => feed l2 m'
    | (m', Raised e) => (m', Raised e)
    end.
Proof.
  revert m. induction l1 as [|x l1 IH]; intros m; [reflexivity|].
  cbn [app feed].
  destruct (analyze_log_entry (parse_log_line x) m) as [m' [[]|e]];
    [apply IH|reflexivity].
Qed.

Lemma feed_keeps_running l m : is_running (fst (feed l m)) = is_running m.
Proof.
  revert m. induction l as [|x l IH]; intros m; [reflexivity|].
  cbn [feed]. pose proof (analyze_keeps_running (parse_log_line x) m) as H.
  destruct (analyze_log_entry (parse_log_line x) m) as [m' [[]|e]];
    simpl in *; [rewrite IH|]; exact H.
Qed.

Lemma drop_head_whole T k x T' :
  Forall (fun y => whole_line y = true) T ->
  drop k T = x :: T' ->
  whole_line x = true /\ (k < length T)%nat /\ take (S k) T = take k T ++ [x].
Proof.
  intros HT Hdrop.
  assert (Hlook : T !! k = Some x).
  { rewrite <- (Nat.add_0_r k), <- lookup_drop, Hdrop. reflexivity. }
  split; [|split].
  - rewrite Forall_forall in HT. apply HT.
    apply list_elem_of_lookup. eauto.
  - apply lookup_lt_Some in Hlook. exact Hlook.
  - apply take_S_r, Hlook.
Qed.

(** One turn of the loop under [fed]. *)
Lemma fed_poll pre m0 T k st :
  Forall (fun y => whole_line y = true) T ->
  fed pre m0 T k st ->
  exists k', (k <= k')%nat /\ fed pre m0 T k' (poll false st)
             /\ (is_tailing (poll false st) = true ->
                 k' = Nat.min (S k) (length T)).
Proof.
  intros HT (Htr & Hrun & Hcase).
  pose proof Htr as (Hf & Hk & He & Hw & Hpos).
  destruct Hcase as [[Hal Hfeed]|(Hret & Hfeed)].
  2:{ exists k. split; [lia|]. unfold poll. rewrite Hret.
      split; [|unfold is_tailing; rewrite Hret; discriminate].
      split; [exact Htr|]. split; [exact Hrun|]. right. tauto. }
  unfold is_tailing in Hal.
  destruct (where_ st) as [|pos|] eqn:Hwh; try discriminate.
  pose proof (tracks_unread pre T k st pos Htr Hwh) as Hunread.
  unfold poll. rewrite Hwh, Hrun. simpl negb. cbv iota. rewrite Hunread.
  destruct (drop k T) as [|x T'] eqn:Hdrop.
  - cbn [join take_line].
    assert (Hlen : (length T <= k)%nat).
    { apply (f_equal (@length string)) in Hdrop.
      rewrite length_drop in Hdrop. simpl in Hdrop. lia. }
    exists k. split; [lia|]. split; [|lia].
    split; [exact Htr|]. split; [exact Hrun|]. left.
    unfold is_tailing. rewrite Hwh. tauto.
  - destruct (drop_head_whole T k x T' HT Hdrop) as (Hx & Hklt & Htake).
    cbn [join]. rewrite (take_line_whole x (join T') Hx).
    pose proof (whole_line_nonempty x Hx) as Hne.
    destruct x as [|c x]; [congruence|].
    set (line := String c x) in *.
    assert (Hnext : forall m w,
      w <> Waiting ->
      (forall p, w = Tailing p -> p = (pos + String.length line)%nat) ->
      tracks pre T (S k)
        {| mon := m; file := file st; where_ := w;
           emitted := emitted st ++ [line] |}).
    { intros m w Hne' Hp. unfold tracks. simpl. rewrite He, Htake.
      repeat split; auto; try lia.
      intros p Hp'. rewrite (Hp p Hp'), (Hpos pos eq_refl), join_app.
      rewrite !string_length_app. simpl. rewrite string_app_nil_r. lia. }
    assert (Hfeed' : feed (take (S k) T) m0
                     = match analyze_log_entry (parse_log_line line) (mon st)
                       with
                       | (m', Ok _) => (m', Ok tt)
                       | (m', Raised e) => (m', Raised e)
                       end).
    { rewrite Htake, feed_app, Hfeed. reflexivity. }
    pose proof (analyze_keeps_running (parse_log_line line) (mon st)) as Hkeep.
    exists (S k). split; [lia|].
    destruct (analyze_log_entry (parse_log_line line) (mon st))
      as [m' [[]|e]]; simpl in Hkeep.
    + split; [|intros _; lia].
      split; [apply Hnext; [discriminate|intros p Hp; congruence]|].
      split; [simpl; congruence|]. left. split; [reflexivity|exact Hfeed'].
    + split; [|discriminate].
      split; [apply Hnext; discriminate|].
      split; [simpl; congruence|]. right. split; [reflexivity|].
      exists m', e. split; [exact Hfeed'|reflexivity].
Qed.

Lemma fed_append pre m0 T k st x :
  fed pre m0 T k st ->
  fed pre m0 (T ++ [x]) k (tail_step st (Append x))
  /\ is_tailing (tail_step st (Append x)) = is_tailing st.
Proof.
  intros (Htr & Hrun & Hcase). split; [|reflexivity].
  pose proof Htr as (Hf & Hk & He & Hw & Hpos).
  assert (Htake : take k (T ++ [x]) = take k T) by (apply take_app_le; lia).
  split; [|split; [exact Hrun|]].
  - unfold tracks. simpl. rewrite Hf. simpl.
    rewrite length_app, Htake, join_app, string_app_assoc. simpl join.
    rewrite string_app_nil_r. repeat split; auto. lia.
  - rewrite Htake. exact Hcase.
Qed.

Lemma fed_start m pre :
  is_running m = true ->
  fed pre (say OutStartMonitor m) [] 0 (tail_log_file m (Some pre)).
Proof.
  intros Hr. split; [apply tracks_start|]. split; [exact Hr|].
  left. split; reflexivity.
Qed.

Lemma fed_run m pre evs :
  is_running m = true ->
  forallb undisturbed evs = true ->
  Forall (fun y => whole_line y = true) (texts evs) ->
  exists k, fed pre (say OutStartMonitor m) (texts evs) k
              (tail_run evs (tail_log_file m (Some pre))).
Proof.
  intros Hr. induction evs as [|ev evs IH] using rev_ind; intros Hq HT.
  - exists 0%nat. apply fed_start, Hr.
  - rewrite forallb_app in Hq. apply andb_prop in Hq as [Hq Hev].
    rewrite texts_app in HT. pose proof HT as HT'.
    apply Forall_app in HT' as [HT1 _].
    destruct (IH Hq HT1) as [k Hk].
    rewrite tail_run_snoc, texts_app.
    destruct ev as [x| | |]; simpl in Hev; try discriminate;
      cbn [texts]; rewrite ?app_nil_r.
    + exists k. apply fed_append, Hk.
    + destruct (fed_poll _ _ _ _ _ HT1 Hk) as (k' & _ & H & _).
      exists k'. exact H.
Qed.

Lemma fed_polls pre m0 T n k st :
  Forall (fun y => whole_line y = true) T ->
  fed pre m0 T k st ->
  exists k', fed pre m0 T k' (tail_run (repeat Poll n) st)
             /\ (is_tailing (tail_run (repeat Poll n) st) = true ->
                 k' = Nat.min (k + n) (length T)).
Proof.
  intros HT. revert k st. induction n as [|n IH]; intros k st Hfed.
  - exists k. split; [exact Hfed|]. intros _.
    destruct Hfed as ((_ & Hk & _) & _). lia.
  - cbn [repeat]. change (tail_run (Poll :: repeat Poll n) st)
      with (tail_run (repeat Poll n) (poll false st)).
    destruct (fed_poll pre m0 T k st HT Hfed) as (k1 & Hle & H1 & Hk1).
    destruct (IH k1 _ H1) as (k2 & H2 & Hk2).
    exists k2. split; [exact H2|]. intros Hal.
    assert (Hal1 : is_tailing (poll false st) = true).
    { destruct (is_tailing (poll false st)) eqn:E; [reflexivity|].
      assert (Hret : where_ (poll false st) = Returned).
      { destruct H1 as ((_ & _ & _ & Hw & _) & _).
        unfold is_tailing in E.
        destruct (where_ (poll false st)); congruence. }
      destruct (returned_run (repeat Poll n) _ Hret) as (Hw & _).
      unfold is_tailing in Hal. rewrite Hw in Hal. discriminate. }
    rewrite (Hk2 Hal), (Hk1 Hal1). lia.
Qed.

(** X8.  The tail loop and the analyser together.  On a file that exists, with
    whole lines appended to it, nobody stopping the monitor and no read
    failing, the loop that has turned at least once per line after the last
    append has given the appended lines, and only them, to the analyser in
    their order.  When the analyser returned on all of them the loop is
    still reading at the end of the file, all lines were handed over and
    the monitor is the one the analyser built; when it raised on one, the
    function has returned, the exception is printed and the lines after
    that one were never read. *)
Theorem tail_loop_feeds_the_analyser m pre evs n :
  is_running m = true ->
  forallb undisturbed evs = true ->
  Forall (fun y => whole_line y = true) (texts evs) ->
  (length (texts evs) <= n)%nat ->
  let st := tail_run (evs ++ repeat Poll n) (tail_log_file m (Some pre)) in
  match feed (texts evs) (say OutStartMonitor m) with
  | (m', Ok _) =>
      where_ st = Tailing (String.length (pre +:+ join (texts evs)))
      /\ mon st = m' /\ emitted st = texts evs
  | (m', Raised e) =>
      where_ st = Returned
      /\ mon st = say (OutErrorMonitoring e) m'
      /\ exists later, texts evs = emitted st ++ later
                       /\ feed (emitted st) (say OutStartMonitor m)
                          = (m', Raised e)
  end.
Proof.
  intros Hr Hq HT Hn st.
  destruct (fed_run m pre evs Hr Hq HT) as [k Hk].
  destruct (fed_polls pre _ _ n k _ HT Hk) as (k' & Hfed & Hk').
  subst st. rewrite tail_run_app.
  set (st := tail_run (repeat Poll n) _) in *.
  set (T := texts evs) in *. set (m0 := say OutStartMonitor m) in *.
  clearbody st T m0.
  destruct Hfed as (Htr & _ & Hcase).
  pose proof Htr as (Hf & Hkle & He & Hw & Hpos).
  destruct Hcase as [[Hal Hfeed]|(Hret & m' & e & Hfeed & Hmon)].
  - specialize (Hk' Hal).
    assert (Hfull : take k' T = T) by (apply take_ge; lia).
    rewrite Hfull in *. rewrite Hfeed.
    unfold is_tailing in Hal.
    destruct (where_ st) as [|pos|] eqn:Hwh; try discriminate.
    rewrite (Hpos pos eq_refl). repeat split; assumption.
  - assert (Hall : feed T m0 = (m', Raised e)).
    { rewrite <- (take_drop k' T), feed_app, Hfeed. reflexivity. }
    rewrite Hall.
    split; [exact Hret|]. split; [exact Hmon|].
    exists (drop k' T). rewrite He. split; [|exact Hfeed].
    symmetry. apply take_drop.
Qed.

Lemma tail_loop_feeds_the_analyser_witness :
  let st := tail_run ([Append (line_of (q "{'level':'ERROR','msg':'x'}"));
                       Poll; Append (line_of "5");
                       Append (line_of "{}")] ++ repeat Poll 3)
              (tail_log_file (init "oasisdb.log") (Some (line_of "old"))) in
  where_ st = Returned
  /\ counter "total_errors" (mon st) = 1
  /\ emitted st = [line_of (q "{'level':'ERROR','msg':'x'}"); line_of "5"].
Proof.
  intros st.
  pose proof (tail_loop_feeds_the_analyser (init "oasisdb.log")
                (line_of "old")
                [Append (line_of (q "{'level':'ERROR','msg':'x'}"));
                 Poll; Append (line_of "5"); Append (line_of "{}")] 3
                eq_refl eq_refl) as H.
  fold st in H. cbv zeta in H.
  destruct H as (Hw & Hm & _).
  - repeat constructor.
  - simpl. lia.
  - split; [exact Hw|]. split; [rewrite Hm; reflexivity|reflexivity].
Defined.
End FeedingTheAnalyser.

Section TailingAcceptedLines.
Import Json LogMonitor.

Implicit Types (st : tail_state) (evs : list tail_event).





End TailingAcceptedLines.

Section StoppingAndWaiting.
Import Json LogMonitor.

Implicit Types (st : tail_state) (evs : list tail_event).

Lemma stopped_step st ev :
  is_running (mon st) = false ->
  is_running (mon (tail_step st ev)) = false
  /\ emitted (tail_step st ev) = emitted st
  /\ same_records (mon (tail_step st ev)) (mon st)
  /\ (where_ st = Returned -> where_ (tail_step st ev) = Returned)
  /\ (is_turn ev = true -> where_ (tail_step st ev) = Returned).
Proof.
  intros Hr.
  assert (Hpoll : forall fails,
    is_running (mon (poll fails st)) = false
    /\ emitted (poll fails st) = emitted st
    /\ same_records (mon (poll fails st)) (mon st)
    /\ where_ (poll fails st) = Returned).
  { intros fails. unfold poll.
    destruct (where_ st) as [|pos|] eqn:Hw.
    - rewrite Hr. destruct (file st); simpl; repeat split; assumption.
    - rewrite Hr. simpl. repeat split; assumption.
    - repeat split; assumption. }
  destruct ev as [x| | |]; simpl.
  - repeat split; auto; discriminate.
  - destruct (Hpoll false) as (A & B & C & D). repeat split; auto; apply C.
  - destruct (Hpoll true) as (A & B & C & D). repeat split; auto; apply C.
  - repeat split; auto; discriminate.
Qed.

Lemma stopped_run evs st :
  is_running (mon st) = false ->
  is_running (mon (tail_run evs st)) = false
  /\ emitted (tail_run evs st) = emitted st
  /\ same_records (mon (tail_run evs st)) (mon st)
  /\ (where_ st = Returned \/ existsb is_turn evs = true ->
      where_ (tail_run evs st) = Returned).
Proof.
  revert st. induction evs as [|ev evs IH]; intros st Hr.
  - simpl. repeat split; auto. intros [H|H]; [exact H|discriminate].
  - change (tail_run (ev :: evs) st) with (tail_run evs (tail_step st ev)).
    destruct (stopped_step st ev Hr) as (S1 & S2 & S3 & S4 & S5).
    destruct (IH _ S1) as (I1 & I2 & I3 & I4).
    split; [exact I1|]. split; [congruence|].
    split; [eapply same_records_trans; eassumption|].
    intros [H|H]; apply I4.
    + left. apply S4, H.
    + simpl in H. apply orb_prop in H as [H|H]; [left; apply S5, H|right; exact H].
Qed.

(** X9.  Stopping.  Once [stop] has cleared the flag no further line is read,
    whatever is appended and however the loop turns: the lines handed over,
    the counters, the buffers and the console stay as they were, and the
    first turn of the loop after it makes [tail_log_file] return. *)
Theorem stop_ends_reading st evs :
  let st' := tail_run (Stop :: evs) st in
  emitted st' = emitted st /\
  same_records (mon st') (mon st) /\
  is_running (mon st') = false /\
  (existsb is_turn evs = true -> where_ st' = Returned).
Proof.
  intros st'. subst st'.
  change (tail_run (Stop :: evs) st) with (tail_run evs (tail_step st Stop)).
  destruct (stopped_run evs (tail_step st Stop) eq_refl) as (H1 & H2 & H3 & H4).
  split; [exact H2|]. split; [|split; [exact H1|]].
  - eapply same_records_trans; [exact H3|]. repeat split.
  - intros H. apply H4. right. exact H.
Qed.

Lemma stop_ends_reading_witness :
  let st := tail_log_file (init "oasisdb.log") (Some EmptyString) in
  let st' := tail_run [Stop; Append (line_of "{}"); Poll; Poll] st in
  where_ st' = Returned /\ emitted st' = [].
Proof.
  intros st st'.
  destruct (stop_ends_reading st [Append (line_of "{}"); Poll; Poll])
    as (H1 & _ & _ & H4).
  split; [apply H4; reflexivity|exact H1].
Defined.

Lemma appends_only_file evs f m w em :
  forallb is_append evs = true ->
  tail_run evs {| mon := m; file := f; where_ := w; emitted := em |}
  = {| mon := m;
       file := match evs with
               | [] => f
               | _ => Some (default EmptyString f +:+ appended evs)
               end;
       where_ := w; emitted := em |}.
Proof.
  revert f. induction evs as [|ev evs IH]; intros f H; [reflexivity|].
  destruct ev as [x| | |]; simpl in H; try discriminate.
  change (tail_run (Append x :: evs) ?s) with (tail_run evs (tail_step s (Append x))).
  cbn [tail_step mon file where_ emitted]. rewrite IH by exact H.
  f_equal. cbn [appended]. destruct evs as [|ev' evs'].
  - simpl. rewrite string_app_nil_r. reflexivity.
  - simpl default. rewrite string_app_assoc. reflexivity.
Qed.

Lemma waiting_polls m n :
  is_running m = true ->
  tail_run (repeat Poll n) (tail_log_file m None) = tail_log_file m None.
Proof.
  intros Hr. induction n as [|n IH]; [reflexivity|].
  cbn [repeat].
  change (tail_run (Poll :: repeat Poll n) ?s)
    with (tail_run (repeat Poll n) (poll false s)).
  unfold poll at 1. simpl. rewrite Hr. exact IH.
Qed.

(** X10.  Waiting for the file.  While the log file does not exist the function
    waits and reads nothing.  When the file has appeared, the turn that
    finds it opens it at its end: the state is the one of a start on the
    file as it is then, so what was written before that turn is never
    handed over, and of whole lines appended later the lines handed over
    are the first ones, in order. *)
Theorem missing_file_is_awaited m n evs1 evs2 :
  is_running m = true ->
  forallb is_append evs1 = true ->
  evs1 <> [] ->
  Forall (fun y => whole_line y = true) (texts evs2) ->
  let found := say OutLogFileFound (say OutLogFileNotFound m) in
  let waiting := tail_run (repeat Poll n) (tail_log_file m None) in
  where_ waiting = Waiting /\ emitted waiting = [] /\
  tail_run (evs1 ++ [Poll]) waiting
  = tail_log_file found (Some (appended evs1)) /\
  exists later,
    texts evs2
    = emitted (tail_run (evs1 ++ [Poll] ++ evs2) waiting) ++ later.
Proof.
  intros Hr Happ Hne HT found waiting.
  assert (Hwait : waiting = tail_log_file m None) by (apply waiting_polls, Hr).
  assert (Hopen : tail_run (evs1 ++ [Poll]) waiting
                  = tail_log_file found (Some (appended evs1))).
  { rewrite Hwait, tail_run_app. unfold tail_log_file at 1.
    rewrite appends_only_file by exact Happ.
    destruct evs1 as [|e1 evs1']; [congruence|].
    cbn [tail_run fold_left tail_step]. unfold poll. simpl. rewrite Hr.
    reflexivity. }
  rewrite Hwait at 1 2. split; [reflexivity|]. split; [reflexivity|].
  split; [exact Hopen|].
  rewrite app_assoc, tail_run_app, Hopen.
  destruct (tracks_run found (appended evs1) evs2 HT) as (k & _ & _ & He & _).
  exists (drop k (texts evs2)). rewrite He. symmetry. apply take_drop.
Qed.

Lemma missing_file_is_awaited_witness :
  emitted (tail_run ([Append (line_of "{}")] ++ [Poll]
                     ++ [Append (line_of "{}"); Poll; Poll])
             (tail_run (repeat Poll 3)
                (tail_log_file (init "oasisdb.log") None)))
  = [line_of "{}"].
Proof.
  destruct (missing_file_is_awaited (init "oasisdb.log") 3
              [Append (line_of "{}")] [Append (line_of "{}"); Poll; Poll]
              eq_refl eq_refl) as (_ & _ & H & _).
  - discriminate.
  - repeat constructor.
  - rewrite app_assoc, tail_run_app, H. reflexivity.
Defined.
End StoppingAndWaiting.

(* ===================================================================== *)
(** ** The client *)
(* ===================================================================== *)

Section ClientRequests.
Import Json Client.

Lemma app_cons_string c s t : String c s +:+ t = String c (s +:+ t).
Proof. reflexivity. Qed.

Lemma app_empty_r s : s +:+ EmptyString = s.
Proof.
  induction s as [|c s IH]; [reflexivity|].
  rewrite app_cons_string, IH. reflexivity.
Qed.

Lemma app_assoc_string s t u : (s +:+ t) +:+ u = s +:+ (t +:+ u).
Proof.
  induction s as [|c s IH]; [reflexivity|].
  rewrite !app_cons_string, IH. reflexivity.
Qed.

Lemma rstrip_slash_slashes n : rstrip_slash (slashes n) = EmptyString.
Proof.
  induction n as [|n IH]; [reflexivity|].
  cbn [slashes rstrip_slash]. rewrite IH. reflexivity.
Qed.

Lemma rstrip_slash_app s n : rstrip_slash (s +:+ slashes n) = rstrip_slash s.
Proof.
  induction s as [|c s IH].
  - change (EmptyString +:+ slashes n) with (slashes n).
    apply rstrip_slash_slashes.
  - rewrite app_cons_string. cbn [rstrip_slash]. rewrite IH. reflexivity.
Qed.

Lemma no_slash_at_the_end_of_nothing u : EmptyString <> u +:+ "/".
Proof. destruct u; discriminate. Qed.

Lemma rstrip_slash_end s u : rstrip_slash s <> u +:+ "/".
Proof.
  revert u. induction s as [|c s IH]; intros u.
  - apply no_slash_at_the_end_of_nothing.
  - cbn [rstrip_slash]. destruct (rstrip_slash s) as [|a r] eqn:E.
    + destruct (Ascii.eqb c "/") eqn:Ec.
      * apply no_slash_at_the_end_of_nothing.
      * destruct u as [|b u].
        -- intros H. injection H as H. subst c. discriminate Ec.
        -- rewrite app_cons_string. intros H. injection H as _ H.
           exact (no_slash_at_the_end_of_nothing u H).
    + destruct u as [|b u].
      * discriminate.
      * rewrite app_cons_string. intros H. injection H as _ H.
        exact (IH u H).
Qed.

Lemma rstrip_slash_rest s : exists k, s = rstrip_slash s +:+ slashes k.
Proof.
  induction s as [|c s [k IH]].
  - exists O. reflexivity.
  - cbn [rstrip_slash]. destruct (rstrip_slash s) as [|a r] eqn:E.
    + destruct (Ascii.eqb c "/") eqn:Ec.
      * apply Ascii.eqb_eq in Ec. subst c. exists (S k).
        rewrite IH at 1. reflexivity.
      * exists k. rewrite IH at 1. reflexivity.
    + exists k. rewrite IH at 1. reflexivity.
Qed.

(** X11.  The constructor drops every slash at the end of the base URL and
    nothing else: two base URLs that differ in such slashes give the same
    client, the stored URL never ends in a slash, and the given URL is the
    stored one followed by slashes only. *)
Theorem base_url_drops_trailing_slashes url n t :
  init (url +:+ slashes n) t = init url t
  /\ (forall u, base_url (init url t) <> u +:+ "/")
  /\ exists k, url = base_url (init url t) +:+ slashes k.
Proof.
  split; [|split].
  - unfold init. rewrite rstrip_slash_app. reflexivity.
  - intros u. apply rstrip_slash_end.
  - apply rstrip_slash_rest.
Qed.

(** What [_request] does to the client and what it makes of the reply. *)
Lemma _request_sent srv method path body c :
  fst (_request srv method path body None c)
  = having_sent (request_of c method path body) c.
Proof.
  unfold _request, having_sent, request_of, _url. cbn [sent].
  destruct (srv _) as [r|e]; [|reflexivity].
  destruct (400 <=? status_code r); [reflexivity|].
  destruct (content r); [reflexivity|].
  destruct (json r); reflexivity.
Qed.

Lemma _request_reply srv method path body c :
  match srv (sent c ++ [request_of c method path body]) with
  | Unreachable e =>
      snd (_request srv method path body None c)
      = Raises (RequestException e)
  | Answers r =>
      (400 <= status_code r ->
       snd (_request srv method path body None c)
       = Raises (oasisdb_error (status_code r) (text r)))
      /\ (status_code r < 400 ->
          snd (_request srv method path body None c)
          = Returns (match content r with
                     | EmptyString => PNone
                     | _ => match json r with
                            | Some v => v
                            | None => PStr (text r)
                            end
                     end))
  end.
Proof.
  unfold _request, request_of, _url. cbn [sent].
  destruct (srv _) as [r|e]; [|reflexivity].
  split; intros H.
  - apply Z.leb_le in H. rewrite H. reflexivity.
  - apply Z.leb_gt in H. rewrite H.
    destruct (content r); [reflexivity|].
    destruct (json r); reflexivity.
Qed.

Lemma _request_eq srv method path body c :
  _request srv method path body None c
  = (having_sent (request_of c method path body) c,
     match srv (sent c ++ [request_of c method path body]) with
     | Unreachable e => Raises (RequestException e)
     | Answers r =>
         if 400 <=? status_code r
         then Raises (oasisdb_error (status_code r) (text r))
         else Returns (match content r with
                       | EmptyString => PNone
                       | _ => match json r with
                              | Some v => v
                              | None => PStr (text r)
                              end
                       end)
     end).
Proof.
  unfold _request, having_sent, request_of, _url. cbn [sent].
  destruct (srv _) as [r|e]; [|reflexivity].
  destruct (400 <=? status_code r); [reflexivity|].
  destruct (content r); [reflexivity|].
  destruct (json r); reflexivity.
Qed.

Lemma discard_fst r : fst (discard r) = fst r.
Proof. destruct r as [c [v|e]]; reflexivity. Qed.

Lemma as_value_fst {A} (f : A -> pyval) r : fst (as_value f r) = fst r.
Proof. destruct r as [c [v|e]]; reflexivity. Qed.

Lemma health_check_fst srv c :
  fst (health_check srv c) = fst (_request srv "GET" "/" None None c).
Proof.
  unfold health_check. destruct (_request _ _ _ _ _ _) as [c' [v|e]];
    reflexivity.
Qed.

(** The loop over a batch returns the batch when every document passes,
    and raises otherwise. *)
Lemma collect_all documents docs :
  forallb has_id_and_vector documents = true ->
  collect documents docs = Returns (docs ++ documents).
Proof.
  revert docs. induction documents as [|d l IH]; intros docs H.
  - cbn. rewrite app_nil_r. reflexivity.
  - cbn [forallb] in H. apply andb_true_iff in H as [Hd Hl].
    unfold has_id_and_vector in Hd. apply andb_true_iff in Hd as [Hi Hv].
    cbn [collect]. rewrite Hi, Hv. cbn [negb orb].
    rewrite (IH _ Hl), <- app_assoc. reflexivity.
Qed.

Lemma collect_some documents docs :
  forallb has_id_and_vector documents = false ->
  collect documents docs
  = Raises (ValueError "Each document must contain 'id' and 'vector'.").
Proof.
  revert docs. induction documents as [|d l IH]; intros docs H.
  - discriminate.
  - cbn [forallb] in H. cbn [collect].
    destruct (has_id_and_vector d) eqn:Hd.
    + unfold has_id_and_vector in Hd. apply andb_true_iff in Hd as [Hi Hv].
      rewrite Hi, Hv. cbn [negb orb]. apply IH. exact H.
    + unfold has_id_and_vector in Hd. apply andb_false_iff in Hd as [Hi|Hv].
      * rewrite Hi. reflexivity.
      * rewrite Hv. destruct (dict_has "id" d); reflexivity.
Qed.

Lemma answers_as_request srv method path body c :
  answers_as (srv (sent (fst (_request srv method path body None c))))
    (snd (_request srv method path body None c)).
Proof.
  rewrite _request_sent. cbn [having_sent sent].
  pose proof (_request_reply srv method path body c) as H.
  unfold answers_as. destruct (srv _) as [r|e]; [|exact H].
  destruct H as [H1 H2]. split; [exact H1|].
  intros Hs. eexists. apply (H2 Hs).
Qed.

Lemma answers_as_shape {A B} rep (o : outcome A) (o' : outcome B) :
  (forall e, o = Raises e -> o' = Raises e) ->
  ((exists v, o = Returns v) -> exists v', o' = Returns v') ->
  answers_as rep o -> answers_as rep o'.
Proof.
  intros Hr Hv. unfold answers_as. destruct rep as [r|x].
  - intros [H1 H2]. split.
    + intros Hs. apply Hr, H1, Hs.
    + intros Hs. apply Hv, H2, Hs.
  - apply Hr.
Qed.

Lemma answers_as_discard rep (p : client * outcome pyval) :
  answers_as rep (snd p) -> answers_as rep (snd (discard p)).
Proof.
  apply answers_as_shape; destruct p as [c [v|e]]; cbn [discard snd].
  - discriminate.
  - intros e' H. injection H as ->. reflexivity.
  - intros _. exists tt. reflexivity.
  - intros [v H]. discriminate.
Qed.

Lemma answers_as_value {A} (f : A -> pyval) rep (p : client * outcome A) :
  answers_as rep (snd p) -> answers_as rep (snd (as_value f p)).
Proof.
  apply answers_as_shape; destruct p as [c [v|e]]; cbn [as_value snd].
  - discriminate.
  - intros e' H. injection H as ->. reflexivity.
  - intros _. eexists. reflexivity.
  - intros [v H]. discriminate.
Qed.

Lemma answers_as_health_check srv c :
  answers_as (srv (sent (fst (health_check srv c))))
    (snd (health_check srv c)).
Proof.
  rewrite health_check_fst.
  generalize (answers_as_request srv "GET" "/" None c).
  apply answers_as_shape; unfold health_check;
    destruct (_request srv "GET" "/" None None c) as [c' [v|e]];
    cbn [snd].
  - discriminate.
  - intros e' H. injection H as ->. reflexivity.
  - intros _. eexists. reflexivity.
  - intros [v H]. discriminate.
Qed.

Lemma oasisdb_error_says_something status message :
  str_error (oasisdb_error status message) <> EmptyString.
Proof.
  unfold oasisdb_error. destruct message; cbn [str_error]; discriminate.
Qed.

Ltac one_request :=
  repeat first [ rewrite as_value_fst | rewrite discard_fst
               | rewrite health_check_fst ];
  rewrite _request_sent.

(** X12.  A call of the public interface goes to the server once, or not
    at all when it is a batch the client refuses: the request goes to the
    base URL followed by a path that starts with a slash, with the client's
    own timeout; it is a GET or a DELETE without a body or a POST with a
    JSON object; and the client keeps its URL, its timeout and its
    session. *)
Theorem calls_send_one_request srv k c :
  base_url (fst (perform srv k c)) = base_url c
  /\ timeout (fst (perform srv k c)) = timeout c
  /\ closed (fst (perform srv k c)) = closed c
  /\ if refused k then
       perform srv k c
       = (c, Raises (ValueError "Each document must contain 'id' and 'vector'."))
     else
       exists method path body,
         sent (fst (perform srv k c))
         = sent c ++ [Request method (base_url c +:+ path) body (timeout c)]
         /\ String.prefix "/" path = true
         /\ ((method = "GET" \/ method = "DELETE") /\ body = None
             \/ method = "POST" /\ exists d, body = Some (PDict d)).
Proof.
  destruct k; cbn [perform refused];
    unfold create_collection, get_collection, list_collections,
      delete_collection, upsert_document, get_document, delete_document,
      build_index, set_params, search_vectors, search_documents;
    try (one_request; cbn [having_sent request_of base_url timeout closed sent];
         repeat split; try reflexivity;
         eexists _, _, _; split; [reflexivity|]; split; [reflexivity|];
         first [ left; split; [left; reflexivity|reflexivity]
               | left; split; [right; reflexivity|reflexivity]
               | right; split; [reflexivity|eexists; reflexivity] ]).
  unfold batch_upsert_documents.
  destruct (forallb has_id_and_vector documents) eqn:E; cbn [negb].
  - rewrite (collect_all _ [] E). cbn [app].
    one_request. cbn [having_sent request_of base_url timeout closed sent].
    repeat split; try reflexivity.
    eexists _, _, _; split; [reflexivity|]; split; [reflexivity|].
    right; split; [reflexivity|eexists; reflexivity].
  - rewrite (collect_some _ [] E). cbn [as_value fst].
    repeat split; reflexivity.
Qed.

(** X13.  Whatever the call, the reply to its request decides how it ends:
    a status of 400 or more raises [OasisDBError] with that status and the
    body as message, or HTTP and the status when the body is empty, so
    that the message is never empty; a status below 400, a redirect as
    well, makes the call return; a server that cannot be reached raises
    what the session raised. *)
Theorem status_decides_the_outcome srv k c :
  refused k = false ->
  match srv (sent (fst (perform srv k c))) with
  | Unreachable e => snd (perform srv k c) = Raises (RequestException e)
  | Answers r =>
      (400 <= status_code r ->
       snd (perform srv k c)
       = Raises (OasisDBError (status_code r)
                   (match text r with
                    | EmptyString => "HTTP " +:+ pretty (status_code r)
                    | message => message
                    end))
       /\ (forall e, snd (perform srv k c) = Raises e ->
           str_error e <> EmptyString))
      /\ (status_code r < 400 -> exists v, snd (perform srv k c) = Returns v)
  end.
Proof.
  intros Hk.
  assert (H : answers_as (srv (sent (fst (perform srv k c))))
                (snd (perform srv k c))).
  { destruct k; cbn [perform];
      unfold create_collection, get_collection, list_collections,
        delete_collection, upsert_document, get_document, delete_document,
        build_index, set_params, search_vectors, search_documents;
      try apply answers_as_request;
      try (rewrite as_value_fst;
           first [ rewrite discard_fst; apply answers_as_value,
                     answers_as_discard, answers_as_request
                 | apply answers_as_value, answers_as_health_check ]).
    cbn [refused] in Hk. apply negb_false_iff in Hk.
    unfold batch_upsert_documents. rewrite (collect_all _ [] Hk).
    rewrite as_value_fst, discard_fst.
    apply answers_as_value, answers_as_discard, answers_as_request. }
  unfold answers_as in H. destruct (srv _) as [r|e]; [|exact H].
  destruct H as [H1 H2]. split; [|exact H2].
  intros Hs. split.
  { rewrite (H1 Hs). unfold oasisdb_error. destruct (text r); reflexivity. }
  intros e He. rewrite (H1 Hs) in He. injection He as <-.
  apply oasisdb_error_says_something.
Qed.

Lemma status_decides_the_outcome_witness :
  snd (perform (always (plain 404 EmptyString)) (GetCollection "demo")
         default_client)
  = Raises (OasisDBError 404 "HTTP 404").
Proof.
  pose proof (status_decides_the_outcome (always (plain 404 EmptyString))
                (GetCollection "demo") default_client eq_refl) as H.
  cbn [always] in H.
  exact (proj1 (proj1 H ltac:(cbn; lia))).
Defined.

Lemma is_status_ok_spec v :
  is_status_ok v = true <-> v = PDict [("status", PStr "ok")].
Proof.
  split.
  - destruct v as [| | | | | |d]; try discriminate.
    destruct d as [|[k v] [|? ?]]; try discriminate.
    + destruct v; try discriminate. cbn [is_status_ok].
      intros H. apply andb_true_iff in H as [Hk Hs].
      apply String.eqb_eq in Hk, Hs. subst. reflexivity.
    + cbn [is_status_ok]. destruct v; discriminate.
  - intros ->. reflexivity.
Qed.

(** X14.  [health_check] returns true for one kind of reply only: a status
    below 400 whose body is not empty and decodes to the object with the
    single key status and the value ok.  Any other reply returns false or
    raises. *)
Theorem health_check_true_iff srv c :
  snd (health_check srv c) = Returns true
  <-> exists r,
        srv (sent c ++ [Request "GET" (base_url c +:+ "/") None (timeout c)])
        = Answers r
        /\ status_code r < 400
        /\ content r <> EmptyString
        /\ json r = Some (PDict [("status", PStr "ok")]).
Proof.
  unfold health_check, _request, _url. cbn [sent].
  destruct (srv _) as [r|e].
  - destruct (400 <=? status_code r) eqn:Es.
    + cbn [snd]. split; [discriminate|].
      intros (r' & Hr & Hlt & _). injection Hr as <-.
      apply Z.leb_le in Es. lia.
    + apply Z.leb_gt in Es. destruct (content r) as [|a body] eqn:Ec.
      * cbn [snd is_status_ok]. split; [discriminate|].
        intros (r' & Hr & _ & Hne & _). injection Hr as <-.
        rewrite Ec in Hne. contradiction.
      * destruct (json r) as [v|] eqn:Ej; cbn [snd].
        -- split.
           ++ intros H. injection H as H. apply is_status_ok_spec in H.
              subst v. exists r. rewrite Ec.
              repeat split; [exact Es|discriminate|exact Ej].
           ++ intros (r' & Hr & _ & _ & Hj). injection Hr as <-.
              rewrite Ej in Hj. injection Hj as ->. reflexivity.
        -- cbn [is_status_ok]. split; [discriminate|].
           intros (r' & Hr & _ & _ & Hj). injection Hr as <-.
           rewrite Ej in Hj. discriminate.
  - cbn [snd]. split; [discriminate|].
    intros (r' & Hr & _). discriminate.
Qed.

Lemma health_check_true_iff_witness :
  snd (health_check (always (plain 200 (q "{'status': 'ok'}")))
         default_client)
  = Returns true.
Proof.
  apply (proj2 (health_check_true_iff _ _)).
  eexists. split; [reflexivity|].
  split; [cbn; lia|]. split; [discriminate|]. vm_compute. reflexivity.
Defined.

(** X15.  A batch write is checked as a whole before anything is sent: one
    document without an id or without a vector, wherever it stands, makes
    the call raise [ValueError] with the client untouched; a batch whose
    documents all have both goes out in one POST that lists them in their
    order.  [build_index] sends the same list unchecked. *)
Theorem batch_is_checked_before_sending srv collection documents c :
  (forall bad, In bad documents -> has_id_and_vector bad = false ->
     batch_upsert_documents srv collection documents c
     = (c, Raises (ValueError "Each document must contain 'id' and 'vector'.")))
  /\ (forallb has_id_and_vector documents = true ->
      sent (fst (batch_upsert_documents srv collection documents c))
      = sent c
        ++ [Request "POST"
              (base_url c +:+ "/v1/collections/" +:+ collection
               +:+ "/documents/batchupsert")
              (Some (PDict [("documents", PList (map PDict documents))]))
              (timeout c)])
  /\ sent (fst (build_index srv collection documents c))
     = sent c
       ++ [Request "POST"
             (base_url c +:+ "/v1/collections/" +:+ collection
              +:+ "/buildindex")
             (Some (PDict [("documents", PList (map PDict documents))]))
             (timeout c)].
Proof.
  split; [|split].
  - intros bad Hin Hbad. unfold batch_upsert_documents.
    rewrite collect_some; [reflexivity|].
    apply not_true_is_false. intros Hall.
    rewrite forallb_forall in Hall. rewrite (Hall _ Hin) in Hbad.
    discriminate.
  - intros Hall. unfold batch_upsert_documents.
    rewrite (collect_all _ [] Hall). cbn [app].
    rewrite discard_fst, _request_sent. reflexivity.
  - unfold build_index. rewrite discard_fst, _request_sent. reflexivity.
Qed.

Lemma batch_is_checked_before_sending_witness :
  batch_upsert_documents down "demo"
    [[("id", PStr "1"); ("vector", PList [])]; [("id", PStr "2")]]
    default_client
  = (default_client,
     Raises (ValueError "Each document must contain 'id' and 'vector'.")).
Proof.
  apply (proj1 (batch_is_checked_before_sending down "demo"
                  [[("id", PStr "1"); ("vector", PList [])];
                   [("id", PStr "2")]] default_client)
           [("id", PStr "2")]).
  - right. left. reflexivity.
  - reflexivity.
Defined.

End ClientRequests.

(* ===================================================================== *)
(** ** The stress test over the client *)
(* ===================================================================== *)

Section HarnessOverTheClient.
Import Json CompactTester Harness.

Implicit Types (h : harness) (srv : Client.server).

(** X16.  [insert_single_document] never reaches the server: it hands the
    document to [upsert_document] as a positional argument, which the
    signature does not take, so the call raises [TypeError] before any
    request; the method returns false, leaves the counters and the client
    as they were, and appends one single_insert_failure record with the
    id of the document. *)
Theorem single_insert_never_reaches_the_server srv look draw clock id h :
  insert_single_document srv look draw clock id h
  = ({| tester :=
          record_error
            {| err_timestamp := clock; err_type := "single_insert_failure";
               err_error :=
                 "OasisDBClient.upsert_document() takes 2 positional arguments but 3 were given";
               err_doc_id := Some id |} (tester h);
        client := client h |}, false)
  /\ stats (tester (fst (insert_single_document srv look draw clock id h)))
     = stats (tester h)
  /\ Client.sent (client (fst (insert_single_document srv look draw clock id h)))
     = Client.sent (client h).
Proof. repeat split. Qed.

Lemma complaint_raised srv method path body c :
  raised (snd (Client._request srv method path body None c))
  = complaint (srv (Client.sent c
                    ++ [Client.request_of c method path body])).
Proof.
  rewrite _request_eq. cbn [snd]. unfold complaint.
  destruct (srv _) as [r|e]; [|reflexivity].
  destruct (400 <=? Client.status_code r); reflexivity.
Qed.




Lemma not_longer {A} (l : list A) x : l ++ [x] <> l.
Proof.
  intros H. apply (f_equal (@length A)) in H.
  rewrite length_app in H. cbn in H. lia.
Qed.

(** X18.  The search probe sends one search with limit 5 and changes no
    counter.  It records nothing exactly when the reply has a status below
    400 and decodes to an object whose ids, if it has any, have a length;
    any other reply appends one search_failure record.  A reply with an
    empty body is such a failure, although the search itself went
    through. *)
Theorem search_probe_needs_an_object srv query clock h :
  let rep := srv (Client.sent (client h) ++ [search_request query h]) in
  let h' := search_probe srv query clock h in
  client h' = Client.having_sent (search_request query h) (client h)
  /\ stats (tester h') = stats (tester h)
  /\ (errors (tester h') = errors (tester h)
      \/ exists e,
           errors (tester h')
           = errors (tester h) ++ [ErrorRecord clock "search_failure" e None])
  /\ (errors (tester h') = errors (tester h)
      <-> exists r d,
            rep = Client.Answers r /\ Client.status_code r < 400
            /\ decoded r = PDict d
            /\ match dict_get "ids" d with
               | None => True
               | Some ids => has_len ids = true
               end)
  /\ (forall r, rep = Client.Answers r -> Client.status_code r < 400 ->
      Client.content r = EmptyString ->
      errors (tester h')
      = errors (tester h)
        ++ [ErrorRecord clock "search_failure"
              "'NoneType' object has no attribute 'get'" None]).
Proof.
  cbv zeta. unfold search_probe, search_then_count, Client.search_vectors,
    search_request.
  rewrite _request_eq.
  set (req := Client.request_of _ _ _ _).
  destruct (srv _) as [r|e] eqn:Erep.
  2:{ cbn. repeat split.
      - right. eexists. reflexivity.
      - intros H. exfalso. exact (not_longer _ _ H).
      - intros (r & d & Hr & _). discriminate.
      - intros r Hr. discriminate. }
  destruct (400 <=? Client.status_code r) eqn:Es.
  { apply Z.leb_le in Es. cbn. repeat split.
    - right. eexists. reflexivity.
    - intros H. exfalso. exact (not_longer _ _ H).
    - intros (r' & d & Hr & Hlt & _). injection Hr as <-. lia.
    - intros r' Hr Hlt. injection Hr as <-. lia. }
  apply Z.leb_gt in Es.
  change (match Client.content r with
          | EmptyString => PNone
          | String _ _ =>
              match Client.json r with
              | Some v => v
              | None => PStr (Client.text r)
              end
          end) with (decoded r).
  destruct (decoded r) as [| | | | | |d] eqn:Ed;
    try (cbn; repeat split;
         [right; eexists; reflexivity
         |intros H; exfalso; exact (not_longer _ _ H)
         |intros (r' & d' & Hr & _ & Hd & _); injection Hr as <-;
          rewrite Ed in Hd; discriminate
         |intros r' Hr _ Hc; injection Hr as <-;
          unfold decoded in Ed; rewrite Hc in Ed; discriminate ..]).
  cbn [count_ids]. destruct (dict_get "ids" d) as [ids|] eqn:Ei.
  - destruct (has_len ids) eqn:Hl.
    + cbn. repeat split.
      * left. reflexivity.
      * intros _. exists r, d. rewrite Ei. auto.
      * intros r' Hr _ Hc. injection Hr as <-.
        unfold decoded in Ed. rewrite Hc in Ed. discriminate.
    + cbn. repeat split.
      * right. eexists. reflexivity.
      * intros H. exfalso. exact (not_longer _ _ H).
      * intros (r' & d' & Hr & _ & Hd & Hids). injection Hr as <-.
        rewrite Ed in Hd. injection Hd as <-. rewrite Ei in Hids.
        congruence.
      * intros r' Hr _ Hc. injection Hr as <-.
        unfold decoded in Ed. rewrite Hc in Ed. discriminate.
  - cbn. repeat split.
    + left. reflexivity.
    + intros _. exists r, d. rewrite Ei. auto.
    + intros r' Hr _ Hc. injection Hr as <-.
      unfold decoded in Ed. rewrite Hc in Ed. discriminate.
Qed.

Lemma search_probe_needs_an_object_witness :
  errors (tester (search_probe (Client.always (Client.plain 200 EmptyString))
                    [] 7 (Harness.init "http://localhost:8080" "compact_test")))
  = [ErrorRecord 7 "search_failure"
       "'NoneType' object has no attribute 'get'" None].
Proof.
  apply (proj2 (proj2 (proj2 (proj2
           (search_probe_needs_an_object
              (Client.always (Client.plain 200 EmptyString)) [] 7
              (Harness.init "http://localhost:8080" "compact_test")))))
           (Client.plain 200 EmptyString)).
  - reflexivity.
  - cbn. lia.
  - reflexivity.
Defined.

End HarnessOverTheClient.

Section SettingUp.
Import Json CompactTester Harness.

Implicit Types (h : harness) (srv : Client.server).

Lemma complaint_cases rep :
  (exists e, complaint rep = Some e) \/ complaint rep = None.
Proof. destruct (complaint rep); [left; eexists; reflexivity|right; reflexivity]. Qed.





End SettingUp.

(* ===================================================================== *)
(** ** The error log of the stress test *)
(* ===================================================================== *)

Section ErrorLog.
Import Json CompactTester Harness.

Implicit Types (t : CompactTester.tester) (w : turn_world)
  (ws : list turn_world).

Lemma numbered_lookup {A B} (f : nat * A -> B) (l : list A) k i e :
  nth_error l i = Some e ->
  nth_error (map f (combine (seq k (length l)) l)) i = Some (f ((k + i)%nat, e)).
Proof.
  revert k i. induction l as [|x l IH]; intros k [|i] H; try discriminate.
  - injection H as ->. cbn. rewrite Nat.add_0_r. reflexivity.
  - cbn [length seq combine map nth_error].
    rewrite (IH (S k) i H). do 3 f_equal. lia.
Qed.

(** X20.  [print_errors] shows the last ten errors and no more: after the
    line with the total come the items, as many as there are errors up to
    ten, numbered from one in the order of the log and ending with its
    last record; the line that counts the others is there exactly when
    the log holds more than ten, and counts the ones not shown.  An empty
    log gives the one line that says so. *)
Theorem print_errors_shows_the_last_ten strftime t :
  let n := length (errors t) in
  (errors t = [] -> print_errors strftime t = [NoErrors])
  /\ (errors t <> [] ->
      exists items,
        print_errors strftime t
        = Detected n :: items
          ++ (if (10 <? n)%nat then [More (n - 10)] else [])
        /\ length items = Nat.min 10 n
        /\ forall i e,
             nth_error (errors t) (n - 10 + i) = Some e ->
             nth_error items i = Some (item_of strftime (S i) e)).
Proof.
  cbv zeta. unfold print_errors. split.
  - intros ->. reflexivity.
  - intros Hne. destruct (errors t) as [|e0 l] eqn:E; [contradiction|].
    rewrite <- E. eexists. split; [reflexivity|]. split.
    + rewrite length_map, length_combine, length_seq, Nat.min_id.
      unfold shown. apply last_n_length.
    + intros i e Hi.
      rewrite (numbered_lookup _ (shown t) 1 i e).
      * reflexivity.
      * unfold shown, Deque.last_n. rewrite nth_error_skipn. exact Hi.
Qed.

Lemma print_errors_shows_the_last_ten_witness :
  exists items,
    print_errors (fun _ => "12:00:00")
      (set_errors
         (map (fun i => ErrorRecord (Z.of_nat i) "search_failure" "503" None)
            (seq 0 12))
         (CompactTester.init "compact_test"))
    = Detected 12 :: items ++ [More 2]
    /\ length items = 10%nat.
Proof.
  destruct (proj2 (print_errors_shows_the_last_ten (fun _ => "12:00:00")
                     (set_errors
                        (map (fun i => ErrorRecord (Z.of_nat i)
                                         "search_failure" "503" None)
                           (seq 0 12))
                        (CompactTester.init "compact_test")))
              ltac:(discriminate)) as (items & E & L & _).
  exists items. split; [exact E|exact L].
Defined.

Lemma advanced_refl t : advanced 0 0 0 t t.
Proof.
  unfold advanced. repeat split; try lia.
  exists []. rewrite app_nil_r. repeat split. cbn. lia.
Qed.

Lemma advanced_trans a b c a' b' c' t1 t2 t3 :
  advanced a b c t1 t2 -> advanced a' b' c' t2 t3 ->
  advanced (a + a') (b + b') (c + c') t1 t3.
Proof.
  intros (G1 & F1 & C1 & n1 & E1 & K1 & N1 & S1)
         (G2 & F2 & C2 & n2 & E2 & K2 & N2 & S2).
  unfold advanced. repeat split; try lia.
  exists (n1 ++ n2). rewrite E2, E1, <- app_assoc, forallb_app, K1, K2.
  rewrite !count_kind_app. repeat split; lia.
Qed.

Lemma monitor_poll_advanced p t :
  is_running t = true ->
  advanced (if poll_failed p then 0 else 1) (if poll_failed p then 1 else 0)
    0 t (CompactTester.monitor_collection_status p t).
Proof.
  intros Hr. unfold CompactTester.monitor_collection_status, advanced.
  rewrite Hr. destruct p as [[e|] clock]; cbn [fst snd poll_failed].
  - cbn. repeat split; try lia. eexists. split; [reflexivity|].
    repeat split. cbn. lia.
  - cbn. repeat split; try lia. exists []. rewrite app_nil_r.
    repeat split. cbn. lia.
Qed.

Lemma monitor_polls_advanced ps t :
  is_running t = true ->
  advanced (length (List.filter (fun p => negb (poll_failed p)) ps))
    (length (List.filter poll_failed ps)) 0 t
    (fold_left (fun acc p => CompactTester.monitor_collection_status p acc)
       ps t).
Proof.
  revert t. induction ps as [|p ps IH]; intros t Hr.
  - apply advanced_refl.
  - cbn [fold_left List.filter].
    pose proof (monitor_poll_advanced p t Hr) as H1.
    destruct (monitor_collection_status_frame p t) as (_ & _ & R & _).
    cbv zeta in R.
    pose proof (IH _ (eq_trans R Hr)) as H2.
    pose proof (advanced_trans _ _ _ _ _ _ _ _ _ H1 H2) as H.
    destruct (poll_failed p); cbn [negb length]; exact H.
Qed.

Lemma stress_turn_advanced batch_size w t :
  advanced 0 0 (if succeeded w then 1 else 0) t
    (stress_turn batch_size w t).
Proof.
  unfold stress_turn, CompactTester.insert_documents_batch, succeeded,
    CompactTester.search_probe, advanced.
  destruct (upsert (batch w)) as [e|].
  - cbn. repeat split; try lia. eexists. split; [reflexivity|].
    repeat split. cbn. lia.
  - destruct (search w) as [e|].
    + cbn. repeat split; try lia. eexists. split; [reflexivity|].
      repeat split. cbn. lia.
    + cbn. repeat split; try lia. exists []. rewrite app_nil_r.
      repeat split. cbn. lia.
Qed.

Lemma stress_loop_advanced batch_size end_time ws count t :
  is_running t = true ->
  advanced
    (length (List.filter (fun p => negb (poll_failed p))
               (polls_seen end_time ws)))
    (length (List.filter poll_failed (polls_seen end_time ws)))
    (length (List.filter succeeded (turns_run end_time ws)))
    t (loop_tester (stress_loop batch_size end_time ws count t)).
Proof.
  revert count t. induction ws as [|w ws IH]; intros count t Hr.
  - apply advanced_refl.
  - cbn [stress_loop polls_seen turns_run].
    pose proof (monitor_polls_advanced (monitor_polls w) t Hr) as HP.
    destruct (monitor_polls_frame (monitor_polls w) t) as (_ & _ & R & _).
    cbv zeta in R.
    set (t0 := fold_left _ (monitor_polls w) t) in *.
    assert (R0 : is_running t0 = true) by (rewrite R; exact Hr).
    rewrite !List.filter_app, !length_app.
    destruct (now w <? end_time); cbn [andb].
    2:{ cbn [loop_tester List.filter length]. rewrite !Nat.add_0_r.
        destruct (stop_requested w); exact HP. }
    destruct (stop_requested w); cbn [negb].
    + cbn [loop_tester List.filter length CompactTester.is_running
           CompactTester.set_running]. rewrite !Nat.add_0_r. exact HP.
    + rewrite R0. cbn [andb].
      pose proof (stress_turn_advanced batch_size w t0) as HT.
      destruct (stress_turn_effect batch_size w t0) as (_ & _ & R1 & _).
      cbv zeta in R1.
      pose proof (IH (count + 1) (stress_turn batch_size w t0)
                    (eq_trans R1 R0)) as HL.
      pose proof (advanced_trans _ _ _ _ _ _ _ _ _ HP
                    (advanced_trans _ _ _ _ _ _ _ _ _ HT HL)) as H.
      cbn [List.filter]. cbn [Nat.add] in H.
      destruct (succeeded w); cbn [length]; exact H.
Qed.





Lemma kinds_partition new :
  forallb stress_kind new = true ->
  length new
  = (count_kind "get_collection_failure" new
     + count_kind "insert_failure" new
     + count_kind "search_failure" new)%nat.
Proof.
  induction new as [|e new IH]; [reflexivity|].
  cbn [forallb]. intros H. apply andb_true_iff in H as [He Hn].
  specialize (IH Hn). unfold count_kind in *. cbn [List.filter length].
  unfold stress_kind in He. apply andb_true_iff in He as [He _].
  destruct (String.eqb (err_type e) "insert_failure") eqn:E1;
    destruct (String.eqb (err_type e) "get_collection_failure") eqn:E2;
    destruct (String.eqb (err_type e) "search_failure") eqn:E3;
    try discriminate; cbn [length]; try lia; exfalso;
    rewrite ?String.eqb_eq in *; congruence.
Qed.

(** X22.  The stress test only ever appends to the error log: after a run
    the log is the old one followed by new records, each of kind
    insert_failure, get_collection_failure or search_failure and without
    a document id; there is one per failed poll and one per failed batch,
    and at most one failed search per batch that went through, so the
    log grows by no more than the number of failed polls plus the
    number of turns. *)
Theorem error_log_only_grows batch_size end_time ws t :
  is_running t = true ->
  let r := loop_tester (stress_loop batch_size end_time ws 0 t) in
  let run := turns_run end_time ws in
  let failed := length (List.filter poll_failed (polls_seen end_time ws)) in
  exists new,
    errors r = errors t ++ new
    /\ forallb stress_kind new = true
    /\ count_kind "get_collection_failure" new = failed
    /\ Z.of_nat (count_kind "insert_failure" new) = count_failed run
    /\ Z.of_nat (count_kind "search_failure" new) <= count_succeeded run
    /\ (length new <= failed + length run)%nat.
Proof.
  intros Hr. cbv zeta.
  destruct (stress_loop_advanced batch_size end_time ws 0 t Hr)
    as (_ & _ & _ & new & E & K & N & S).
  destruct (stress_loop_effect batch_size end_time ws 0 t Hr)
    as (_ & _ & I & _).
  cbv zeta in I. unfold insert_failures in I.
  rewrite E, count_kind_app in I.
  pose proof (count_split (turns_run end_time ws)) as CS.
  pose proof (kinds_partition new K) as KP.
  exists new. unfold count_succeeded in *.
  repeat split; try assumption; lia.
Qed.

Lemma error_log_only_grows_witness :
  exists new,
    errors (loop_tester
              (stress_loop 10 10 every_fifth_fails 0
                 (CompactTester.init "compact_test")))
    = new
    /\ (length new <= 10)%nat.
Proof.
  destruct (error_log_only_grows 10 10 every_fifth_fails
              (CompactTester.init "compact_test") eq_refl)
    as (new & E & _ & _ & _ & _ & L).
  exists new. split; [exact E|].
  etransitivity; [exact L|]. vm_compute. lia.
Defined.

End ErrorLog.

(* ===================================================================== *)
(** ** The polling script *)
(* ===================================================================== *)

Section Polling.
Import Jiankong.

Lemma has_status_spec code o :
  has_status code o = true <-> exists timestamp, o = Responds code timestamp.
Proof.
  destruct o as [status ts| |]; cbn [has_status].
  - rewrite Z.eqb_eq. split.
    + intros ->. eexists. reflexivity.
    + intros [ts' H]. injection H as -> _. reflexivity.
  - split; [discriminate|intros [? H]; discriminate].
  - split; [discriminate|intros [? H]; discriminate].
Qed.

(** [lost] in terms of positions. *)
Lemma lost_spec seen obs :
  lost seen obs = true
  <-> (seen = true /\ exists j, exists ts,
         nth_error obs j = Some (Responds 404 ts))
      \/ exists i j ts ts',
           (i < j)%nat /\ nth_error obs i = Some (Responds 200 ts)
           /\ nth_error obs j = Some (Responds 404 ts').
Proof.
  revert seen. induction obs as [|o obs IH]; intros seen.
  - cbn [lost]. split; [discriminate|].
    intros [(_ & [|j] & ts & H)|([|i] & [|j] & ts & ts' & _ & H & H')];
      discriminate.
  - cbn [lost]. rewrite orb_true_iff, andb_true_iff, IH, orb_true_iff.
    rewrite !has_status_spec. split.
    + intros [[Hs [ts Ho]]|[[[Hs|[ts Ho]] (j & ts' & Hj)]|H]].
      * left. split; [exact Hs|]. exists O, ts. rewrite Ho. reflexivity.
      * left. split; [exact Hs|]. exists (S j), ts'. exact Hj.
      * right. exists O, (S j), ts, ts'. rewrite Ho.
        split; [lia|]. split; [reflexivity|exact Hj].
      * destruct H as (i & j & ts & ts' & Hlt & Hi & Hj).
        right. exists (S i), (S j), ts, ts'. split; [lia|]. split; assumption.
    + intros [[Hs ([|j] & ts & Hj)]|(i & j & ts & ts' & Hlt & Hi & Hj)].
      * left. split; [exact Hs|]. exists ts. cbn in Hj. congruence.
      * right. left. split; [left; exact Hs|]. exists j, ts. exact Hj.
      * destruct j as [|j]; [lia|]. destruct i as [|i].
        -- right. left. split.
           ++ right. exists ts. cbn in Hi. congruence.
           ++ exists j, ts'. exact Hj.
        -- right. right. exists i, j, ts, ts'.
           split; [lia|]. split; assumption.
Qed.

Lemma loop_stopped obs s : polling s = false -> loop obs s = s.
Proof. intros H. destruct obs; cbn [loop]; [reflexivity|]. rewrite H. reflexivity. Qed.

Lemma loop_polling obs s :
  polling s = true ->
  forallb (fun o => negb (is_interrupt o)) obs = true ->
  polling (loop obs s) = negb (lost (collection_existed s) obs)
  /\ (polling (loop obs s) = false ->
      exists out ts, output (loop obs s) = out ++ [Vanished ts; Ended]).
Proof.
  revert s. induction obs as [|o obs IH]; intros s Hp Hn.
  - cbn. rewrite Hp. split; [reflexivity|discriminate].
  - cbn [forallb] in Hn. apply andb_true_iff in Hn as [Ho Hn].
    cbn [loop lost]. rewrite Hp.
    destruct o as [status ts| |]; [| |discriminate]; cbn [turn has_status].
    + destruct (status =? 200) eqn:E2.
      * apply Z.eqb_eq in E2. subst status. cbn [Z.eqb Pos.eqb].
        rewrite andb_false_r, orb_true_r. cbn [orb].
        destruct (collection_existed s) eqn:Ee.
        -- rewrite <- Ee at 1. apply IH; assumption.
        -- apply (IH {| collection_existed := true;
                        output := output s ++ [Found ts];
                        polling := polling s |}); assumption.
      * destruct (status =? 404) eqn:E4.
        -- destruct (collection_existed s) eqn:Ee; cbn [andb orb].
           ++ rewrite loop_stopped by reflexivity. cbn.
              split; [reflexivity|]. intros _. exists (output s), ts.
              reflexivity.
           ++ rewrite <- Ee at 1. apply IH; assumption.
        -- rewrite andb_false_r, orb_false_r. cbn [orb].
           apply (IH (say [Unexpected ts status] s)); assumption.
    + rewrite andb_false_r, orb_false_r. cbn [orb].
      apply (IH (say [CannotConnect] s)); assumption.
Qed.

(** X23.  Left alone, the polling script ends at one event only: a 404
    that comes after a 200.  A 404 for a collection that was never seen,
    any other status and a server that cannot be reached all keep it
    polling; and when it ends, its last two lines say that the collection
    vanished and that monitoring is over. *)
Theorem monitor_ends_at_the_first_loss obs :
  forallb (fun o => negb (is_interrupt o)) obs = true ->
  (polling (run_monitor obs) = false
   <-> exists i j ts ts',
         (i < j)%nat /\ nth_error obs i = Some (Responds 200 ts)
         /\ nth_error obs j = Some (Responds 404 ts'))
  /\ (polling (run_monitor obs) = false ->
      exists out ts, output (run_monitor obs) = out ++ [Vanished ts; Ended]).
Proof.
  intros Hn. unfold run_monitor.
  destruct (loop_polling obs
              {| collection_existed := false; output := [Started];
                 polling := true |} eq_refl Hn) as [H1 H2].
  split; [|exact H2].
  rewrite H1, negb_false_iff, lost_spec. cbn [collection_existed].
  split.
  - intros [[H _]|H]; [discriminate|exact H].
  - intros H. right. exact H.
Qed.

Lemma monitor_ends_at_the_first_loss_witness :
  polling (run_monitor [Responds 404 "10:00:00.000"; Fails;
                        Responds 200 "10:00:01.000";
                        Responds 500 "10:00:01.500";
                        Responds 404 "10:00:02.000"])
  = false.
Proof.
  apply (proj1 (monitor_ends_at_the_first_loss
                  [Responds 404 "10:00:00.000"; Fails;
                   Responds 200 "10:00:01.000";
                   Responds 500 "10:00:01.500";
                   Responds 404 "10:00:02.000"] eq_refl)).
  exists 2%nat, 4%nat, "10:00:01.000", "10:00:02.000".
  split; [lia|]. split; reflexivity.
Defined.

Lemma found_count_app l1 l2 :
  length (List.filter is_found (l1 ++ l2))
  = (length (List.filter is_found l1) + length (List.filter is_found l2))%nat.
Proof. rewrite List.filter_app, length_app. reflexivity. Qed.

Lemma turn_found o s :
  length (List.filter is_found (output s))
  = (if collection_existed s then 1 else 0)%nat ->
  length (List.filter is_found (output (turn o s)))
  = (if collection_existed (turn o s) then 1 else 0)%nat.
Proof.
  intros H. destruct o as [status ts| |]; cbn [turn].
  - destruct (status =? 200).
    + destruct (collection_existed s) eqn:E; [rewrite E; exact H|].
      cbn [output collection_existed]. rewrite found_count_app, H.
      reflexivity.
    + destruct (status =? 404).
      * destruct (collection_existed s) eqn:E; [|rewrite E; exact H].
        cbn [leave say output collection_existed].
        rewrite found_count_app, H, E. reflexivity.
      * cbn [say output collection_existed]. rewrite found_count_app, H.
        cbn. lia.
  - cbn [say output collection_existed]. rewrite found_count_app, H.
    cbn. lia.
  - cbn [leave say output collection_existed]. rewrite found_count_app, H.
    cbn. lia.
Qed.

Lemma loop_found obs s :
  length (List.filter is_found (output s))
  = (if collection_existed s then 1 else 0)%nat ->
  length (List.filter is_found (output (loop obs s)))
  = (if collection_existed (loop obs s) then 1 else 0)%nat.
Proof.
  revert s. induction obs as [|o obs IH]; intros s H; cbn [loop];
    [exact H|].
  destruct (polling s); [|exact H]. apply IH, turn_found, H.
Qed.

Lemma loop_existed obs s :
  polling s = true ->
  forallb (fun o => negb (is_interrupt o)) obs = true ->
  lost (collection_existed s) obs = false ->
  collection_existed (loop obs s)
  = collection_existed s || existsb (has_status 200) obs.
Proof.
  revert s. induction obs as [|o obs IH]; intros s Hp Hn Hl.
  - cbn. rewrite orb_false_r. reflexivity.
  - cbn [forallb] in Hn. apply andb_true_iff in Hn as [Ho Hn].
    cbn [lost] in Hl. apply orb_false_iff in Hl as [Hl1 Hl2].
    cbn [loop existsb]. rewrite Hp.
    destruct o as [status ts| |]; [| |discriminate];
      cbn [turn has_status] in *.
    + destruct (status =? 200) eqn:E2.
      * rewrite orb_true_r in *.
        destruct (collection_existed s) eqn:Ee.
        -- rewrite (IH s Hp Hn); rewrite Ee; [reflexivity|exact Hl2].
        -- rewrite (IH {| collection_existed := true;
                          output := output s ++ [Found ts];
                          polling := polling s |} Hp Hn Hl2).
           reflexivity.
      * rewrite orb_false_r in Hl2. cbn [orb].
        destruct (status =? 404) eqn:E4.
        -- destruct (collection_existed s) eqn:Ee; [discriminate|].
           rewrite (IH s Hp Hn); rewrite Ee; [reflexivity|exact Hl2].
        -- rewrite (IH (say [Unexpected ts status] s) Hp Hn Hl2).
           reflexivity.
    + rewrite orb_false_r in Hl2. cbn [orb].
      rewrite (IH (say [CannotConnect] s) Hp Hn Hl2). reflexivity.
Qed.

(** X24.  The polling script says that it found the collection once, at
    the first 200, however many follow: the number of such lines is one
    when the collection was seen and zero otherwise, also when the script
    is interrupted. *)
Theorem found_is_announced_once obs :
  length (List.filter is_found (output (run_monitor obs)))
  = (if collection_existed (run_monitor obs) then 1 else 0)%nat
  /\ (forallb (fun o => negb (is_interrupt o)) obs = true ->
      lost false obs = false ->
      collection_existed (run_monitor obs) = existsb (has_status 200) obs).
Proof.
  split.
  - unfold run_monitor. apply loop_found. reflexivity.
  - intros Hn Hl. unfold run_monitor.
    rewrite loop_existed; try assumption; reflexivity.
Qed.

Lemma found_is_announced_once_witness :
  collection_existed
    (run_monitor [Responds 200 "10:00:00.000"; Responds 200 "10:00:00.500";
                  Fails; Responds 200 "10:00:01.500"])
  = true.
Proof.
  rewrite (proj2 (found_is_announced_once
                    [Responds 200 "10:00:00.000"; Responds 200 "10:00:00.500";
                     Fails; Responds 200 "10:00:01.500"]) eq_refl eq_refl).
  reflexivity.
Defined.

End Polling.

(* ===================================================================== *)
(** ** The example script *)
(* ===================================================================== *)

Section ExampleScript.
Import Json Client Example.

Lemma same_session_refl c : same_session c c.
Proof. repeat split. exists []. rewrite app_nil_r. reflexivity. Qed.

Lemma same_session_trans c1 c2 c3 :
  same_session c1 c2 -> same_session c2 c3 -> same_session c1 c3.
Proof.
  intros (B1 & T1 & C1 & m1 & S1) (B2 & T2 & C2 & m2 & S2).
  repeat split; try congruence.
  exists (m1 ++ m2). rewrite S2, S1, app_assoc. reflexivity.
Qed.

Lemma same_session_request srv method path body c :
  exists o,
    _request srv method path body None c
    = (having_sent (request_of c method path body) c, o)
    /\ same_session c (having_sent (request_of c method path body) c).
Proof.
  eexists. split; [apply _request_eq|].
  repeat split. eexists. reflexivity.
Qed.

Lemma same_session_health_check srv c :
  exists c' o, health_check srv c = (c', o) /\ same_session c c'.
Proof.
  unfold health_check.
  destruct (same_session_request srv "GET" "/" None c) as (o & -> & S).
  destruct o; eexists _, _; split; try reflexivity; exact S.
Qed.

Lemma same_session_batch srv collection documents c :
  exists c' o,
    batch_upsert_documents srv collection documents c = (c', o)
    /\ same_session c c'.
Proof.
  unfold batch_upsert_documents. destruct (collect documents []).
  - match goal with
    | |- context [_request ?s ?m ?p ?b None ?c] =>
        destruct (same_session_request s m p b c) as (o & -> & S)
    end.
    destruct o; eexists _, _; split; try reflexivity; exact S.
  - eexists _, _. split; [reflexivity|apply same_session_refl].
Qed.

Lemma steps_session srv rand c :
  same_session c (fst (fst (steps srv rand c))).
Proof.
  unfold steps.
  destruct (same_session_health_check srv c) as (c1 & o1 & -> & S1).
  destruct o1 as [ok|e]; [|exact S1].
  destruct (negb ok); [exact S1|].
  unfold create_collection.
  destruct (same_session_request srv "POST" "/v1/collections"
              (Some (PDict [("name", PStr "demo"); ("dimension", PInt 3);
                            ("index_type", PStr "hnsw");
                            ("parameters", or_empty None)])) c1)
    as (o2 & -> & S2).
  pose proof (same_session_trans _ _ _ S1 S2) as S12.
  destruct o2 as [coll|e]; [|exact S12].
  destruct (same_session_batch srv "demo" (docs rand)
              (having_sent
                 (request_of c1 "POST" "/v1/collections"
                    (Some (PDict [("name", PStr "demo");
                                  ("dimension", PInt 3);
                                  ("index_type", PStr "hnsw");
                                  ("parameters", or_empty None)]))) c1))
    as (c3 & o3 & -> & S3).
  pose proof (same_session_trans _ _ _ S12 S3) as S13.
  destruct o3 as [[]|e]; [|exact S13].
  unfold search_vectors.
  match goal with
  | |- context [_request ?s ?m ?p ?b None ?c] =>
      destruct (same_session_request s m p b c) as (o4 & -> & S4)
  end.
  pose proof (same_session_trans _ _ _ S13 S4) as S14.
  destruct o4 as [v4|e]; [|exact S14].
  unfold search_documents.
  match goal with
  | |- context [_request ?s ?m ?p ?b None ?c] =>
      destruct (same_session_request s m p b c) as (o5 & -> & S5)
  end.
  pose proof (same_session_trans _ _ _ S14 S5) as S15.
  destruct o5 as [v5|e]; [|exact S15].
  unfold list_collections.
  match goal with
  | |- context [_request ?s ?m ?p ?b None ?c] =>
      destruct (same_session_request s m p b c) as (o6 & -> & S6)
  end.
  pose proof (same_session_trans _ _ _ S15 S6) as S16.
  destruct o6 as [v6|e]; exact S16.
Qed.

Lemma handle_client r : fst (fst (handle r)) = fst (fst r).
Proof.
  destruct r as [[c out] e]. destruct e as [| |x]; try reflexivity.
  destruct x; reflexivity.
Qed.

Lemma handle_ending r status message :
  snd (handle r) <> Uncaught (OasisDBError status message).
Proof.
  destruct r as [[c out] e]. destruct e as [| |x]; try discriminate.
  destruct x; discriminate.
Qed.

Lemma clean_up_cases srv c out e :
  base_url c = "http://localhost:8080" -> timeout c = Some 30 ->
  closed c = false ->
  let r := clean_up srv (c, out, e) in
  sent (fst (fst r)) = sent c ++ [delete_demo]
  /\ match srv (sent c ++ [delete_demo]) with
     | Answers _ => closed (fst (fst r)) = true /\ snd r = e
     | Unreachable x =>
         closed (fst (fst r)) = false
         /\ snd r = Uncaught (RequestException x)
     end.
Proof.
  intros Hb Ht Hc. cbv zeta. unfold clean_up, delete_collection.
  rewrite _request_eq.
  assert (Hq : request_of c "DELETE" ("/v1/collections/" +:+ "demo") None
               = delete_demo).
  { unfold request_of, delete_demo. rewrite Hb, Ht. reflexivity. }
  rewrite Hq.
  destruct (srv (sent c ++ [delete_demo])) as [r|x].
  - destruct (400 <=? status_code r); cbn [discard].
    + unfold oasisdb_error. cbn. auto.
    + cbn. auto.
  - cbn. rewrite Hc. auto.
Qed.

(** X25.  The example always tries to clean up: whatever the server did
    before, and also after a failed health check or an error, the last
    request of [main] is the DELETE of the collection demo.  Only
    [OasisDBError] is handled: when that DELETE gets an answer the session
    is closed and no [OasisDBError] leaves [main]; when the server cannot
    be reached the exception of the session leaves [main] and the session
    stays open. *)
Theorem cleanup_is_always_attempted srv rand :
  let c := fst (fst (main srv rand)) in
  let e := snd (main srv rand) in
  (exists before, sent c = before ++ [delete_demo])
  /\ (forall r, srv (sent c) = Answers r -> closed c = true)
  /\ (forall x, srv (sent c) = Unreachable x ->
      closed c = false /\ e = Uncaught (RequestException x))
  /\ (forall status message, e <> Uncaught (OasisDBError status message)).
Proof.
  cbv zeta. unfold main.
  pose proof (steps_session srv rand default_client) as (B & T & C & _).
  pose proof (handle_client (steps srv rand default_client)) as HC.
  pose proof (handle_ending (steps srv rand default_client)) as HE.
  destruct (handle (steps srv rand default_client)) as [[c1 out1] e1].
  cbn [fst snd] in HC, HE. rewrite <- HC in B, T, C.
  destruct (clean_up_cases srv c1 out1 e1 B T C) as [S R].
  cbv zeta in S, R. rewrite S.
  split; [eexists; reflexivity|].
  destruct (srv (sent c1 ++ [delete_demo])) as [r|x].
  - destruct R as [R1 R2].
    split; [intros r' _; exact R1|].
    split; [intros x Hx; discriminate Hx|].
    intros status message. rewrite R2. apply HE.
  - destruct R as [R1 R2].
    split; [intros r Hr; discriminate Hr|].
    split; [intros x' Hx; injection Hx as <-; split; assumption|].
    intros status message. rewrite R2. discriminate.
Qed.

Lemma cleanup_is_always_attempted_witness :
  closed (fst (fst (main down (fun _ => "0.5")))) = false
  /\ snd (main down (fun _ => "0.5"))
     = Uncaught (RequestException "Connection refused").
Proof.
  apply (proj1 (proj2 (proj2 (cleanup_is_always_attempted down
                                (fun _ => "0.5"))))).
  reflexivity.
Defined.

(** X26.  A health check that returns false does not spare the collection:
    [main] prints that the check failed, skips every step, and still sends
    the DELETE of demo, a collection this run never created; these are its
    only two requests, and when the DELETE is answered [main] ends by
    [sys.exit(1)]. *)
Theorem failed_health_check_still_deletes srv rand :
  snd (health_check srv default_client) = Returns false ->
  let c := fst (fst (main srv rand)) in
  let out := snd (fst (main srv rand)) in
  let e := snd (main srv rand) in
  sent c
  = [Request "GET" "http://localhost:8080/" None (Some 30); delete_demo]
  /\ (exists rest, out = HealthIs false :: rest)
  /\ (forall r, srv (sent c) = Answers r -> e = Exits 1).
Proof.
  intros H. cbv zeta. unfold main, steps.
  pose proof (health_check_fst srv default_client) as F.
  rewrite _request_sent in F.
  destruct (health_check srv default_client) as [c1 o1].
  cbn [fst snd] in F, H. subst c1 o1. cbn [negb handle].
  set (c1 := having_sent _ _).
  destruct (clean_up_cases srv c1 [HealthIs false] (Exits 1)
              eq_refl eq_refl eq_refl) as [S R].
  cbv zeta in S, R. rewrite S. split; [reflexivity|].
  split.
  - unfold clean_up, delete_collection. rewrite _request_eq.
    destruct (srv _) as [r|x].
    + destruct (400 <=? status_code r); cbn; eexists; reflexivity.
    + cbn. eexists; reflexivity.
  - intros r Hr. rewrite Hr in R. exact (proj2 R).
Qed.

Lemma failed_health_check_still_deletes_witness :
  sent (fst (fst (main healthy_in_other_words (fun _ => "0.5"))))
  = [Request "GET" "http://localhost:8080/" None (Some 30); delete_demo].
Proof.
  apply (failed_health_check_still_deletes healthy_in_other_words
           (fun _ => "0.5")).
  vm_compute. reflexivity.
Defined.

End ExampleScript.
